(** * DLWAT web application: the prediction gateway and the result pages

    A shallow embedding of [src/pages/api/predict.js] (the API route that
    forwards an uploaded CSV file to the hosted inference service and polls
    while the service reports a queued status) and of the derivations at the
    top of the [Home] components of [src/app/page.tsx] (the frequency tables
    of the flat response, and the summary, cluster and confidence figures of
    the rich response). *)

From Stdlib Require Import ZArith QArith List String Ascii Bool Lia Floats.
From Stdlib Require Import DecimalString DecimalZ DecimalPos Sorting.Sorted Sorting.Permutation.
Import ListNotations.
Local Open Scope string_scope.
Local Open Scope bool_scope.
Local Open Scope list_scope.
Set Warnings "-inexact-float".

(** ** JavaScript values

    The values that cross the module boundaries are what [res.json()] and the
    Gradio client produce: JSON data, plus [undefined] and [Error] instances
    (which is what a rejected promise or a failed property read carries).
    A number is an IEEE 754 binary64, Rocq's primitive [float].  An object
    keeps its properties in creation order.  No value holds a function of its
    own: the callable members are the inherited ones of the built-in
    prototypes, and a property named [toString] shadows the inherited method
    with something that cannot be called. *)
Module JS.

#[local] Set Warnings "-register-all".

Inductive value : Type :=
| JUndefined
| JNull
| JBool (b : bool)
| JNum (n : float)
| JStr (s : string)
| JArr (items : list value)
| JObj (props : list (string * value))
| JError (name message : string).

(** The outcome of an [await] or of an expression that may throw. *)
Inductive result (A : Type) : Type :=
| Ok (a : A)
| Throw (e : value).
Arguments Ok {A} a.
Arguments Throw {A} e.

(** The number that holds a count or a length [z], [0 <= z < 2^53]. *)
Definition num_of_Z (z : Z) : float := PrimFloat.of_uint63 (Uint63.of_Z z).

(** The integer a number is, when it is one that a binary64 holds exactly
    (below [2^53] in magnitude). *)
Definition integer_of_num (n : float) : option Z :=
  match Prim2SF n with
  | S754_zero _ => Some 0%Z
  | S754_finite negative m e =>
      let magnitude :=
        if (0 <=? e)%Z then Some (Zpos m * 2 ^ e)%Z
        else if (Zpos m mod 2 ^ (- e) =? 0)%Z then Some (Zpos m / 2 ^ (- e))%Z
        else None in
      match magnitude with
      | Some z =>
          if (z <? 2 ^ 53)%Z then Some (if negative then (- z)%Z else z) else None
      | None => None
      end
  | _ => None
  end.

(** ToBoolean. *)
Definition truthy (v : value) : bool :=
  match v with
  | JUndefined | JNull => false
  | JBool b => b
  | JNum n => negb (PrimFloat.is_zero n || PrimFloat.is_nan n)
  | JStr s => negb (s =? "")
  | JArr _ | JObj _ | JError _ _ => true
  end.

Definition nullish (v : value) : bool :=
  match v with
  | JUndefined | JNull => true
  | _ => false
  end.

(** [typeof v === "object"]: true of [null] as well. *)
Definition typeof_object (v : value) : bool :=
  match v with
  | JNull | JArr _ | JObj _ | JError _ _ => true
  | _ => false
  end.

Definition isArray (v : value) : bool :=
  match v with
  | JArr _ => true
  | _ => false
  end.

Fixpoint lookup {A : Type} (k : string) (props : list (string * A)) : option A :=
  match props with
  | [] => None
  | (k', v) :: rest => if k' =? k then Some v else lookup k rest
  end.

(** [v[k]] for a [v] that is neither [undefined] nor [null], and for a key
    that names no built-in member: the property of an object, the message of
    an [Error], [undefined] on anything else. *)
Definition prop (v : value) (k : string) : value :=
  match v with
  | JObj props =>
      match lookup k props with
      | Some x => x
      | None => JUndefined
      end
  | JError _ m => if k =? "message" then JStr m else JUndefined
  | _ => JUndefined
  end.

(** The [TypeError] V8 raises on a property read of [undefined] or [null]. *)
Definition read_of_nullish (v : value) (k : string) : value :=
  JError "TypeError"
         ("Cannot read properties of "
          ++ match v with JNull => "null" | _ => "undefined" end
          ++ " (reading '" ++ k ++ "')")%string.

(** [v.k]: throws on [undefined] and [null]. *)
Definition member (v : value) (k : string) : result value :=
  if nullish v then Throw (read_of_nullish v k) else Ok (prop v k).

(** [v?.k] *)
Definition opt_member (v : value) (k : string) : value :=
  if nullish v then JUndefined else prop v k.

(** [a ?? b] *)
Definition coalesce (a b : value) : value :=
  if nullish a then b else a.

(** [k in v], for an object [v]: own and inherited data members.  Every
    [Error] has a [message] (the prototype holds the empty one). *)
Definition has_member (k : string) (v : value) : bool :=
  match v with
  | JObj props =>
      match lookup k props with
      | Some _ => true
      | None => false
      end
  | JError _ _ => k =? "message"
  | _ => false
  end.

(** [v === s] for a string literal [s]. *)
Definition is_string (v : value) (s : string) : bool :=
  match v with
  | JStr t => t =? s
  | _ => false
  end.

(** [xs[0]] *)
Definition first (xs : list value) : value :=
  match xs with
  | [] => JUndefined
  | x :: _ => x
  end.

(** [String(n)] and [Number(s)] for an integer [n] in the safe range and for
    the decimal numerals ([None] stands for every other string, [NaN] among
    them). *)
Definition String_of_Z (n : Z) : string := NilZero.string_of_int (Z.to_int n).

Definition Number_of_string (s : string) : option Z :=
  option_map Z.of_int (NilZero.int_of_string s).

(** [Array.prototype.sort(compareFn)]: the stable sort, which for a
    comparator that orders the elements consistently is the one result the
    language allows.  Insertion from the right keeps equal elements in
    their order. *)
Fixpoint insert {A : Type} (compareFn : A -> A -> Z) (x : A) (l : list A) : list A :=
  match l with
  | [] => [x]
  | y :: rest =>
      if (compareFn x y <=? 0)%Z then x :: l else y :: insert compareFn x rest
  end.

Definition sort {A : Type} (compareFn : A -> A -> Z) (l : list A) : list A :=
  fold_right (insert compareFn) [] l.

(** An array index: a key that is the canonical numeral of an integer in
    [0, 2^32 - 2]. *)
Definition array_index (k : string) : option Z :=
  match Number_of_string k with
  | Some n =>
      if (String_of_Z n =? k) && (0 <=? n)%Z && (n <? 4294967295)%Z then Some n else None
  | None => None
  end.

(** The order in which an object's own properties are enumerated: the array
    indices ascending, then the other keys as created. *)
Definition own_entries {A : Type} (props : list (string * A)) : list (string * A) :=
  let indexed :=
    flat_map (fun kv => match array_index (fst kv) with
                        | Some n => [(n, kv)]
                        | None => []
                        end) props in
  map snd (sort (fun a b => (fst a - fst b)%Z) indexed)
  ++ filter (fun kv => match array_index (fst kv) with
                       | Some _ => false
                       | None => true
                       end) props.

Definition string_of_char (c : ascii) : string := String c EmptyString.

(** The entries [Object.keys] and [Object.values] go through, for a value
    that is neither [undefined] nor [null]. *)
Definition entries (v : value) : list (string * value) :=
  match v with
  | JObj props => own_entries props
  | JArr items =>
      combine (map (fun i => String_of_Z (Z.of_nat i)) (seq 0 (List.length items))) items
  | JStr s =>
      let chars := list_ascii_of_string s in
      combine (map (fun i => String_of_Z (Z.of_nat i)) (seq 0 (List.length chars)))
              (map (fun c => JStr (string_of_char c)) chars)
  | _ => []
  end.

Definition keys (v : value) : list string := map fst (entries v).
Definition values (v : value) : list value := map snd (entries v).

(** [v[k]] for a [v] that is neither [undefined] nor [null] and a key [k]
    that [Object.keys(v)] gave. *)
Definition at_key (v : value) (k : string) : value :=
  match lookup k (entries v) with
  | Some x => x
  | None => prop v k
  end.

(** The [TypeError] of a conversion that finds neither a callable
    [toString] nor a [valueOf] that gives a primitive. *)
Definition not_a_primitive : value :=
  JError "TypeError" "Cannot convert object to primitive value".

(** [r] then [k]: the exception of [r] goes through. *)
Definition and_then {A B : Type} (r : result A) (k : A -> result B) : result B :=
  match r with
  | Ok a => k a
  | Throw e => Throw e
  end.

(** The conversions.  The digits of a number are the runtime's
    ([Number::toString]), a parameter here. *)
Section Conversions.

Variable NumberToString : float -> string.

(** [String(v)].  An object goes through its [toString]: the one of
    [Object.prototype], of [Array.prototype] ([join], which converts the
    elements in turn) or of [Error.prototype]; an own property [toString]
    is no function, the inherited [valueOf] gives the object back, and the
    conversion throws. *)
Fixpoint toString (v : value) : result string :=
  match v with
  | JUndefined => Ok "undefined"
  | JNull => Ok "null"
  | JBool b => Ok (if b then "true" else "false")
  | JNum n => Ok (NumberToString n)
  | JStr s => Ok s
  | JArr items =>
      and_then
        ((fix pieces (xs : list value) : result (list string) :=
            match xs with
            | [] => Ok []
            | x :: rest =>
                match (if nullish x then Ok "" else toString x) with
                | Throw e => Throw e
                | Ok piece =>
                    match pieces rest with
                    | Throw e => Throw e
                    | Ok others => Ok (piece :: others)
                    end
                end
            end) items)
        (fun strings => Ok (String.concat "," strings))
  | JObj props =>
      match lookup "toString" props with
      | Some _ => Throw not_a_primitive
      | None => Ok "[object Object]"
      end
  | JError name m =>
      Ok (if name =? "" then m else if m =? "" then name else (name ++ ": " ++ m)%string)
  end.

(** [StringToNumber], the runtime's reading of a numeral, is the other
    parameter. *)
Variable StringToNumber : string -> float.

(** ToPrimitive: an object goes through [valueOf], which gives it back, and
    then [toString]. *)
Definition ToPrimitive (v : value) : result value :=
  match v with
  | JArr _ | JObj _ | JError _ _ => and_then (toString v) (fun s => Ok (JStr s))
  | _ => Ok v
  end.

(** ToNumber of a primitive. *)
Definition number_of_primitive (p : value) : float :=
  match p with
  | JNull => 0%float
  | JBool b => if b then 1%float else 0%float
  | JNum n => n
  | JStr s => StringToNumber s
  | _ => PrimFloat.nan
  end.

(** ToNumber *)
Definition ToNumber (v : value) : result float :=
  and_then (ToPrimitive v) (fun p => Ok (number_of_primitive p)).

(** [a + b]: both operands are converted, the left one first. *)
Definition add (a b : value) : result value :=
  and_then (ToPrimitive a) (fun pa =>
  and_then (ToPrimitive b) (fun pb =>
  match pa, pb with
  | JStr x, _ => and_then (toString pb) (fun y => Ok (JStr (x ++ y)%string))
  | _, JStr y => and_then (toString pa) (fun x => Ok (JStr (x ++ y)%string))
  | _, _ => Ok (JNum (number_of_primitive pa + number_of_primitive pb)%float)
  end)).

(** [a / b], [a * b], [a >= b] and [a < b] for a number [b]. *)
Definition div (a : value) (b : float) : result float :=
  and_then (ToNumber a) (fun x => Ok (x / b)%float).
Definition mul (a : value) (b : float) : result float :=
  and_then (ToNumber a) (fun x => Ok (x * b)%float).
Definition ge (a : value) (b : float) : result bool :=
  and_then (ToNumber a) (fun x => Ok (b <=? x)%float).
Definition lt (a : value) (b : float) : result bool :=
  and_then (ToNumber a) (fun x => Ok (x <? b)%float).

(** [x.toFixed(1)]: the decimal with one digit after the point nearest to
    [x], the larger one when two are as near; [Number::toString] for what is
    not finite or is [10^21] and more. *)
Definition tenths (m : positive) (e : Z) : Z :=
  if (0 <=? e)%Z then 10 * Zpos m * 2 ^ e
  else (20 * Zpos m + 2 ^ (- e)) / (2 * 2 ^ (- e)).

Definition fixed1 (n : Z) : string :=
  (String_of_Z (n / 10) ++ "." ++ String_of_Z (n mod 10))%string.

Definition toFixed1 (x : float) : string :=
  match Prim2SF x with
  | S754_zero _ => "0.0"
  | S754_finite negative m e =>
      if (0 <=? e)%Z && (10 ^ 21 <=? Zpos m * 2 ^ e)%Z then NumberToString x
      else ((if negative then "-" else "") ++ fixed1 (tenths m e))%string
  | _ => NumberToString x
  end.

End Conversions.

End JS.

(** ** The prediction gateway ([src/pages/api/predict.js]) *)
Module Gateway.
Import JS.

(** [new Blob([fileBuffer])] where the runtime has [Blob], the buffer itself
    otherwise. *)
Inductive payload : Type :=
| Blob (bytes : string)
| Buffer (bytes : string).

(** What the handler does to the world, in order. *)
Inductive event : Type :=
| ParseForm
| ReadFile (path : value)
| Connect (space : string)
| Predict (endpoint : string) (file : payload)
| Sleep (ms : Z)
| LogError (err : value)
| Unlink (path : value).

Record response : Type := { status : Z; body : value }.

(** What the world answers: the request's method, what [parseForm] resolves
    [files] to (or its rejection), [fsPromises.readFile], whether [Blob] is
    defined, [Client.connect], and the outcome of the n-th [client.predict]
    call, n counted from 1. *)
Record Env : Type := {
  method : string;
  parsed : result value;
  readFile : value -> result string;
  has_Blob : bool;
  connected : result unit;
  upstream : nat -> result value
}.

(** The handler's one mutable variable and the effects so far. *)
Record state : Type := { uploadedPath : value; trace : list event }.

(** How a statement completes: it falls through, it returns the response
    sent with [res.status(..).json(..)], or it throws. *)
Inductive completion (A : Type) : Type :=
| Normal (a : A)
| Return (r : response)
| Raise (e : value).
Arguments Normal {A} a.
Arguments Return {A} r.
Arguments Raise {A} e.

Definition M (A : Type) : Type := state -> completion A * state.

Definition ret {A} (a : A) : M A := fun s => (Normal a, s).

Definition bind {A B} (c : M A) (k : A -> M B) : M B :=
  fun s =>
    match c s with
    | (Normal a, s') => k a s'
    | (Return r, s') => (Return r, s')
    | (Raise e, s') => (Raise e, s')
    end.

Notation "x <- c ;; k" := (bind c (fun x => k))
  (at level 61, c at next level, right associativity).
Notation "c ;;; k" := (bind c (fun _ => k))
  (at level 61, right associativity).

Definition emit (e : event) : M unit :=
  fun s => (Normal tt, {| uploadedPath := uploadedPath s; trace := trace s ++ [e] |}).

Definition lift {A} (r : result A) : M A :=
  fun s =>
    match r with
    | Ok a => (Normal a, s)
    | Throw e => (Raise e, s)
    end.

(** [await] of a call to the world: the call is made, then it resolves or
    rejects. *)
Definition await {A} (e : event) (r : result A) : M A := emit e ;;; lift r.

Definition throw {A} (e : value) : M A := fun s => (Raise e, s).

(** [return res.status(code).json(b)] *)
Definition respond {A} (code : Z) (b : value) : M A :=
  fun s => (Return {| status := code; body := b |}, s).

Definition set_uploadedPath (p : value) : M unit :=
  fun s => (Normal tt, {| uploadedPath := p; trace := trace s |}).

Definition get_uploadedPath : M value :=
  fun s => (Normal (uploadedPath s), s).

(** [try { c } catch (err) { h err }] *)
Definition try_catch {A} (c : M A) (h : value -> M A) : M A :=
  fun s =>
    match c s with
    | (Raise e, s') => h e s'
    | done => done
    end.

(** [try { c } finally { f }]: [f] runs however [c] completes, and [c]'s
    completion stands unless [f] completes abruptly itself. *)
Definition try_finally {A} (c : M A) (f : M unit) : M A :=
  fun s =>
    let (r, s') := c s in
    match f s' with
    | (Normal _, s'') => (r, s'')
    | (Return x, s'') => (Return x, s'')
    | (Raise e, s'') => (Raise e, s'')
    end.

Definition maxAttempts : nat := 12.
Definition delayMs : Z := 2000.

Definition error_body (message : value) : value := JObj [("error", message)].

Definition queued_body : value :=
  JObj [("queued", JBool true); ("message", JStr "Prediction queued, try again later")].

(** [result && result.type === "status" && result.queue] *)
Definition queued_result (result : value) : bool :=
  truthy result && is_string (prop result "type") "status" && truthy (prop result "queue").

(** [err && typeof err === "object" && err.type === "status" && err.queue] *)
Definition queued_error (err : value) : bool :=
  truthy err && typeof_object err
  && is_string (prop err "type") "status" && truthy (prop err "queue").

(** [files?.file ?? files?.upload ?? null] *)
Definition chosen (files : value) : value :=
  coalesce (coalesce (opt_member files "file") (opt_member files "upload")) JNull.

(** [if (Array.isArray(uploaded)) uploaded = uploaded[0]] *)
Definition single (uploaded : value) : value :=
  match uploaded with
  | JArr items => first items
  | _ => uploaded
  end.

(** [uploaded.filepath ?? uploaded.filePath ?? uploaded.path]: the first read
    throws when [uploaded] is [undefined] or [null]. *)
Definition path_of (uploaded : value) : result value :=
  match member uploaded "filepath" with
  | Ok filepath =>
      Ok (coalesce (coalesce filepath (prop uploaded "filePath")) (prop uploaded "path"))
  | Throw e => Throw e
  end.

Section Handler.

Variable NumberToString : float -> string.
(** [JSON.stringify], on an object: the text, or what it throws (on a
    cycle, on a [toJSON] that throws). *)
Variable JSON_stringify : value -> result string.
Variable env : Env.

(** The two [if (attempt === maxAttempts) return 202; await sleep; continue]
    blocks. *)
Definition still_queued (attempt : nat) : M unit :=
  if (attempt =? maxAttempts)%nat then respond 202 queued_body
  else emit (Sleep delayMs).

(** One iteration of the [for] loop: falling through is [continue]. *)
Definition attempt_once (attempt : nat) (filePayload : payload) : M unit :=
  try_catch
    (result <- await (Predict "/predict" filePayload) (upstream env attempt) ;;
     if queued_result result then still_queued attempt
     else if truthy (opt_member result "data") then respond 200 (prop result "data")
     else respond 200 (coalesce result (JObj [("message", JStr "No result returned")])))
    (fun err =>
     if queued_error err then still_queued attempt
     else throw err).

(** [for (let attempt = 1; attempt <= maxAttempts; attempt++)], entered with
    [remaining = maxAttempts + 1 - attempt] iterations to go. *)
Fixpoint attempts (remaining attempt : nat) (filePayload : payload) : M unit :=
  match remaining with
  | O => ret tt
  | S remaining' =>
      attempt_once attempt filePayload ;;;
      attempts remaining' (S attempt) filePayload
  end.

Definition try_block : M unit :=
  files <- await ParseForm (parsed env) ;;
  let uploaded := chosen files in
  if negb (truthy uploaded) then respond 400 (error_body (JStr "No file uploaded"))
  else
    let uploaded := single uploaded in
    path <- lift (path_of uploaded) ;;
    set_uploadedPath path ;;;
    if negb (truthy path) then respond 400 (error_body (JStr "Uploaded file path not found"))
    else
      fileBuffer <- await (ReadFile path) (readFile env path) ;;
      let filePayload := if has_Blob env then Blob fileBuffer else Buffer fileBuffer in
      _ <- await (Connect "NagarajDev/dlwat") (connected env) ;;
      attempts maxAttempts 1 filePayload ;;;
      respond 202 queued_body.

(** [err.toString && err.toString()], for an [err] that counts as true:
    the text the method gives; or the own property [toString] when it counts
    as false, which ends the conjunction; an own [toString] that counts as
    true is called, and the call throws. *)
Definition own_toString (err : value) : result value :=
  match err with
  | JObj props =>
      match lookup "toString" props with
      | Some f =>
          if truthy f then Throw (JError "TypeError" "err.toString is not a function")
          else Ok f
      | None => Ok (JStr "[object Object]")
      end
  | _ => and_then (toString NumberToString err) (fun s => Ok (JStr s))
  end.

(** [err.message ?? JSON.stringify(err)], and
    [(err && err.toString && err.toString()) || "Prediction error"]: the
    message, or what building it throws. *)
Definition error_message (err : value) : result value :=
  if truthy err && typeof_object err
     && (has_member "message" err || has_member "type" err)
  then
    if nullish (prop err "message")
    then and_then (JSON_stringify err) (fun s => Ok (JStr s))
    else Ok (prop err "message")
  else
    and_then (if truthy err then own_toString err else Ok err)
      (fun said => Ok (if truthy said then said else JStr "Prediction error")).

Definition catch_block (err : value) : M unit :=
  emit (LogError err) ;;;
  if queued_error err then respond 202 queued_body
  else
    message <- lift (error_message err) ;;
    respond 500 (error_body message).

(** The rejection of [unlink] is swallowed twice over. *)
Definition finally_block : M unit :=
  path <- get_uploadedPath ;;
  if truthy path then emit (Unlink path) else ret tt.

Definition handler : M unit :=
  if negb (method env =? "POST") then respond 405 (error_body (JStr "Method not allowed"))
  else try_finally (try_catch try_block catch_block) finally_block.

Definition run : completion unit * state :=
  handler {| uploadedPath := JUndefined; trace := [] |}.

Definition sent : option response :=
  match fst run with
  | Return r => Some r
  | _ => None
  end.

Definition effects : list event := trace (snd run).

End Handler.

End Gateway.

(** ** The page of the flat response ([src/app/page.tsx], first component) *)
Module LegacyPage.
Import JS.

(** [Array.isArray(result) ? result[0] ?? {} : result ?? {}] *)
Definition output (result : value) : value :=
  match result with
  | JArr items => coalesce (first items) (JObj [])
  | _ => coalesce result (JObj [])
  end.

(** [Array.isArray(output?.f) ? output.f : []] *)
Definition array_field (output : value) (f : string) : list value :=
  match opt_member output f with
  | JArr items => items
  | _ => []
  end.

Definition classificationData (result : value) : list value :=
  array_field (output result) "classification".

Definition clusterData (result : value) : list value :=
  array_field (output result) "clusters".

(** What [buildCounts] returns.  [values] holds [counts[l]] for each label,
    which is [undefined] ([None]) for a key [counts] does not have.  A count
    is at most the length of the array, below [2^32]: an integer that the
    number holding it holds exactly. *)
Record table : Type := {
  counts : list (string * Z);
  labels : list string;
  values : list (option Z);
  total : Z
}.

(** [counts[k] = v] *)
Fixpoint assign (k : string) (v : Z) (counts : list (string * Z)) : list (string * Z) :=
  match counts with
  | [] => [(k, v)]
  | (k', v') :: rest =>
      if k' =? k then (k', v) :: rest else (k', v') :: assign k v rest
  end.

(** [counts[k] || 0] *)
Definition count_or_zero (k : string) (counts : list (string * Z)) : Z :=
  match lookup k counts with
  | Some c => if (c =? 0)%Z then 0%Z else c
  | None => 0%Z
  end.

(** The sign a comparator result has for [sort]: a [NaN] is taken for 0. *)
Definition sign (v : float) : Z :=
  if (v <? 0)%float then (-1)%Z else if (0 <? v)%float then 1%Z else 0%Z.

(** The numbers an array of the response holds; [None] for an array with
    an entry that is no number, which the type of [buildCounts]'s parameter,
    [number[]], leaves out. *)
Fixpoint numbers (data : list value) : option (list float) :=
  match data with
  | [] => Some []
  | JNum n :: rest => option_map (cons n) (numbers rest)
  | _ :: _ => None
  end.

Section Counts.

(** [String(v)] of a number and [Number(k)] of a key are the runtime's. *)
Variable NumberToString : float -> string.
Variable StringToNumber : string -> float.

(** The body of the [forEach]. *)
Definition tally (counts : list (string * Z)) (v : float) : list (string * Z) :=
  let k := NumberToString v in
  assign k (count_or_zero k counts + 1)%Z counts.

(** [Number(a) - Number(b)] *)
Definition numerically (a b : string) : Z :=
  sign (StringToNumber a - StringToNumber b)%float.

Definition buildCounts (arr : list float) : table :=
  let counts := fold_left tally arr [] in
  let labels := sort numerically (map fst (own_entries counts)) in
  let values := map (fun l => lookup l counts) labels in
  {| counts := counts; labels := labels; values := values;
     total := Z.of_nat (List.length arr) |}.

(** [buildCounts(classificationData)] and [buildCounts(clusterData)] *)
Definition classification (result : value) : option table :=
  option_map buildCounts (numbers (classificationData result)).

Definition clusters (result : value) : option table :=
  option_map buildCounts (numbers (clusterData result)).

(** [total ? ((val / total) * 100).toFixed(1) : "0.0"] *)
Definition percentage (val total : Z) : string :=
  if (total =? 0)%Z then "0.0"
  else toFixed1 NumberToString (num_of_Z val / num_of_Z total * 100)%float.

(** The lines under a chart: label, [values[idx] ?? 0], percentage. *)
Definition rows (t : table) : list (string * Z * string) :=
  map (fun '(idx, lab) =>
         let val := match nth_error (values t) idx with
                    | Some (Some c) => c
                    | _ => 0%Z
                    end in
         (lab, val, percentage val (total t)))
      (combine (seq 0 (List.length (labels t))) (labels t)).

End Counts.

End LegacyPage.

(** ** The page of the rich response ([src/app/page.tsx], second component,
       and the unnamed copy of it) *)
Module RichPage.
Import JS.

Section Derivation.

Variable NumberToString : float -> string.
Variable StringToNumber : string -> float.

(** [result ?? {}]: an array is kept as it is. *)
Definition output (result : value) : value := coalesce result (JObj []).

(** [output.summary ?? {}], and likewise below: each field read has its
    default. *)
Definition summary (result : value) : value :=
  coalesce (prop (output result) "summary") (JObj []).

Definition clusterProfiles (result : value) : value :=
  coalesce (prop (output result) "cluster_profiles") (JObj []).

(** [Array.isArray(output.predictions_preview) ? output.predictions_preview : []] *)
Definition predictionsPreview (result : value) : list value :=
  match prop (output result) "predictions_preview" with
  | JArr items => items
  | _ => []
  end.

Definition recommendation (result : value) : value :=
  coalesce (prop (output result) "recommendation") (JObj []).

Definition classDistribution (result : value) : value :=
  coalesce (prop (summary result) "class_distribution") (JObj []).

Definition totalWindows (result : value) : value :=
  coalesce (prop (summary result) "total_windows") (JNum 0).

Definition dominantWorkload (result : value) : value :=
  coalesce (prop (summary result) "dominant_workload_type") (JStr "Unknown").

Definition classLabels (result : value) : list string := keys (classDistribution result).
Definition classValues (result : value) : list value := values (classDistribution result).

Definition clusterLabels (result : value) : list string := keys (clusterProfiles result).

(** [clusterLabels.map(id => clusterProfiles[id]?.members ?? 0)] *)
Definition clusterValues (result : value) : list value :=
  map (fun id => coalesce (opt_member (at_key (clusterProfiles result) id) "members") (JNum 0))
      (clusterLabels result).

(** [predictionsPreview.map(p => p.confidence ?? 0)]: the read throws on an
    entry that is [undefined] or [null], and the exception leaves [map]. *)
Fixpoint confidences (preview : list value) : result (list value) :=
  match preview with
  | [] => Ok []
  | p :: rest =>
      match member p "confidence" with
      | Throw e => Throw e
      | Ok c =>
          match confidences rest with
          | Throw e => Throw e
          | Ok cs => Ok (coalesce c (JNum 0) :: cs)
          end
      end
  end.

Definition confidenceValues (result : value) : JS.result (list value) :=
  confidences (predictionsPreview result).

(** [reduce((a, b) => a + b, 0)], from the accumulator [a] on. *)
Fixpoint reduce (confidenceValues : list value) (a : value) : JS.result value :=
  match confidenceValues with
  | [] => Ok a
  | b :: rest => and_then (add NumberToString StringToNumber a b) (reduce rest)
  end.

(** [length > 0 ? reduce((a, b) => a + b, 0) / length : 0] *)
Definition avgConfidence (confidenceValues : list value) : JS.result float :=
  match confidenceValues with
  | [] => Ok 0%float
  | _ =>
      and_then (reduce confidenceValues (JNum 0)) (fun sum =>
      div NumberToString StringToNumber sum
          (num_of_Z (Z.of_nat (List.length confidenceValues))))
  end.

(** The four [filter] tests of [confidenceRanges]; the second comparison of
    a conjunction is made when the first holds. *)
Definition high (c : value) : JS.result bool := ge NumberToString StringToNumber c 0.8.
Definition medium (c : value) : JS.result bool :=
  and_then (ge NumberToString StringToNumber c 0.6) (fun above =>
  if above then lt NumberToString StringToNumber c 0.8 else Ok false).
Definition low (c : value) : JS.result bool :=
  and_then (ge NumberToString StringToNumber c 0.4) (fun above =>
  if above then lt NumberToString StringToNumber c 0.6 else Ok false).
Definition veryLow (c : value) : JS.result bool := lt NumberToString StringToNumber c 0.4.

(** [confidenceValues.filter(test).length] *)
Fixpoint count (test : value -> JS.result bool) (confidenceValues : list value)
  : JS.result nat :=
  match confidenceValues with
  | [] => Ok 0%nat
  | c :: rest =>
      and_then (test c) (fun kept =>
      and_then (count test rest) (fun n => Ok (if kept then S n else n)))
  end.

Definition confidenceRanges (confidenceValues : list value)
  : JS.result (list (string * nat)) :=
  and_then (count high confidenceValues) (fun n_high =>
  and_then (count medium confidenceValues) (fun n_medium =>
  and_then (count low confidenceValues) (fun n_low =>
  and_then (count veryLow confidenceValues) (fun n_veryLow =>
  Ok [("High (0.8-1.0)", n_high); ("Medium (0.6-0.8)", n_medium);
      ("Low (0.4-0.6)", n_low); ("Very Low (0-0.4)", n_veryLow)])))).

(** What the component derives before it renders. *)
Record view : Type := {
  v_totalWindows : value;
  v_dominantWorkload : value;
  v_classLabels : list string;
  v_classValues : list value;
  v_clusterLabels : list string;
  v_clusterValues : list value;
  v_recommendation : value;
  v_predictionsPreview : list value;
  v_avgConfidence : float;
  v_confidenceRanges : list (string * nat)
}.

Definition derive (result : value) : JS.result view :=
  and_then (confidenceValues result) (fun cs =>
  and_then (avgConfidence cs) (fun avg =>
  and_then (confidenceRanges cs) (fun ranges =>
  Ok {| v_totalWindows := totalWindows result;
        v_dominantWorkload := dominantWorkload result;
        v_classLabels := classLabels result;
        v_classValues := classValues result;
        v_clusterLabels := clusterLabels result;
        v_clusterValues := clusterValues result;
        v_recommendation := recommendation result;
        v_predictionsPreview := predictionsPreview result;
        v_avgConfidence := avg;
        v_confidenceRanges := ranges |}))).

End Derivation.

End RichPage.

(** ** The chart colours ([hexToRgba] and [colorPalette], the same in every
       copy of the page)

    A string is a sequence of code units below 256. *)
Module Colors.
Import JS.

(** [hex.replace("#", "")]: the first ["#"] goes, wherever it is. *)
Fixpoint remove_hash (hex : string) : string :=
  match hex with
  | EmptyString => EmptyString
  | String c rest => if Ascii.eqb c "#" then rest else String c (remove_hash rest)
  end.

(** [h.split("").map(c => c + c).join("")] *)
Fixpoint doubled (h : string) : string :=
  match h with
  | EmptyString => EmptyString
  | String c rest => String c (String c (doubled rest))
  end.

Definition code (c : ascii) : Z := Z.of_N (N_of_ascii c).

(** The value of a digit of radix 16, in either case. *)
Definition hex_value (c : ascii) : option Z :=
  let n := code c in
  if (48 <=? n)%Z && (n <=? 57)%Z then Some (n - 48)%Z
  else if (97 <=? n)%Z && (n <=? 102)%Z then Some (n - 87)%Z
  else if (65 <=? n)%Z && (n <=? 70)%Z then Some (n - 55)%Z
  else None.

(** White space and line terminators, among the code units below 256. *)
Definition whitespace (c : ascii) : bool :=
  let n := code c in
  ((9 <=? n)%Z && (n <=? 13)%Z) || (n =? 32)%Z || (n =? 160)%Z.

Fixpoint trim_start (s : string) : string :=
  match s with
  | String c rest => if whitespace c then trim_start rest else s
  | EmptyString => EmptyString
  end.

(** The value of the longest prefix made of digits, [acc] being the value
    of the digits already read; [None] when there is no digit at all. *)
Fixpoint digits_value (s : string) (acc : option Z) : option Z :=
  match s with
  | String c rest =>
      match hex_value c with
      | Some d =>
          digits_value rest (Some (16 * match acc with Some a => a | None => 0 end + d)%Z)
      | None => acc
      end
  | EmptyString => acc
  end.

(** [parseInt(s, 16)] before it is made a number: the integer read, [None]
    for [NaN].  Leading white space, a sign and a [0x] prefix are allowed. *)
Definition parseInt16 (s : string) : option Z :=
  let s := trim_start s in
  let negative := match s with String c _ => Ascii.eqb c "-" | EmptyString => false end in
  let s := match s with
           | String c rest => if Ascii.eqb c "-" || Ascii.eqb c "+" then rest else s
           | EmptyString => s
           end in
  let s := match s with
           | String c (String x rest) =>
               if Ascii.eqb c "0" && (Ascii.eqb x "x" || Ascii.eqb x "X") then rest else s
           | _ => s
           end in
  match digits_value s None with
  | Some mathInt => Some (if negative then (- mathInt)%Z else mathInt)
  | None => None
  end.

(** The binary64 nearest to a non-negative integer, ties to the even
    significand; [None] for what overflows to [Infinity]. *)
Definition nearest_number (n : Z) : option Z :=
  if (n <? 2 ^ 53)%Z then Some n
  else
    let k := (Z.log2 n - 52)%Z in
    let q := (n / 2 ^ k)%Z in
    let r := (n mod 2 ^ k)%Z in
    let half := (2 ^ (k - 1))%Z in
    let q := if (half <? r)%Z || ((half =? r)%Z && Z.odd q) then (q + 1)%Z else q in
    if (2 ^ 1024 <=? q * 2 ^ k)%Z then None else Some (q * 2 ^ k)%Z.

(** ToInt32 of the number an integer is read as: 0 for [NaN] and
    [Infinity], the integer modulo [2^32], as a signed 32-bit value,
    otherwise. *)
Definition ToInt32 (x : option Z) : Z :=
  match x with
  | None => 0%Z
  | Some z =>
      match nearest_number (Z.abs z) with
      | None => 0%Z
      | Some m =>
          let int32bit := ((if (z <? 0)%Z then - m else m) mod 2 ^ 32)%Z in
          if (2 ^ 31 <=? int32bit)%Z then (int32bit - 2 ^ 32)%Z else int32bit
      end
  end.

(** [(bigint >> 16) & 255], [(bigint >> 8) & 255] and [bigint & 255] *)
Definition channels (hex : string) : Z * Z * Z :=
  let h := remove_hash hex in
  let bigint := ToInt32 (parseInt16 (if (String.length h =? 3)%nat then doubled h else h)) in
  (Z.land (Z.shiftr bigint 16) 255, Z.land (Z.shiftr bigint 8) 255, Z.land bigint 255).

Definition base : list string :=
  ["#3b82f6"; "#ef4444"; "#facc15"; "#10b981"; "#6366f1";
   "#f97316"; "#14b8a6"; "#f43f5e"; "#8b5cf6"; "#06b6d4"].

Section Palette.

Variable NumberToString : float -> string.

Definition hexToRgba (hex : string) (alpha : float) : string :=
  let '(r, g, b) := channels hex in
  ("rgba(" ++ String_of_Z r ++ ", " ++ String_of_Z g ++ ", " ++ String_of_Z b ++ ", "
   ++ NumberToString alpha ++ ")")%string.

(** The [for] loop of [colorPalette], with [count] iterations to go from
    index [i]. *)
Fixpoint fill (count i : nat) (alpha : float) (outBg outBorder : list string)
  : list string * list string :=
  match count with
  | O => (outBg, outBorder)
  | S count' =>
      let hex := nth (i mod List.length base) base "" in
      fill count' (S i) alpha (outBg ++ [hexToRgba hex alpha]) (outBorder ++ [hexToRgba hex 1])
  end.

(** [colorPalette(n, alpha)], [n] being the length of a list of labels. *)
Definition colorPalette (n : nat) (alpha : float) : list string * list string :=
  fill n 0 alpha [] [].

End Palette.

End Colors.

(** ** The upload from the page ([handleUpload], the same in every copy of
       the page but for the address it posts to) *)
Module Upload.
Import JS.

(** The selected [File]. *)
Record upload : Type := { name : string; content : string }.

(** What [fetch] resolves to: [res.ok], [res.statusText] and what
    [res.json()] gives. *)
Record http : Type := { ok : bool; statusText : string; json : JS.result value }.

(** [fetch(url, { method, body })], the body a form with one field. *)
Inductive request : Type :=
| Fetch (url method field : string) (f : upload).

(** The state of the component. *)
Record page : Type := {
  file : option upload;
  result : value;
  loading : bool;
  error : value
}.

Section Handler.

Variable NumberToString : float -> string.
Variable url : string.
(** The outcome of the one [fetch]. *)
Variable fetched : JS.result http.

(** The [try] block: the data to show, or what is thrown.  [new Error(x)]
    has the message [String(x)], and throws what that conversion throws. *)
Definition attempt : JS.result value :=
  match fetched with
  | Throw e => Throw e
  | Ok res =>
      if negb (ok res) then
        match json res with
        | Throw e => Throw e
        | Ok answer =>
            match member answer "error" with
            | Throw e => Throw e
            | Ok x =>
                match toString NumberToString
                        (if truthy x then x else JStr (statusText res)) with
                | Ok text => Throw (JError "Error" text)
                | Throw e => Throw e
                end
            end
        end
      else json res
  end.

(** The state when [handleUpload] is over, the requests it made, and the
    exception that left it, if one did ([e.message] of a thrown [undefined]
    or [null]). *)
Definition handleUpload (p : page) : page * list request * option value :=
  match file p with
  | None => (p, [], None)
  | Some f =>
      let requests := [Fetch url "POST" "file" f] in
      match attempt with
      | Ok data =>
          ({| file := file p; result := data; loading := false; error := JNull |},
           requests, None)
      | Throw e =>
          match member e "message" with
          | Ok m =>
              ({| file := file p; result := JNull; loading := false;
                  error := if truthy m then m else JStr "Upload failed" |},
               requests, None)
          | Throw t =>
              ({| file := file p; result := result p; loading := false; error := JNull |},
               requests, Some t)
          end
      end
  end.

End Handler.

(** What [fetch] resolves to for an answer of the gateway whose body JSON
    carries as it is. *)
Definition over_the_wire (r : Gateway.response) (reason : string) : http :=
  {| ok := (200 <=? Gateway.status r)%Z && (Gateway.status r <=? 299)%Z;
     statusText := reason;
     json := Ok (Gateway.body r) |}.

End Upload.

(** ** What is rendered of a result: the analysis, and the rows of the
       prediction table of the rich page *)
Module Preview.
Import JS.

(** [{result && (...)}]: the analysis is rendered for a result that counts
    as true. *)
Definition analysis_rendered (result : value) : bool := truthy result.

Section Table.

Variable NumberToString : float -> string.
Variable StringToNumber : string -> float.

(** [showFullPreview ? predictionsPreview : predictionsPreview.slice(0, 20)] *)
Definition shown (showFullPreview : bool) (predictionsPreview : list value) : list value :=
  if showFullPreview then predictionsPreview else firstn 20 predictionsPreview.

(** [predictionsPreview.length > 20]: the button under the table. *)
Definition toggle (predictionsPreview : list value) : bool :=
  (20 <? List.length predictionsPreview)%nat.

(** The colour of the bar of a row, from [prediction.confidence] as it is:
    each comparison is made when the one before it fails. *)
Definition bar (prediction : value) : JS.result string :=
  let confidence := prop prediction "confidence" in
  and_then (ge NumberToString StringToNumber confidence 0.8) (fun is_high =>
  if is_high then Ok "bg-green-500" else
  and_then (ge NumberToString StringToNumber confidence 0.6) (fun is_medium =>
  if is_medium then Ok "bg-yellow-500" else
  and_then (ge NumberToString StringToNumber confidence 0.4) (fun is_low =>
  Ok (if is_low then "bg-orange-500" else "bg-red-500")))).

(** [(prediction.confidence * 100).toFixed(1)] *)
Definition percent (prediction : value) : JS.result string :=
  and_then (mul NumberToString StringToNumber (prop prediction "confidence") 100)
           (fun x => Ok (toFixed1 NumberToString x)).

End Table.

End Preview.

(** ** The charts of both pages *)
Module Charts.
Import JS Colors.

(** What a chart is given: the labels and the one dataset. *)
Record chart (D : Type) : Type := {
  labels : list string;
  data : list D;
  backgroundColor : list string;
  borderColor : list string
}.
Arguments labels {D} c.
Arguments data {D} c.
Arguments backgroundColor {D} c.
Arguments borderColor {D} c.

Section Data.

Variable NumberToString : float -> string.

(** [colorPalette(n)]: the alpha is left at its default. *)
Definition palette (n : nat) : list string * list string :=
  colorPalette NumberToString n 0.85.

(** [classificationChart] and [clusterChart] of the flat page, each from
    the table [buildCounts] made. *)
Definition tableChart (t : LegacyPage.table) : chart (option Z) :=
  let cols := palette (List.length (LegacyPage.labels t)) in
  {| labels := LegacyPage.labels t;
     data := LegacyPage.values t;
     backgroundColor := fst cols;
     borderColor := snd cols |}.

(** The three charts of the rich page. *)
Definition classificationChart (result : value) : chart value :=
  let classificationCols := palette (List.length (RichPage.classLabels result)) in
  {| labels := RichPage.classLabels result;
     data := RichPage.classValues result;
     backgroundColor := fst classificationCols;
     borderColor := snd classificationCols |}.

Definition clusterChart (result : value) : chart value :=
  let clusterCols := palette (List.length (RichPage.clusterLabels result)) in
  {| labels := map (fun id => ("Cluster " ++ id)%string) (RichPage.clusterLabels result);
     data := RichPage.clusterValues result;
     backgroundColor := fst clusterCols;
     borderColor := snd clusterCols |}.

(** [confRangeLabels] and [confRangeValues] are the keys and the values of
    [confidenceRanges], none of them an array index. *)
Definition confidenceChart (confidenceRanges : list (string * nat)) : chart nat :=
  let confRangeLabels := map fst confidenceRanges in
  let confRangeValues := map snd confidenceRanges in
  let confidenceCols := palette (List.length confRangeLabels) in
  {| labels := confRangeLabels;
     data := confRangeValues;
     backgroundColor := fst confidenceCols;
     borderColor := snd confidenceCols |}.

End Data.

End Charts.

(** ** Properties of the gateway *)
Module GatewaySpec.
Import JS Gateway.

(** The queued sentinel, in either form. *)
Definition queued (o : result value) : bool :=
  match o with
  | Ok r => queued_result r
  | Throw e => queued_error e
  end.

(** What a final result is answered with. *)
Definition delivered (result : value) : value :=
  if truthy (opt_member result "data") then prop result "data"
  else coalesce result (JObj [("message", JStr "No result returned")]).

(** The upload arrived and the client connected: the handler gets as far as
    the polling loop, with the temporary file at [path]. *)
Definition upload_ready (env : Env) (path : value) (bytes : string) : Prop :=
  method env = "POST" /\
  exists files,
    parsed env = Ok files /\
    truthy (chosen files) = true /\
    path_of (single (chosen files)) = Ok path /\
    truthy path = true /\
    readFile env path = Ok bytes /\
    connected env = Ok tt.

Definition filePayload_of (env : Env) (bytes : string) : payload :=
  if has_Blob env then Blob bytes else Buffer bytes.

(** The temporary file the handler learns of, if any. *)
Definition temp_path (env : Env) : option value :=
  if negb (method env =? "POST") then None
  else
    match parsed env with
    | Throw _ => None
    | Ok files =>
        if negb (truthy (chosen files)) then None
        else
          match path_of (single (chosen files)) with
          | Throw _ => None
          | Ok path => if truthy path then Some path else None
          end
    end.

Definition opening (path : value) : list event :=
  [ParseForm; ReadFile path; Connect "NagarajDev/dlwat"].

(** [k] attempts answered by the sentinel, each followed by the backoff. *)
Definition polls (file : payload) (k : nat) : list event :=
  List.concat (repeat [Predict "/predict" file; Sleep 2000] k).

Definition is_predict (e : event) : bool :=
  match e with
  | Predict _ _ => true
  | _ => false
  end.

Definition is_unlink (e : event) : bool :=
  match e with
  | Unlink _ => true
  | _ => false
  end.

Definition is_connect (e : event) : bool :=
  match e with
  | Connect _ => true
  | _ => false
  end.

Definition predict_calls (evs : list event) : nat := List.length (filter is_predict evs).
Definition unlinks (evs : list event) : list event := filter is_unlink evs.

Definition push (s : state) (evs : list event) : state :=
  {| uploadedPath := uploadedPath s; trace := trace s ++ evs |}.

Lemma push_nil s : push s [] = s.
Proof. destruct s; unfold push; simpl; now rewrite app_nil_r. Qed.

Lemma push_push s a b : push (push s a) b = push s (a ++ b).
Proof. unfold push; simpl; now rewrite app_assoc. Qed.

(** The sentinel is recognised alike in both forms: only an object has a
    [type] that is ["status"]. *)
Lemma queued_error_result v : queued_error v = queued_result v.
Proof.
  unfold queued_error, queued_result.
  destruct v; simpl; try reflexivity; now rewrite ?andb_false_r.
Qed.

(** *** A sample request

    A form with one CSV file under [file], as formidable 3 hands it over (an
    array of files), a runtime with [Blob], a service that can be reached.
    The examples print no number and stringify no object, so the two
    conversions are left trivial. *)
Definition sample_path : value := JStr "/tmp/upload_1".

Definition sample_files : value :=
  JObj [("file", JArr [JObj [("filepath", sample_path);
                             ("originalFilename", JStr "trace.csv")]])].

Definition sample_env (answers : nat -> result value) : Env :=
  {| method := "POST";
     parsed := Ok sample_files;
     readFile := fun _ => Ok "cpu,mem";
     has_Blob := true;
     connected := Ok tt;
     upstream := answers |}.

Definition sample_digits : float -> string := fun _ => "0".
Definition sample_stringify : value -> result string := fun _ => Ok "{}".

Definition sentinel : value :=
  JObj [("type", JStr "status"); ("stage", JStr "pending"); ("queue", JBool true)].

Definition sample_result : value :=
  JObj [("type", JStr "data");
        ("data", JArr [JObj [("classification", JArr [JNum 0; JNum 1]);
                             ("clusters", JArr [JNum 2; JNum 2])]])].

(** The sentinel returned, then thrown, then a result. *)
Definition queued_twice (attempt : nat) : result value :=
  match attempt with
  | 1%nat => Ok sentinel
  | 2%nat => Throw sentinel
  | _ => Ok sample_result
  end.

(** The sentinel returned, then no result at all. *)
Definition queued_then_nothing (attempt : nat) : result value :=
  match attempt with
  | 1%nat => Ok sentinel
  | _ => Ok JNull
  end.

(** The sentinel returned, then the connection lost. *)
Definition queued_then_lost (attempt : nat) : result value :=
  match attempt with
  | 1%nat => Ok sentinel
  | _ => Throw (JError "Error" "Connection errored out.")
  end.

Lemma sample_ready answers :
  upload_ready (sample_env answers) sample_path "cpu,mem".
Proof.
  split; [reflexivity |].
  exists sample_files. repeat split.
Defined.

Section Polling.

Variable NumberToString : float -> string.
Variable JSON_stringify : value -> result string.
Variable env : Env.

Lemma attempt_once_queued attempt file s :
  queued (upstream env attempt) = true ->
  attempt <> maxAttempts ->
  attempt_once env attempt file s
  = (Normal tt, push s [Predict "/predict" file; Sleep 2000]).
Proof.
  intros Hq Hne. apply Nat.eqb_neq in Hne.
  unfold attempt_once, try_catch, await, bind, emit, lift, still_queued, push.
  destruct (upstream env attempt) as [r | e]; simpl in *;
    rewrite Hq; unfold still_queued; rewrite Hne; unfold emit; simpl;
    rewrite <- ?app_assoc; reflexivity.
Qed.

Lemma attempt_once_exhausted file s :
  queued (upstream env maxAttempts) = true ->
  attempt_once env maxAttempts file s
  = (Return {| status := 202; body := queued_body |}, push s [Predict "/predict" file]).
Proof.
  intros Hq.
  unfold attempt_once, try_catch, await, bind, emit, lift, still_queued, push.
  destruct (upstream env maxAttempts) as [r | e]; simpl in *; rewrite Hq;
    reflexivity.
Qed.

Lemma attempt_once_result attempt file s r :
  upstream env attempt = Ok r ->
  queued_result r = false ->
  attempt_once env attempt file s
  = (Return {| status := 200; body := delivered r |}, push s [Predict "/predict" file]).
Proof.
  intros Hr Hq.
  unfold attempt_once, try_catch, await, bind, emit, lift, delivered, push.
  rewrite Hr; simpl. rewrite Hq.
  now destruct (truthy (opt_member r "data")).
Qed.

Lemma attempt_once_error attempt file s e :
  upstream env attempt = Throw e ->
  queued_error e = false ->
  attempt_once env attempt file s = (Raise e, push s [Predict "/predict" file]).
Proof.
  intros He Hq.
  unfold attempt_once, try_catch, await, bind, emit, lift, throw, push.
  rewrite He; simpl. now rewrite Hq.
Qed.

(** [k] queued answers in a row, short of the last attempt, leave the loop
    [k] iterations further on. *)
Lemma attempts_skip k : forall remaining attempt file s,
  (attempt + remaining = S maxAttempts)%nat ->
  (k < remaining)%nat ->
  (forall i, (attempt <= i < attempt + k)%nat -> queued (upstream env i) = true) ->
  attempts env remaining attempt file s
  = attempts env (remaining - k) (attempt + k) file (push s (polls file k)).
Proof.
  induction k as [| k IH]; intros remaining attempt file s Hsum Hlt Hq.
  - now rewrite Nat.sub_0_r, Nat.add_0_r, push_nil.
  - destruct remaining as [| remaining]; [lia |].
    cbn [attempts]. unfold bind at 1.
    rewrite attempt_once_queued by (try apply Hq; unfold maxAttempts in *; lia).
    rewrite IH by (try (intros; apply Hq); lia).
    rewrite push_push.
    replace (attempt + S k)%nat with (S attempt + k)%nat by lia.
    reflexivity.
Qed.

Definition init : state := {| uploadedPath := JUndefined; trace := [] |}.

(** The [finally] block after a completion [r] in state [s]. *)
Definition finalize (rs : completion unit * state) : completion unit * state :=
  let (r, s) := rs in
  if truthy (uploadedPath s) then (r, push s [Unlink (uploadedPath s)]) else (r, s).

Lemma run_of_try r s :
  method env = "POST" ->
  try_block env init = (r, s) ->
  run NumberToString JSON_stringify env
  = match r with
    | Raise e => finalize (catch_block NumberToString JSON_stringify e s)
    | _ => finalize (r, s)
    end.
Proof.
  intros Hm Ht.
  unfold run, handler. rewrite Hm. cbn [String.eqb Ascii.eqb Bool.eqb negb].
  fold init. unfold try_finally, try_catch. rewrite Ht.
  assert (Hfin : forall r' s', (let (r0, s0) := finally_block s' in
              match r0 with
              | Normal _ => (r', s0)
              | Return x => (Return x, s0)
              | Raise e => (Raise e, s0)
              end) = finalize (r', s')).
  { intros r' s'. unfold finally_block, get_uploadedPath, bind, finalize, emit, ret, push.
    now destruct (truthy (uploadedPath s')). }
  destruct r as [[] | x | e].
  - apply Hfin.
  - apply Hfin.
  - destruct (catch_block NumberToString JSON_stringify e s) as [r' s']. apply Hfin.
Qed.

Lemma try_block_ready path bytes :
  upload_ready env path bytes ->
  try_block env init
  = (attempts env maxAttempts 1 (filePayload_of env bytes) ;;; respond 202 queued_body)
      {| uploadedPath := path; trace := opening path |}.
Proof.
  intros (_ & files & Hp & Hc & Hpath & Ht & Hr & Hconn).
  unfold try_block, await, bind, emit, lift, set_uploadedPath, init, opening, filePayload_of.
  rewrite Hp; simpl. rewrite Hc; simpl. rewrite Hpath; simpl. rewrite Ht; simpl.
  rewrite Hr; simpl. rewrite Hconn; simpl. reflexivity.
Qed.

(** What any run of the loop adds to the trace. *)
Lemma attempt_once_effects attempt file s :
  exists evs,
    snd (attempt_once env attempt file s) = push s evs /\
    (predict_calls evs <= 1)%nat /\ unlinks evs = [].
Proof.
  unfold attempt_once, try_catch, await, bind, emit, lift, still_queued, throw, respond.
  destruct (upstream env attempt) as [r | e]; simpl.
  - destruct (queued_result r); [destruct (attempt =? maxAttempts)%nat |];
      [| | destruct (truthy (opt_member r "data"))]; simpl;
      try (exists [Predict "/predict" file]; unfold push; simpl; auto; fail).
    exists [Predict "/predict" file; Sleep delayMs]; unfold push; simpl.
    rewrite <- app_assoc; auto.
  - destruct (queued_error e); [destruct (attempt =? maxAttempts)%nat |]; simpl;
      try (exists [Predict "/predict" file]; unfold push; simpl; auto; fail).
    exists [Predict "/predict" file; Sleep delayMs]; unfold push; simpl.
    rewrite <- app_assoc; auto.
Qed.

Lemma predict_calls_app a b :
  predict_calls (a ++ b) = (predict_calls a + predict_calls b)%nat.
Proof. unfold predict_calls. now rewrite filter_app, length_app. Qed.

Lemma unlinks_app a b : unlinks (a ++ b) = unlinks a ++ unlinks b.
Proof. apply filter_app. Qed.

Lemma attempts_effects remaining : forall attempt file s,
  exists evs,
    snd (attempts env remaining attempt file s) = push s evs /\
    (predict_calls evs <= remaining)%nat /\ unlinks evs = [].
Proof.
  induction remaining as [| remaining IH]; intros attempt file s.
  - exists []. cbn. rewrite push_nil. auto.
  - cbn [attempts]. unfold bind at 1.
    destruct (attempt_once_effects attempt file s) as (evs & Hs & Hc & Hu).
    destruct (attempt_once env attempt file s) as [[[] | x | e] s']; simpl in Hs; subst s'.
    + destruct (IH (S attempt) file (push s evs)) as (evs' & Hs' & Hc' & Hu').
      exists (evs ++ evs'). rewrite Hs', push_push, predict_calls_app, unlinks_app, Hu, Hu'.
      repeat split; auto. lia.
    + exists evs. simpl. repeat split; auto. lia.
    + exists evs. simpl. repeat split; auto. lia.
Qed.

#[local] Arguments attempts : simpl never.

(** The [try] block and its [catch]: no file is removed there, the service is
    called at most [maxAttempts] times, and [uploadedPath] ends up truthy
    exactly when the handler learned of a temporary file. *)
Lemma try_catch_effects :
  method env = "POST" ->
  exists r up evs,
    try_catch (try_block env) (catch_block NumberToString JSON_stringify) init
    = (r, {| uploadedPath := up; trace := evs |}) /\
    unlinks evs = [] /\ (predict_calls evs <= maxAttempts)%nat /\
    temp_path env = (if truthy up then Some up else None).
Proof.
  intros Hm.
  assert (Hcatch : forall e up evs,
    unlinks evs = [] -> (predict_calls evs <= maxAttempts)%nat ->
    exists r evs',
      catch_block NumberToString JSON_stringify e {| uploadedPath := up; trace := evs |}
      = (r, {| uploadedPath := up; trace := evs' |}) /\
      unlinks evs' = [] /\ (predict_calls evs' <= maxAttempts)%nat).
  { intros e up evs Hu Hc.
    unfold catch_block, bind, emit, respond, lift; simpl.
    destruct (queued_error e);
      [| destruct (error_message NumberToString JSON_stringify e)];
      eexists; eexists; (split; [reflexivity |]);
      rewrite unlinks_app, predict_calls_app, Hu; cbn; split; auto; lia. }
  unfold temp_path. rewrite Hm. cbn [String.eqb Ascii.eqb Bool.eqb negb].
  unfold try_catch, try_block, await, bind, emit, lift, set_uploadedPath, respond, init.
  simpl.
  destruct (parsed env) as [files | e]; simpl.
  2:{ destruct (Hcatch e JUndefined [ParseForm]) as (r & evs' & -> & Hu & Hc);
        [reflexivity | cbn; lia |].
      exists r, JUndefined, evs'. auto. }
  destruct (truthy (chosen files)); simpl.
  2:{ eexists; exists JUndefined; eexists. split; [reflexivity |]. cbn. repeat split; auto; lia. }
  destruct (path_of (single (chosen files))) as [path | e]; simpl.
  2:{ destruct (Hcatch e JUndefined [ParseForm]) as (r & evs' & -> & Hu & Hc);
        [reflexivity | cbn; lia |].
      exists r, JUndefined, evs'. auto. }
  destruct (truthy path) eqn:Ht; simpl.
  2:{ eexists; exists path; eexists. split; [reflexivity |]. rewrite Ht. cbn.
      repeat split; auto; lia. }
  destruct (readFile env path) as [bytes | e]; simpl.
  2:{ destruct (Hcatch e path [ParseForm; ReadFile path]) as (r & evs' & -> & Hu & Hc);
        [reflexivity | cbn; lia |].
      exists r, path, evs'. rewrite Ht. auto. }
  destruct (connected env) as [[] | e]; simpl.
  2:{ destruct (Hcatch e path [ParseForm; ReadFile path; Connect "NagarajDev/dlwat"])
        as (r & evs' & -> & Hu & Hc);
        [reflexivity | cbn; lia |].
      exists r, path, evs'. rewrite Ht. auto. }
  set (file := if has_Blob env then Blob bytes else Buffer bytes).
  set (s0 := {| uploadedPath := path; trace := _ |}).
  destruct (attempts_effects maxAttempts 1 file s0) as (evs & Hs & Hc & Hu).
  destruct (attempts env maxAttempts 1 file s0) as [[[] | x | e] s'];
    simpl in Hs; subst s'; unfold push, s0; simpl.
  - eexists; exists path; eexists. split; [reflexivity |].
    change (_ :: _ :: _ :: evs) with (opening path ++ evs).
    rewrite unlinks_app, predict_calls_app, Hu, Ht. cbn. repeat split; auto.
  - eexists; exists path; eexists. split; [reflexivity |].
    change (_ :: _ :: _ :: evs) with (opening path ++ evs).
    rewrite unlinks_app, predict_calls_app, Hu, Ht. cbn. repeat split; auto.
  - destruct (Hcatch e path (opening path ++ evs)) as (r & evs' & Heq & Hu' & Hc').
    + now rewrite unlinks_app, Hu.
    + rewrite predict_calls_app. cbn. lia.
    + unfold opening in Heq. simpl in Heq. rewrite Heq.
      exists r, path, evs'. rewrite Ht. auto.
Qed.

(** The [try] block after [k] queued answers, short of the last attempt. *)
Lemma try_block_after_polls path bytes k :
  upload_ready env path bytes ->
  (k < maxAttempts)%nat ->
  (forall i, (1 <= i <= k)%nat -> queued (upstream env i) = true) ->
  try_block env init
  = ((attempt_once env (S k) (filePayload_of env bytes) ;;;
      attempts env (maxAttempts - S k) (S (S k)) (filePayload_of env bytes)) ;;;
     respond 202 queued_body)
      {| uploadedPath := path; trace := opening path ++ polls (filePayload_of env bytes) k |}.
Proof.
  intros Hready Hk Hq.
  rewrite (try_block_ready path bytes Hready).
  unfold bind at 1.
  rewrite (attempts_skip k) by (unfold maxAttempts in *; try (intros; apply Hq); lia).
  unfold push; simpl uploadedPath; simpl trace.
  replace (maxAttempts - k)%nat with (S (maxAttempts - S k)) by lia.
  reflexivity.
Qed.

Lemma upload_ready_method path bytes :
  upload_ready env path bytes -> method env = "POST".
Proof. now intros [H _]. Qed.

Lemma upload_ready_truthy path bytes :
  upload_ready env path bytes -> truthy path = true.
Proof. now intros (_ & files & _ & _ & _ & H & _). Qed.

(** A final result after [k] queued answers. *)
Lemma run_final_result path bytes k r :
  upload_ready env path bytes ->
  (k < maxAttempts)%nat ->
  (forall i, (1 <= i <= k)%nat -> queued (upstream env i) = true) ->
  upstream env (S k) = Ok r ->
  queued_result r = false ->
  run NumberToString JSON_stringify env
  = (Return {| status := 200; body := delivered r |},
     {| uploadedPath := path;
        trace := opening path ++ polls (filePayload_of env bytes) k
                 ++ [Predict "/predict" (filePayload_of env bytes); Unlink path] |}).
Proof.
  intros Hready Hk Hq Hr Hnq.
  erewrite run_of_try; cycle 1.
  - eapply upload_ready_method; eauto.
  - rewrite (try_block_after_polls path bytes k Hready Hk Hq). cbv beta delta [bind].
    rewrite (attempt_once_result _ _ _ _ Hr Hnq). reflexivity.
  - unfold finalize, push; simpl. rewrite (upload_ready_truthy path bytes Hready).
    rewrite <- ?app_assoc; reflexivity.
Qed.

(** A failure that is not the sentinel, after [k] queued answers: it is
    logged, and the [catch] block answers with the message it builds, or
    throws what building it throws. *)
Lemma run_failure path bytes k e :
  upload_ready env path bytes ->
  (k < maxAttempts)%nat ->
  (forall i, (1 <= i <= k)%nat -> queued (upstream env i) = true) ->
  upstream env (S k) = Throw e ->
  queued_error e = false ->
  run NumberToString JSON_stringify env
  = (match error_message NumberToString JSON_stringify e with
     | Ok m => Return {| status := 500; body := error_body m |}
     | Throw t => Raise t
     end,
     {| uploadedPath := path;
        trace := opening path ++ polls (filePayload_of env bytes) k
                 ++ [Predict "/predict" (filePayload_of env bytes); LogError e; Unlink path] |}).
Proof.
  intros Hready Hk Hq He Hnq.
  erewrite run_of_try; cycle 1.
  - eapply upload_ready_method; eauto.
  - rewrite (try_block_after_polls path bytes k Hready Hk Hq). cbv beta delta [bind].
    rewrite (attempt_once_error _ _ _ _ He Hnq). reflexivity.
  - unfold catch_block, bind, emit, respond, lift, finalize, push; simpl. rewrite Hnq.
    destruct (error_message NumberToString JSON_stringify e); simpl;
      rewrite (upload_ready_truthy path bytes Hready);
      rewrite <- ?app_assoc; reflexivity.
Qed.

(** The sentinel on every attempt. *)
Lemma run_exhausted path bytes :
  upload_ready env path bytes ->
  (forall i, (1 <= i <= maxAttempts)%nat -> queued (upstream env i) = true) ->
  run NumberToString JSON_stringify env
  = (Return {| status := 202; body := queued_body |},
     {| uploadedPath := path;
        trace := opening path ++ polls (filePayload_of env bytes) 11
                 ++ [Predict "/predict" (filePayload_of env bytes); Unlink path] |}).
Proof.
  intros Hready Hq.
  erewrite run_of_try; cycle 1.
  - eapply upload_ready_method; eauto.
  - rewrite (try_block_after_polls path bytes 11 Hready)
      by (unfold maxAttempts in *; try (intros; apply Hq); lia).
    cbv beta delta [bind].
    change 12%nat with maxAttempts.
    rewrite attempt_once_exhausted by (apply Hq; unfold maxAttempts; lia).
    reflexivity.
  - unfold finalize, push; simpl. rewrite (upload_ready_truthy path bytes Hready).
    rewrite <- ?app_assoc; reflexivity.
Qed.

(** C1, as the handler has it.  With the upload in place, whatever the
    service answers: if the queued sentinel (returned or thrown) comes on
    the first [k < 12] attempts and a final result [r] on attempt [k + 1],
    the handler answers 200 with what it delivers of that result ([r.data]
    where that is truthy, [r] itself otherwise, a message of its own for a
    [null] or [undefined] one), after exactly [k + 1] calls and [k] backoffs
    of 2000 ms; if
    the sentinel comes on all 12 attempts, it answers 202 with
    [{ queued: true, message: "Prediction queued, try again later" }] after
    exactly 12 calls; it never calls the service more than 12 times; and a
    value is the sentinel when thrown exactly when it is when returned. *)
Theorem submit_polls_while_queued (path : value) (bytes : string) :
  upload_ready env path bytes ->
  let file := filePayload_of env bytes in
  (forall k r,
      (k < 12)%nat ->
      (forall i, (1 <= i <= k)%nat -> queued (upstream env i) = true) ->
      upstream env (S k) = Ok r ->
      queued_result r = false ->
      sent NumberToString JSON_stringify env
      = Some {| status := 200; body := delivered r |} /\
      effects NumberToString JSON_stringify env
      = opening path ++ polls file k ++ [Predict "/predict" file; Unlink path] /\
      predict_calls (effects NumberToString JSON_stringify env) = S k) /\
  ((forall i, (1 <= i <= 12)%nat -> queued (upstream env i) = true) ->
      sent NumberToString JSON_stringify env
      = Some {| status := 202;
                body := JObj [("queued", JBool true);
                              ("message", JStr "Prediction queued, try again later")] |} /\
      effects NumberToString JSON_stringify env
      = opening path ++ polls file 11 ++ [Predict "/predict" file; Unlink path] /\
      predict_calls (effects NumberToString JSON_stringify env) = 12%nat) /\
  (predict_calls (effects NumberToString JSON_stringify env) <= 12)%nat /\
  (forall v, queued (Throw v) = queued (Ok v)).
Proof.
  intros Hready file.
  assert (Hcalls : forall k tl, predict_calls tl = 1%nat ->
            predict_calls (opening path ++ polls file k ++ tl) = S k).
  { intros k tl Htl. rewrite !predict_calls_app, Htl.
    replace (predict_calls (polls file k)) with k; [cbn; lia |].
    induction k as [| k IH]; [reflexivity |].
    unfold polls in *; cbn [repeat List.concat]. rewrite predict_calls_app, <- IH.
    reflexivity. }
  repeat split.
  - unfold sent. now rewrite (run_final_result path bytes k r).
  - unfold effects. now rewrite (run_final_result path bytes k r).
  - unfold effects. rewrite (run_final_result path bytes k r) by assumption.
    now apply Hcalls.
  - unfold sent. now rewrite (run_exhausted path bytes).
  - unfold effects. now rewrite (run_exhausted path bytes).
  - unfold effects. rewrite (run_exhausted path bytes) by assumption.
    now apply (Hcalls 11%nat).
  - destruct (try_catch_effects (upload_ready_method path bytes Hready))
      as (r & up & evs & Heq & Hu & Hc & _).
    unfold effects, run, handler.
    rewrite (upload_ready_method path bytes Hready).
    cbn [String.eqb Ascii.eqb Bool.eqb negb]. fold init.
    unfold try_finally. rewrite Heq.
    unfold finally_block, get_uploadedPath, bind, emit, ret; simpl.
    destruct (truthy up); simpl; [rewrite predict_calls_app; cbn |];
      unfold maxAttempts in Hc; lia.
  - intros v. apply queued_error_result.
Qed.

(** C2.  In every run the temporary file the handler learned of is removed
    exactly once, however the run ends, and nothing is removed when it
    learned of none. *)
Theorem temporary_file_removed_once :
  unlinks (effects NumberToString JSON_stringify env)
  = match temp_path env with
    | Some path => [Unlink path]
    | None => []
    end.
Proof.
  destruct (method env =? "POST") eqn:Hm.
  - apply String.eqb_eq in Hm.
    destruct (try_catch_effects Hm) as (r & up & evs & Heq & Hu & _ & Htemp).
    unfold effects, run, handler. rewrite Hm.
    cbn [String.eqb Ascii.eqb Bool.eqb negb]. fold init.
    unfold try_finally. rewrite Heq, Htemp.
    unfold finally_block, get_uploadedPath, bind, emit, ret; simpl.
    destruct (truthy up); simpl; [rewrite unlinks_app, Hu; reflexivity | assumption].
  - unfold temp_path, effects, run, handler. rewrite Hm. reflexivity.
Qed.

(** X28.  With the upload in place, a failure of the service that is not the
    queued sentinel, on whichever attempt it comes, ends the run at once: it
    is logged, no further call is made, the file is removed, and the answer
    is 500 with [{ error: m }] when the message [m] can be built; when
    building it throws, no answer is sent.  The message is the error's
    [message] where it has one, [JSON.stringify] of it where it is an object
    with a [type] only, its [toString()] otherwise, and ["Prediction error"]
    failing all that; an own [toString] that counts as true and is no
    function makes the call throw. *)
Theorem upstream_failure_is_surfaced (path : value) (bytes : string) (k : nat) (e : value) :
  upload_ready env path bytes ->
  (k < 12)%nat ->
  (forall i, (1 <= i <= k)%nat -> queued (upstream env i) = true) ->
  upstream env (S k) = Throw e ->
  queued_error e = false ->
  let file := filePayload_of env bytes in
  let m := error_message NumberToString JSON_stringify e in
  sent NumberToString JSON_stringify env
  = match m with
    | Ok message => Some {| status := 500; body := JObj [("error", message)] |}
    | Throw _ => None
    end /\
  effects NumberToString JSON_stringify env
  = opening path ++ polls file k ++ [Predict "/predict" file; LogError e; Unlink path] /\
  (forall name message, e = JError name message -> m = Ok (JStr message)) /\
  (forall props message,
      e = JObj props -> lookup "message" props = Some message -> nullish message = false ->
      m = Ok message) /\
  (forall props,
      e = JObj props -> lookup "message" props = None -> has_member "type" e = true ->
      m = and_then (JSON_stringify e) (fun text => Ok (JStr text))) /\
  (forall text, e = JStr text -> text <> "" -> m = Ok (JStr text)) /\
  (truthy e = false -> m = Ok (JStr "Prediction error")) /\
  (forall props f,
      e = JObj props -> lookup "message" props = None -> lookup "type" props = None ->
      lookup "toString" props = Some f -> truthy f = true ->
      m = Throw (JError "TypeError" "err.toString is not a function")).
Proof.
  intros Hready Hk Hq He Hnq file m.
  pose proof (run_failure path bytes k e Hready Hk Hq He Hnq) as Hrun.
  repeat split.
  - unfold sent. rewrite Hrun. cbn [fst]. fold m. now destruct m.
  - unfold effects. now rewrite Hrun.
  - intros name message ->. reflexivity.
  - intros props message -> Hl Hn. subst m. unfold error_message; simpl.
    rewrite Hl; simpl. now rewrite Hn.
  - intros props -> Hl Ht. subst m. unfold error_message; simpl in *.
    rewrite Hl in *. now rewrite Ht.
  - intros text -> Hne. subst m. unfold error_message; simpl.
    apply String.eqb_neq in Hne. now rewrite Hne; simpl; rewrite Hne.
  - intros Hf. subst m. unfold error_message. rewrite Hf. cbn [andb and_then].
    now rewrite Hf.
  - intros props f -> Hmessage Htype Hown Hf. subst m.
    unfold error_message; simpl. now rewrite Hmessage, Htype, Hown, Hf.
Qed.

(** C4.  A POST whose parsed form has no file under [file] nor under
    [upload] is answered 400 with [{ error: "No file uploaded" }]; parsing
    the form is all that happened: no connection, no prediction call. *)
Theorem missing_file_is_rejected (files : value) :
  method env = "POST" ->
  parsed env = Ok files ->
  nullish (opt_member files "file") = true ->
  nullish (opt_member files "upload") = true ->
  sent NumberToString JSON_stringify env
  = Some {| status := 400; body := JObj [("error", JStr "No file uploaded")] |} /\
  effects NumberToString JSON_stringify env = [ParseForm] /\
  filter is_connect (effects NumberToString JSON_stringify env) = [] /\
  predict_calls (effects NumberToString JSON_stringify env) = 0%nat.
Proof.
  intros Hm Hp Hf Hu.
  assert (Hrun : run NumberToString JSON_stringify env
                 = (Return {| status := 400; body := error_body (JStr "No file uploaded") |},
                    {| uploadedPath := JUndefined; trace := [ParseForm] |})).
  { erewrite run_of_try; [| assumption |].
    2:{ unfold try_block, await, bind, emit, lift, chosen, coalesce, respond, init.
        rewrite Hp; simpl. rewrite Hf, Hu. reflexivity. }
    reflexivity. }
  unfold sent, effects. rewrite Hrun. repeat split.
Qed.

(** C5, as the handler has it.  With the upload in place, a result [r] that
    is not the sentinel, on whichever attempt it comes, is answered 200, and
    the body is [r.data] where that is truthy, [r] itself where it is not and
    [r] is neither [null] nor [undefined], and
    [{ message: "No result returned" }] for a [null] or [undefined] result.
    No field of [r] other than [data] is looked at. *)
Theorem result_is_forwarded (path : value) (bytes : string) (k : nat) (r : value) :
  upload_ready env path bytes ->
  (k < 12)%nat ->
  (forall i, (1 <= i <= k)%nat -> queued (upstream env i) = true) ->
  upstream env (S k) = Ok r ->
  queued_result r = false ->
  exists b,
    sent NumberToString JSON_stringify env = Some {| status := 200; body := b |} /\
    (truthy (opt_member r "data") = true -> b = prop r "data") /\
    (truthy (opt_member r "data") = false -> nullish r = false -> b = r) /\
    (nullish r = true -> b = JObj [("message", JStr "No result returned")]).
Proof.
  intros Hready Hk Hq Hr Hnq.
  exists (delivered r). split.
  - unfold sent. now rewrite (run_final_result path bytes k r).
  - unfold delivered, coalesce. repeat split.
    + now intros ->.
    + now intros -> ->.
    + intros Hn. unfold opt_member. now rewrite Hn.
Qed.

End Polling.

Lemma submit_polls_while_queued_witness :
  sent sample_digits sample_stringify (sample_env queued_twice)
  = Some {| status := 200; body := prop sample_result "data" |} /\
  predict_calls (effects sample_digits sample_stringify (sample_env queued_twice)) = 3%nat.
Proof.
  destruct (submit_polls_while_queued sample_digits sample_stringify
              (sample_env queued_twice) sample_path "cpu,mem" (sample_ready _))
    as [Hfinal _].
  destruct (Hfinal 2%nat sample_result) as (Hsent & _ & Hcalls).
  - lia.
  - intros i Hi. destruct i as [| [| [| i]]]; try lia; reflexivity.
  - reflexivity.
  - reflexivity.
  - split; [exact Hsent | exact Hcalls].
Defined.

Lemma upstream_failure_is_surfaced_witness :
  sent sample_digits sample_stringify (sample_env queued_then_lost)
  = Some {| status := 500; body := JObj [("error", JStr "Connection errored out.")] |}.
Proof.
  destruct (upstream_failure_is_surfaced sample_digits sample_stringify
              (sample_env queued_then_lost) sample_path "cpu,mem" 1%nat
              (JError "Error" "Connection errored out.") (sample_ready _))
    as (Hsent & _).
  - lia.
  - intros i Hi. destruct i as [| [| i]]; try lia; reflexivity.
  - reflexivity.
  - reflexivity.
  - exact Hsent.
Defined.

Lemma missing_file_is_rejected_witness :
  let env := {| method := "POST";
                parsed := Ok (JObj [("csv", JArr [JObj [("filepath", sample_path)]])]);
                readFile := fun _ => Ok "cpu,mem";
                has_Blob := true;
                connected := Ok tt;
                upstream := fun _ => Ok sample_result |} in
  sent sample_digits sample_stringify env
  = Some {| status := 400; body := JObj [("error", JStr "No file uploaded")] |} /\
  effects sample_digits sample_stringify env = [ParseForm].
Proof.
  intros env.
  destruct (missing_file_is_rejected sample_digits sample_stringify env
              (JObj [("csv", JArr [JObj [("filepath", sample_path)]])]))
    as (Hsent & Heffects & _).
  - reflexivity.
  - reflexivity.
  - reflexivity.
  - reflexivity.
  - split; [exact Hsent | exact Heffects].
Defined.

Lemma result_is_forwarded_witness :
  exists b,
    sent sample_digits sample_stringify (sample_env queued_twice)
    = Some {| status := 200; body := b |} /\
    b = prop sample_result "data".
Proof.
  destruct (result_is_forwarded sample_digits sample_stringify
              (sample_env queued_twice) sample_path "cpu,mem" 2%nat sample_result
              (sample_ready _))
    as (b & Hsent & Hdata & _).
  - lia.
  - intros i Hi. destruct i as [| [| [| i]]]; try lia; reflexivity.
  - reflexivity.
  - reflexivity.
  - exists b. split; [exact Hsent | apply Hdata; reflexivity].
Defined.

(** C5 as the specification words it fails: a [null] result is not the
    sentinel, and it is answered with a message of the handler's own, which
    is neither the result nor its [data]. *)
Lemma null_result_is_replaced :
  ~ (forall NumberToString JSON_stringify env path bytes r,
        upload_ready env path bytes ->
        upstream env 1 = Ok r ->
        queued_result r = false ->
        exists b,
          sent NumberToString JSON_stringify env = Some {| status := 200; body := b |} /\
          (b = r \/ b = opt_member r "data")).
Proof.
  intros H.
  destruct (H sample_digits sample_stringify (sample_env (fun _ => Ok JNull))
              sample_path "cpu,mem" JNull (sample_ready _) eq_refl eq_refl)
    as (b & Hsent & Hb).
  vm_compute in Hsent. injection Hsent as <-.
  destruct Hb as [Hb | Hb]; discriminate Hb.
Qed.

(** C1 as the specification words it fails: after a queued answer, a
    [null] result is final, and what is answered is a message of the
    handler's own, neither that result nor its [data]. *)
Lemma polled_result_is_not_returned_as_it_is :
  ~ (forall NumberToString JSON_stringify env path bytes k r,
        upload_ready env path bytes ->
        (k < 12)%nat ->
        (forall i, (1 <= i <= k)%nat -> queued (upstream env i) = true) ->
        upstream env (S k) = Ok r ->
        queued_result r = false ->
        exists b,
          sent NumberToString JSON_stringify env = Some {| status := 200; body := b |} /\
          (b = r \/ b = opt_member r "data")).
Proof.
  intros H.
  destruct (H sample_digits sample_stringify (sample_env queued_then_nothing)
              sample_path "cpu,mem" 1%nat JNull (sample_ready _))
    as (b & Hsent & Hb).
  - lia.
  - intros i Hi. destruct i as [| [| i]]; try lia; reflexivity.
  - reflexivity.
  - reflexivity.
  - vm_compute in Hsent. injection Hsent as <-.
    destruct Hb as [Hb | Hb]; discriminate Hb.
Qed.

(** C3 fails on the handler: a thrown object whose own [toString] is a text
    is no queued sentinel and has neither [message] nor [type]; the [catch]
    block logs it, then calls [err.toString()], which throws; the handler
    ends with that [TypeError] and no answer is sent.  The file is
    removed. *)
Theorem failure_without_a_message_is_not_answered :
  let err := JObj [("toString", JStr "x")] in
  queued_error err = false /\
  run sample_digits sample_stringify (sample_env (fun _ => Throw err))
  = (Raise (JError "TypeError" "err.toString is not a function"),
     {| uploadedPath := sample_path;
        trace := [ParseForm; ReadFile sample_path; Connect "NagarajDev/dlwat";
                  Predict "/predict" (Blob "cpu,mem"); LogError err;
                  Unlink sample_path] |}) /\
  sent sample_digits sample_stringify (sample_env (fun _ => Throw err)) = None.
Proof. repeat split. Qed.

(** The upstream call raising on the first attempt: the file is still
    removed, once. *)
Example removed_when_first_attempt_raises :
  effects sample_digits sample_stringify
    (sample_env (fun _ => Throw (JError "Error" "Connection errored out.")))
  = [ParseForm; ReadFile sample_path; Connect "NagarajDev/dlwat";
     Predict "/predict" (Blob "cpu,mem");
     LogError (JError "Error" "Connection errored out.");
     Unlink sample_path].
Proof. reflexivity. Qed.

End GatewaySpec.

(** ** Properties of the pages *)
Module PageSpec.
Import JS.

(** *** Comparison of binary64 numbers *)

Lemma SFcompare_swap x y :
  SFcompare y x = option_map CompOpp (SFcompare x y).
Proof.
  destruct x as [sx | sx | | sx mx ex], y as [sy | sy | | sy my ey];
    try destruct sx; try destruct sy; simpl; try reflexivity;
    rewrite (Z.compare_antisym ex ey);
    destruct (ex ?= ey)%Z; simpl; try reflexivity;
    rewrite (Pos.compare_cont_antisym mx my Eq); reflexivity.
Qed.

(** [x < y] is the negation of [y <= x] unless one of them is [NaN]. *)
Lemma SFltb_negb_SFleb x y :
  SFcompare x y <> None -> SFltb x y = negb (SFleb y x).
Proof.
  unfold SFltb, SFleb. rewrite (SFcompare_swap x y).
  destruct (SFcompare x y) as [[| |] |]; simpl; congruence.
Qed.

Lemma ltb_negb_leb (x y : float) :
  (x <=? x)%float = true -> (y <=? y)%float = true ->
  (x <? y)%float = negb (y <=? x)%float.
Proof.
  rewrite ltb_spec, !leb_spec. intros Hx Hy.
  apply SFltb_negb_SFleb.
  unfold SFleb in Hx, Hy.
  destruct (Prim2SF x) as [[|] | [|] | | [|] mx ex], (Prim2SF y) as [[|] | [|] | | [|] my ey];
    simpl in *; congruence.
Qed.

(** A finite non-negative bound [m * 2^e] is below [x]. *)
Definition above (m : positive) (e : Z) (x : spec_float) : Prop :=
  match x with
  | S754_infinity false => True
  | S754_finite false mx ex => (e < ex)%Z \/ (e = ex /\ (m <= mx)%positive)
  | _ => False
  end.

Lemma SFleb_above m e x :
  SFleb (S754_finite false m e) x = true <-> above m e x.
Proof.
  unfold SFleb, above.
  destruct x as [[|] | [|] | | [|] mx ex]; simpl; try (split; [discriminate | tauto]);
    try tauto.
  destruct (Z.compare_spec e ex) as [-> | Hlt | Hgt].
  - rewrite Pos.compare_cont_spec; simpl.
    destruct (Pos.compare_spec m mx) as [Hm | Hm | Hm]; split; intros H;
      try reflexivity; try discriminate;
      try (right; split; [reflexivity | lia]); destruct H as [H | [_ H]]; lia.
  - split; [intros _; now left | reflexivity].
  - split; [discriminate | intros [H | [H _]]; lia].
Qed.

(** The thresholds are ordered: what is at least 0.8 is at least 0.6, and
    what is at least 0.6 is at least 0.4. *)
Lemma ge_08_06 (c : float) : (0.8 <=? c)%float = true -> (0.6 <=? c)%float = true.
Proof.
  rewrite !leb_spec.
  change (Prim2SF 0.8) with (S754_finite false 7205759403792794 (-53)).
  change (Prim2SF 0.6) with (S754_finite false 5404319552844595 (-53)).
  rewrite !SFleb_above. unfold above.
  destruct (Prim2SF c) as [[|] | [|] | | [|] mx ex]; try tauto. lia.
Qed.

Lemma ge_06_04 (c : float) : (0.6 <=? c)%float = true -> (0.4 <=? c)%float = true.
Proof.
  rewrite !leb_spec.
  change (Prim2SF 0.6) with (S754_finite false 5404319552844595 (-53)).
  change (Prim2SF 0.4) with (S754_finite false 7205759403792794 (-54)).
  rewrite !SFleb_above. unfold above.
  destruct (Prim2SF c) as [[|] | [|] | | [|] mx ex]; try tauto. lia.
Qed.

(** A number compared with itself: true unless it is [NaN]. *)
Lemma leb_refl_of_leb (x y : float) : (x <=? y)%float = true -> (y <=? y)%float = true.
Proof.
  rewrite !leb_spec. unfold SFleb.
  destruct (Prim2SF x) as [[|] | [|] | | [|] mx ex], (Prim2SF y) as [[|] | [|] | | [|] my ey];
    simpl; try congruence; intros _;
    rewrite Z.compare_refl, Pos.compare_cont_refl; reflexivity.
Qed.

(** *** Binary64 numbers on a line of integers *)

Local Open Scope Z_scope.

Lemma digits2_pos_bounds (m : positive) :
  2 ^ (Zpos (digits2_pos m) - 1) <= Zpos m < 2 ^ Zpos (digits2_pos m).
Proof.
  induction m as [m IH | m IH |]; cbn [digits2_pos].
  - rewrite Pos2Z.inj_succ. change (Zpos m~1) with (2 * Zpos m + 1).
    replace (Z.succ (Zpos (digits2_pos m)) - 1) with (Z.succ (Zpos (digits2_pos m) - 1)) by lia.
    rewrite !Z.pow_succ_r by lia.
    destruct IH as [Hlow Hhigh]. revert Hlow Hhigh.
    generalize (2 ^ (Zpos (digits2_pos m) - 1)) (2 ^ Zpos (digits2_pos m)).
    intros; split; lia.
  - rewrite Pos2Z.inj_succ. change (Zpos m~0) with (2 * Zpos m).
    replace (Z.succ (Zpos (digits2_pos m)) - 1) with (Z.succ (Zpos (digits2_pos m) - 1)) by lia.
    rewrite !Z.pow_succ_r by lia.
    destruct IH as [Hlow Hhigh]. revert Hlow Hhigh.
    generalize (2 ^ (Zpos (digits2_pos m) - 1)) (2 ^ Zpos (digits2_pos m)).
    intros; split; lia.
  - cbn. lia.
Qed.

(** What a valid binary64 mantissa and exponent satisfy. *)
Lemma bounded_inv (m : positive) (e : Z) :
  bounded prec emax m e = true ->
  -1074 <= e <= 971 /\ Zpos m < 2 ^ 53 /\ (-1074 < e -> 2 ^ 52 <= Zpos m).
Proof.
  unfold bounded, canonical_mantissa, fexp, emin, prec, emax.
  intros H. apply andb_true_iff in H. destruct H as [Hc He].
  apply Z.eqb_eq in Hc. apply Z.leb_le in He.
  pose proof (digits2_pos_bounds m) as [Hlow Hhigh].
  set (d := Zpos (digits2_pos m)) in *.
  assert (Hd : 0 < d) by (subst d; lia).
  repeat split; try lia.
  - apply Z.lt_le_trans with (1 := Hhigh). apply Z.pow_le_mono_r; lia.
  - intros Hnormal. assert (d = 53) as Hd53 by lia. rewrite Hd53 in Hlow. exact Hlow.
Qed.

(** The units of a finite number in units of [2^-1074], the least
    positive one. *)
Definition units (m : positive) (e : Z) : Z := Zpos m * 2 ^ (e + 1074).

(** Beyond every finite units. *)
Definition beyond : Z := 2 ^ 2200.

Lemma units_bounds (m : positive) (e : Z) :
  bounded prec emax m e = true -> 0 < units m e < beyond.
Proof.
  intros H. apply bounded_inv in H. destruct H as ((He1 & He2) & Hm & _).
  unfold units, beyond. split.
  - apply Z.mul_pos_pos; [lia | apply Z.pow_pos_nonneg; lia].
  - apply Z.lt_le_trans with (2 ^ 53 * 2 ^ (e + 1074)).
    + apply Z.mul_lt_mono_pos_r; [apply Z.pow_pos_nonneg; lia | exact Hm].
    + rewrite <- Z.pow_add_r by lia. apply Z.pow_le_mono_r; lia.
Qed.

Lemma units_exponents (m1 m2 : positive) (e1 e2 : Z) :
  bounded prec emax m1 e1 = true -> bounded prec emax m2 e2 = true ->
  e1 < e2 -> units m1 e1 < units m2 e2.
Proof.
  intros H1 H2 He.
  apply bounded_inv in H1, H2.
  destruct H1 as ((Ha & _) & Hm1 & _), H2 as (_ & _ & Hm2).
  specialize (Hm2 ltac:(lia)). unfold units.
  replace (e2 + 1074) with ((e1 + 1074) + 1 + (e2 - e1 - 1)) by lia.
  rewrite (Z.pow_add_r 2 (e1 + 1074 + 1)), (Z.pow_add_r 2 (e1 + 1074) 1) by lia.
  change (2 ^ 1) with 2.
  assert (Hp : 0 < 2 ^ (e1 + 1074)) by (apply Z.pow_pos_nonneg; lia).
  assert (Hq : 1 <= 2 ^ (e2 - e1 - 1)) by (apply (Z.pow_le_mono_r 2 0); lia).
  change (2 ^ 53) with (2 * 2 ^ 52) in Hm1.
  assert (HT : 0 < 2 ^ 52) by reflexivity.
  revert Hm1 Hm2 Hp Hq HT.
  generalize (2 ^ 52) (2 ^ (e1 + 1074)) (2 ^ (e2 - e1 - 1)) (Zpos m1) (Zpos m2).
  intros T P Q a b Ha' Hb' HP HQ HT.
  assert (H1 : a * P < 2 * T * P) by (apply Z.mul_lt_mono_pos_r; assumption).
  assert (H2 : T * P <= b * P) by (apply Z.mul_le_mono_nonneg_r; lia).
  assert (H3 : b * P * 1 <= b * P * Q) by (apply Z.mul_le_mono_nonneg_l; nia).
  lia.
Qed.

Lemma units_compare (m1 m2 : positive) (e1 e2 : Z) :
  bounded prec emax m1 e1 = true -> bounded prec emax m2 e2 = true ->
  match e1 ?= e2 with
  | Lt => Lt
  | Gt => Gt
  | Eq => Pos.compare_cont Eq m1 m2
  end = (units m1 e1 ?= units m2 e2).
Proof.
  intros H1 H2. destruct (Z.compare_spec e1 e2) as [-> | He | He].
  - unfold units. change (Pos.compare_cont Eq m1 m2) with (Zpos m1 ?= Zpos m2).
    apply Zmult_compare_compat_r. apply Z.lt_gt, Z.pow_pos_nonneg; [lia |].
    apply bounded_inv in H2. lia.
  - symmetry. apply Z.compare_lt_iff. now apply units_exponents.
  - symmetry. apply Z.compare_gt_iff. now apply units_exponents.
Qed.

(** A number that is not [NaN] on a line of integers: the order of the
    numbers is the order of these. *)
Definition scaled (x : spec_float) : Z :=
  match x with
  | S754_zero _ | S754_nan => 0
  | S754_infinity s => if s then - beyond else beyond
  | S754_finite s m e => if s then - units m e else units m e
  end.

Definition is_nan (x : spec_float) : bool :=
  match x with
  | S754_nan => true
  | _ => false
  end.

Lemma SFcompare_scaled (x y : spec_float) :
  valid_binary x = true -> valid_binary y = true ->
  is_nan x = false -> is_nan y = false ->
  SFcompare x y = Some (scaled x ?= scaled y).
Proof.
  assert (Hbeyond : 0 < beyond) by reflexivity.
  unfold valid_binary.
  destruct x as [sx | sx | | sx mx ex], y as [sy | sy | | sy my ey];
    cbn [SpecFloat.valid_binary is_nan scaled SFcompare]; intros Hx Hy Hnx Hny;
    try discriminate;
    try (pose proof (units_bounds mx ex Hx) as Bx);
    try (pose proof (units_bounds my ey Hy) as By);
    try (destruct sx); try (destruct sy); f_equal; symmetry;
    try reflexivity;
    try (apply Z.compare_lt_iff; lia); try (apply Z.compare_gt_iff; lia);
    try (apply Z.compare_eq_iff; lia).
  - rewrite Z.compare_opp, <- (units_compare my mx ey ex Hy Hx).
    rewrite (Z.compare_antisym ex ey).
    destruct (ex ?= ey); try reflexivity. cbn [CompOpp].
    change (Pos.compare_cont Eq mx my) with (Pos.compare mx my).
    change (Pos.compare_cont Eq my mx) with (Pos.compare my mx).
    now rewrite (Pos.compare_antisym mx my).
  - now rewrite <- (units_compare mx my ex ey Hx Hy).
Qed.

(** *** The sign of a difference

    Rounding a positive integer multiple of [2^-1074] never gives zero. *)
Lemma shr_1_half (mrs : shr_record) :
  0 <= shr_m mrs -> shr_m (shr_1 mrs) = shr_m mrs / 2.
Proof.
  destruct mrs as [m r s]. cbn [shr_m]. intros Hm.
  destruct m as [| [p | p |] | p]; cbn [shr_1 shr_m]; try lia; try reflexivity.
  - change (Zpos p~1) with (2 * Zpos p + 1).
    apply (Z.div_unique_pos _ _ _ 1); lia.
  - change (Zpos p~0) with (2 * Zpos p).
    apply (Z.div_unique_pos _ _ _ 0); lia.
Qed.

Lemma iter_shr_1 (p : positive) : forall mrs,
  0 <= shr_m mrs -> shr_m (iter_pos shr_1 p mrs) = shr_m mrs / 2 ^ Zpos p.
Proof.
  assert (Hpow : forall k, 0 < 2 ^ Zpos k) by (intros k; apply Z.pow_pos_nonneg; lia).
  assert (Hnonneg : forall a k, 0 <= a -> 0 <= a / 2 ^ Zpos k).
  { intros a k Ha. apply Z.div_pos; [exact Ha | apply Hpow]. }
  induction p as [p IH | p IH |]; intros mrs Hm; cbn [iter_pos].
  - assert (H1 : 0 <= shr_m (shr_1 mrs)).
    { rewrite shr_1_half by assumption. apply Z.div_pos; lia. }
    assert (H2 : 0 <= shr_m (iter_pos shr_1 p (shr_1 mrs))).
    { rewrite IH by assumption. now apply Hnonneg. }
    rewrite (IH _ H2), (IH _ H1), shr_1_half by assumption.
    pose proof (Hpow p) as Hp.
    rewrite !Z.div_div by lia.
    f_equal. replace (Zpos p~1) with (1 + Zpos p + Zpos p) by lia.
    rewrite !Z.pow_add_r by lia. change (2 ^ 1) with 2. ring.
  - assert (H1 : 0 <= shr_m (iter_pos shr_1 p mrs)).
    { rewrite IH by assumption. now apply Hnonneg. }
    rewrite (IH _ H1), (IH _ Hm).
    pose proof (Hpow p) as Hp.
    rewrite Z.div_div by lia.
    f_equal. replace (Zpos p~0) with (Zpos p + Zpos p) by lia.
    now rewrite Z.pow_add_r by lia.
  - now apply shr_1_half.
Qed.

Lemma shr_fexp_positive (m e : Z) (l : location) :
  0 < m -> -1074 <= e ->
  0 < shr_m (fst (shr_fexp prec emax m e l)) /\ -1074 <= snd (shr_fexp prec emax m e l).
Proof.
  intros Hm He. unfold shr_fexp, shr, fexp, emin, prec, emax.
  assert (Hrec : shr_m (shr_record_of_loc m l) = m) by (now destruct l as [| []]).
  destruct m as [| p |]; try lia. cbn [Zdigits2].
  pose proof (digits2_pos_bounds p) as [Hlow _].
  set (d := Zpos (digits2_pos p)) in *.
  destruct (Z.max (d + e - 53) (3 - 1024 - 53) - e) as [| n | n] eqn:Hn;
    cbn [fst snd]; rewrite ?Hrec; try lia.
  split; [| lia].
  rewrite iter_shr_1 by (rewrite Hrec; lia). rewrite Hrec.
  assert (Hshift : Zpos n = d - 53) by lia.
  apply Z.div_str_pos. split; [apply Z.pow_pos_nonneg; lia |].
  apply Z.le_trans with (2 := Hlow). apply Z.pow_le_mono_r; lia.
Qed.

Lemma binary_round_aux_sign (sx : bool) (m e : Z) :
  0 < m -> -1074 <= e ->
  (exists m' e', binary_round_aux prec emax sx m e loc_Exact = S754_finite sx m' e')
  \/ binary_round_aux prec emax sx m e loc_Exact = S754_infinity sx.
Proof.
  intros Hm He. unfold binary_round_aux.
  pose proof (shr_fexp_positive m e loc_Exact Hm He) as [Hm1 He1].
  destruct (shr_fexp prec emax m e loc_Exact) as [mrs1 e1]. cbn [fst snd] in Hm1, He1.
  assert (Hround : 0 < round_nearest_even (shr_m mrs1) (loc_of_shr_record mrs1)).
  { unfold round_nearest_even.
    destruct (loc_of_shr_record mrs1) as [| []]; try destruct (Z.even (shr_m mrs1)); lia. }
  pose proof (shr_fexp_positive _ e1 loc_Exact Hround He1) as [Hm2 _].
  destruct (shr_fexp prec emax _ e1 loc_Exact) as [mrs2 e2]. cbn [fst] in Hm2.
  destruct (shr_m mrs2) as [| m2 |]; try lia.
  destruct (e2 <=? emax - prec); [left; eauto | now right].
Qed.

Lemma binary_round_sign (sx : bool) (m : positive) (e : Z) :
  -1074 <= e ->
  (exists m' e', binary_round prec emax sx m e = S754_finite sx m' e')
  \/ binary_round prec emax sx m e = S754_infinity sx.
Proof.
  intros He. unfold binary_round.
  destruct (shl_align m e (fexp prec emax (Zpos (digits2_pos m) + e))) as [mz ez] eqn:Halign.
  apply binary_round_aux_sign; [lia |].
  unfold shl_align, fexp, emin, prec, emax in Halign.
  destruct (Z.max (Zpos (digits2_pos m) + e - 53) (3 - 1024 - 53) - e) eqn:Hd;
    injection Halign as <- <-; lia.
Qed.

Lemma iter_xO (d : positive) (m : positive) :
  Zpos (Pos.iter xO m d) = Zpos m * 2 ^ Zpos d.
Proof.
  induction d as [| d IH] using Pos.peano_ind.
  - cbn [Pos.iter]. change (Zpos m~0) with (2 * Zpos m). change (2 ^ 1) with 2. ring.
  - rewrite Pos.iter_succ. change (Zpos (Pos.iter xO m d)~0) with (2 * Zpos (Pos.iter xO m d)).
    rewrite IH, Pos2Z.inj_succ, Z.pow_succ_r by lia. ring.
Qed.

Lemma shl_align_value (m : positive) (e e' : Z) :
  e' <= e -> Zpos (fst (shl_align m e e')) = Zpos m * 2 ^ (e - e').
Proof.
  intros He. unfold shl_align.
  destruct (e' - e) as [| d | d] eqn:Hd; try lia; cbn [fst].
  - replace (e - e') with 0 by lia. cbn. lia.
  - rewrite iter_xO. f_equal. f_equal. lia.
Qed.

(** The sign of a number: 0 for a zero and for [NaN]. *)
Definition sign_of (r : spec_float) : Z :=
  match r with
  | S754_finite s _ _ | S754_infinity s => if s then -1 else 1
  | _ => 0
  end.

Definition sign_of_comparison (c : comparison) : Z :=
  match c with
  | Lt => -1
  | Eq => 0
  | Gt => 1
  end.

Lemma SFsub_sign (x y : spec_float) :
  valid_binary x = true -> valid_binary y = true ->
  is_nan x = false -> is_nan y = false ->
  sign_of (SF64sub x y) = sign_of_comparison (scaled x ?= scaled y).
Proof.
  assert (Hbeyond : 0 < beyond) by reflexivity.
  unfold valid_binary, SF64sub.
  destruct x as [sx | sx | | sx mx ex], y as [sy | sy | | sy my ey];
    cbn [SpecFloat.valid_binary is_nan]; intros Hx Hy Hnx Hny; try discriminate.
  1-8: cbn [SFsub scaled];
    try (pose proof (units_bounds mx ex Hx) as Bx);
    try (pose proof (units_bounds my ey Hy) as By);
    try (destruct sx); try (destruct sy); cbn [sign_of negb];
    match goal with
    | |- _ = sign_of_comparison (?a ?= ?b) =>
        destruct (Z.compare_spec a b); cbn [sign_of_comparison]; try reflexivity; lia
    end.
  cbn [SFsub scaled].
  set (ez := Z.min ex ey).
  pose proof (bounded_inv mx ex Hx) as ((Hex & _) & _).
  pose proof (bounded_inv my ey Hy) as ((Hey & _) & _).
  assert (Hez : -1074 <= ez) by (subst ez; lia).
  rewrite (shl_align_value mx ex ez), (shl_align_value my ey ez) by (subst ez; lia).
  set (K := 2 ^ (ez + 1074)).
  assert (HK : 0 < K) by (subst K; apply Z.pow_pos_nonneg; lia).
  assert (Hmx : units mx ex = Zpos mx * 2 ^ (ex - ez) * K).
  { unfold units, K. rewrite <- Z.mul_assoc, <- Z.pow_add_r by (subst ez; lia).
    f_equal. f_equal. lia. }
  assert (Hmy : units my ey = Zpos my * 2 ^ (ey - ez) * K).
  { unfold units, K. rewrite <- Z.mul_assoc, <- Z.pow_add_r by (subst ez; lia).
    f_equal. f_equal. lia. }
  rewrite Hmx, Hmy.
  set (A := Zpos mx * 2 ^ (ex - ez)). set (B := Zpos my * 2 ^ (ey - ez)).
  set (D := cond_Zopp sx A - cond_Zopp sy B).
  assert (Hdiff : (if sx then - (A * K) else A * K) - (if sy then - (B * K) else B * K) = D * K).
  { subst D. unfold cond_Zopp. destruct sx, sy; ring. }
  assert (Hsign : ((if sx then - (A * K) else A * K) ?= (if sy then - (B * K) else B * K))
                  = (D ?= 0)).
  { revert Hdiff. generalize (if sx then - (A * K) else A * K) (if sy then - (B * K) else B * K).
    intros a b Hab.
    destruct (Z.compare_spec D 0) as [HD | HD | HD].
    - apply Z.compare_eq_iff. nia.
    - apply Z.compare_lt_iff. nia.
    - apply Z.compare_gt_iff. nia. }
  rewrite Hsign. unfold binary_normalize.
  destruct D as [| p | p]; cbn [Z.compare sign_of_comparison].
  - reflexivity.
  - destruct (binary_round_sign false p ez Hez) as [(m' & e' & ->) | ->]; reflexivity.
  - destruct (binary_round_sign true p ez Hez) as [(m' & e' & ->) | ->]; reflexivity.
Qed.

(** *** Numbers on the integer line *)

Definition rank (x : float) : Z := scaled (Prim2SF x).

(** [x] is not [NaN]. *)
Definition is_number (x : float) : bool := (x <=? x)%float.

Lemma is_number_not_nan (x : float) : is_number x = true -> is_nan (Prim2SF x) = false.
Proof.
  unfold is_number. rewrite leb_spec. now destruct (Prim2SF x).
Qed.

Lemma sign_spec (v : float) : LegacyPage.sign v = sign_of (Prim2SF v).
Proof.
  unfold LegacyPage.sign. rewrite !ltb_spec.
  change (Prim2SF 0) with (S754_zero false).
  destruct (Prim2SF v) as [s | s | | s m e]; try destruct s; reflexivity.
Qed.

Lemma compare_rank (x y : float) :
  is_number x = true -> is_number y = true ->
  SFcompare (Prim2SF x) (Prim2SF y) = Some (rank x ?= rank y).
Proof.
  intros Hx Hy. apply SFcompare_scaled;
    auto using Prim2SF_valid, is_number_not_nan.
Qed.

Lemma sub_sign (x y : float) :
  is_number x = true -> is_number y = true ->
  LegacyPage.sign (x - y) = sign_of_comparison (rank x ?= rank y).
Proof.
  intros Hx Hy. rewrite sign_spec, sub_spec.
  apply SFsub_sign; auto using Prim2SF_valid, is_number_not_nan.
Qed.

Lemma ltb_rank (x y : float) :
  is_number x = true -> is_number y = true -> (x <? y)%float = (rank x <? rank y).
Proof.
  intros Hx Hy. rewrite ltb_spec. unfold SFltb, Z.ltb.
  rewrite (compare_rank x y Hx Hy). now destruct (rank x ?= rank y).
Qed.

Lemma eqb_rank (x y : float) :
  is_number x = true -> is_number y = true -> (x =? y)%float = (rank x =? rank y).
Proof.
  intros Hx Hy. rewrite eqb_spec. unfold SFeqb.
  rewrite (compare_rank x y Hx Hy).
  destruct (Z.compare_spec (rank x) (rank y)) as [H | H | H]; symmetry.
  - now apply Z.eqb_eq.
  - apply Z.eqb_neq. lia.
  - apply Z.eqb_neq. lia.
Qed.

Lemma eqb_is_number (x y : float) :
  (x =? y)%float = true -> is_number x = true /\ is_number y = true.
Proof.
  unfold is_number. rewrite eqb_spec, !leb_spec. unfold SFeqb, SFleb.
  destruct (Prim2SF x) as [sx | sx | | sx mx ex], (Prim2SF y) as [sy | sy | | sy my ey];
    cbn [SFcompare]; try discriminate; intros _;
    try destruct sx; try destruct sy;
    rewrite ?Z.compare_refl, ?Pos.compare_cont_refl; split; reflexivity.
Qed.

Local Close Scope Z_scope.

(** *** The flat page: sorting *)

Lemma insert_Permutation {A} (cmp : A -> A -> Z) (x : A) (l : list A) :
  Permutation (insert cmp x l) (x :: l).
Proof.
  induction l as [| y l IH]; [reflexivity |].
  cbn [insert]. destruct (cmp x y <=? 0)%Z; [reflexivity |].
  rewrite IH. apply perm_swap.
Qed.

Lemma sort_Permutation {A} (cmp : A -> A -> Z) (l : list A) :
  Permutation (sort cmp l) l.
Proof.
  induction l as [| x l IH]; [reflexivity |].
  unfold sort in *. cbn [fold_right]. rewrite insert_Permutation. now constructor.
Qed.

(** Sorting the images under [f] is sorting by the comparator on images. *)
Lemma insert_map {A B} (f : A -> B) (cmp : B -> B -> Z) (x : A) (l : list A) :
  insert cmp (f x) (map f l) = map f (insert (fun a b => cmp (f a) (f b)) x l).
Proof.
  induction l as [| y l IH]; [reflexivity |].
  cbn [map insert]. destruct (cmp (f x) (f y) <=? 0)%Z; [reflexivity |].
  cbn [map]. now rewrite IH.
Qed.

Lemma sort_map {A B} (f : A -> B) (cmp : B -> B -> Z) (l : list A) :
  sort cmp (map f l) = map f (sort (fun a b => cmp (f a) (f b)) l).
Proof.
  induction l as [| x l IH]; [reflexivity |].
  unfold sort in *. cbn [map fold_right]. now rewrite IH, insert_map.
Qed.

(** Only the sign of the comparator counts, and only on the elements. *)
Lemma insert_ext {A} (cmp cmp' : A -> A -> Z) (x : A) (l : list A) :
  (forall y, In y l -> (cmp x y <=? 0)%Z = (cmp' x y <=? 0)%Z) ->
  insert cmp x l = insert cmp' x l.
Proof.
  induction l as [| y l IH]; intros H; [reflexivity |].
  cbn [insert]. rewrite (H y (or_introl eq_refl)).
  destruct (cmp' x y <=? 0)%Z; [reflexivity |].
  f_equal. apply IH. intros z Hz. apply H. now right.
Qed.

Lemma sort_ext {A} (cmp cmp' : A -> A -> Z) (l : list A) :
  (forall x y, In x l -> In y l -> (cmp x y <=? 0)%Z = (cmp' x y <=? 0)%Z) ->
  sort cmp l = sort cmp' l.
Proof.
  induction l as [| x l IH]; intros H; [reflexivity |].
  unfold sort in *. cbn [fold_right].
  rewrite IH by (intros a b Ha Hb; apply H; now right).
  apply insert_ext. intros y Hy. apply H; [now left | right].
  now apply (Permutation_in _ (sort_Permutation cmp' l)).
Qed.

(** Sorting by the difference of integer ranks. *)
Definition by_rank {A} (rank : A -> Z) (a b : A) : Z := (rank a - rank b)%Z.

Lemma insert_sorted {A} (rank : A -> Z) (x : A) (l : list A) :
  StronglySorted (fun a b => rank a <= rank b)%Z l ->
  StronglySorted (fun a b => rank a <= rank b)%Z (insert (by_rank rank) x l).
Proof.
  induction l as [| y l IH]; intros Hl.
  - repeat constructor.
  - cbn [insert]. unfold by_rank at 1.
    apply StronglySorted_inv in Hl. destruct Hl as [Hl Hy].
    destruct (Z.leb_spec (rank x - rank y) 0) as [Hle | Hgt].
    + constructor; [now constructor |].
      constructor; [lia |].
      eapply Forall_impl; [| exact Hy]. intros z Hz. cbn beta in *. lia.
    + constructor; [now apply IH |].
      rewrite (insert_Permutation (by_rank rank) x l). constructor; [lia | assumption].
Qed.

Lemma sort_sorted {A} (rank : A -> Z) (l : list A) :
  StronglySorted (fun a b => rank a <= rank b)%Z (sort (by_rank rank) l).
Proof.
  induction l as [| x l IH]; [constructor |].
  unfold sort in *. cbn [fold_right]. now apply insert_sorted.
Qed.

Lemma sorted_distinct {A} (rank : A -> Z) (l : list A) :
  NoDup (map rank l) ->
  StronglySorted (fun a b => rank a <= rank b)%Z l ->
  StronglySorted (fun a b => rank a < rank b)%Z l.
Proof.
  induction l as [| x l IH]; intros Hnd Hs; [constructor |].
  apply StronglySorted_inv in Hs. destruct Hs as [Hs Hx].
  cbn [map] in Hnd. apply NoDup_cons_iff in Hnd. destruct Hnd as [Hnotin Hnd].
  constructor; [now apply IH |].
  rewrite Forall_forall in *. intros y Hy.
  specialize (Hx y Hy). cbn beta in Hx.
  assert (rank x <> rank y) by (intros E; apply Hnotin; rewrite E; now apply in_map).
  lia.
Qed.

Lemma NoDup_map_through {A B C} (f : A -> B) (g : A -> C) (l : list A) :
  (forall a b, In a l -> In b l -> g a = g b -> f a = f b) ->
  NoDup (map f l) -> NoDup (map g l).
Proof.
  induction l as [| x l IH]; intros H Hnd; [constructor |].
  cbn [map] in *. apply NoDup_cons_iff in Hnd. destruct Hnd as [Hnotin Hnd].
  constructor.
  - intros Hin. apply in_map_iff in Hin. destruct Hin as (y & Hy & Hin).
    apply Hnotin. rewrite <- (H y x); [now apply in_map | now right | now left | exact Hy].
  - apply IH; [| exact Hnd]. intros a b Ha Hb. apply H; now right.
Qed.

(** [Object.keys] gives every key once, whatever the order. *)
Lemma own_entries_Permutation {A} (props : list (string * A)) :
  Permutation (own_entries props) props.
Proof.
  unfold own_entries.
  rewrite (Permutation_map snd (sort_Permutation _ _)).
  induction props as [| [k v] props IH]; [reflexivity |].
  cbn [flat_map filter fst]. destruct (array_index k).
  - cbn [app map snd]. now constructor.
  - cbn [app]. rewrite <- Permutation_middle. now constructor.
Qed.

(** The sum of the values, an absent one counting for nothing. *)
Definition sum_values (values : list (option Z)) : Z :=
  fold_right (fun o acc => match o with Some c => c + acc | None => acc end)%Z 0%Z values.

Lemma sum_values_cons c values :
  sum_values (Some c :: values) = (c + sum_values values)%Z.
Proof. reflexivity. Qed.

Lemma sum_values_Permutation (l l' : list (option Z)) :
  Permutation l l' -> sum_values l = sum_values l'.
Proof.
  unfold sum_values.
  induction 1 as [| o l l' _ IH | o o' l | l l' l'' _ IH _ IH']; cbn [fold_right].
  - reflexivity.
  - now rewrite IH.
  - destruct o, o'; lia.
  - congruence.
Qed.

(** A [map] with the index, over two columns of one list. *)
Lemma map_indexed {V L B C} (a : V -> L) (b : V -> B) (F : option B -> L -> C) (vs : list V) :
  forall pre,
    map (fun '(i, lab) => F (nth_error (map b (pre ++ vs)) i) lab)
        (combine (seq (List.length pre) (List.length (map a vs))) (map a vs))
    = map (fun v => F (Some (b v)) (a v)) vs.
Proof.
  induction vs as [| v vs IH]; intros pre; [reflexivity |].
  cbn [map List.length seq combine]. f_equal.
  - rewrite map_app, nth_error_app2 by (rewrite length_map; lia).
    rewrite length_map, Nat.sub_diag. reflexivity.
  - specialize (IH (pre ++ [v])).
    rewrite <- app_assoc, length_app, Nat.add_1_r in IH. exact IH.
Qed.

(** The value [m * 2^e] of a finite binary64. *)
Definition magnitude (m : positive) (e : Z) : Q :=
  if (0 <=? e)%Z then inject_Z (Zpos m * 2 ^ e) else Zpos m # Z.to_pos (2 ^ (- e)).

(** [tenths] is the integer nearest to ten times the value, the larger of
    the two at a tie. *)
Lemma tenths_nearest (m : positive) (e : Z) :
  (inject_Z (tenths m e) - (1 # 2) <= 10 * magnitude m e)%Q /\
  (10 * magnitude m e < inject_Z (tenths m e) + (1 # 2))%Q.
Proof.
  unfold tenths, magnitude.
  destruct (Z.leb_spec 0 e) as [He | He].
  - replace (10 * Zpos m * 2 ^ e)%Z with (10 * (Zpos m * 2 ^ e))%Z by lia.
    generalize (Zpos m * 2 ^ e)%Z. intros v.
    unfold Qle, Qlt, Qminus, Qplus, Qmult, Qopp, inject_Z; cbn [Qnum Qden].
    split; lia.
  - assert (Hd : (0 < 2 ^ (- e))%Z) by (apply Z.pow_pos_nonneg; lia).
    set (d := (2 ^ (- e))%Z) in *.
    pose proof (Z.div_mod (20 * Zpos m + d) (2 * d)) as Hdiv.
    pose proof (Z.mod_pos_bound (20 * Zpos m + d) (2 * d)) as Hmod.
    set (k := ((20 * Zpos m + d) / (2 * d))%Z) in *.
    set (r := ((20 * Zpos m + d) mod (2 * d))%Z) in *.
    specialize (Hdiv ltac:(lia)). specialize (Hmod ltac:(lia)).
    unfold Qle, Qlt, Qminus, Qplus, Qmult, Qopp, inject_Z; cbn [Qnum Qden].
    rewrite !Pos2Z.inj_mul, Z2Pos.id by assumption.
    split; nia.
Qed.

(** *** The flat page: the counts object *)

(** The number of entries of the array that are the number [v]: [0] and
    [-0] are one number. *)
Definition occurrences (arr : list float) (v : float) : Z :=
  Z.of_nat (List.length (filter (fun x => (x =? v)%float) arr)).

Section Counting.

Variable NumberToString : float -> string.

(** The number of entries that [String] prints as it prints [v]. *)
Definition printed_like (arr : list float) (v : float) : Z :=
  Z.of_nat (List.length (filter (fun x => NumberToString x =? NumberToString v) arr)).

(** The object that maps what [String] prints of each [v] of [ds] to
    [f v]. *)
Definition keyed (f : float -> Z) (ds : list float) : list (string * Z) :=
  map (fun v => (NumberToString v, f v)) ds.

Lemma lookup_keyed_in f ds v :
  (forall w, NumberToString w = NumberToString v -> f w = f v) ->
  In (NumberToString v) (map NumberToString ds) ->
  lookup (NumberToString v) (keyed f ds) = Some (f v).
Proof.
  intros Hf. induction ds as [| w ds IH]; intros Hin; [contradiction |].
  cbn [keyed map lookup].
  destruct (String.eqb_spec (NumberToString w) (NumberToString v)) as [E | NE].
  - now rewrite (Hf w E).
  - destruct Hin as [E | Hin]; [congruence | now apply IH].
Qed.

Lemma lookup_keyed_notin f ds v :
  ~ In (NumberToString v) (map NumberToString ds) ->
  lookup (NumberToString v) (keyed f ds) = None.
Proof.
  induction ds as [| w ds IH]; intros Hnotin; [reflexivity |].
  cbn [keyed map lookup].
  destruct (String.eqb_spec (NumberToString w) (NumberToString v)) as [E | NE].
  - exfalso. apply Hnotin. now left.
  - apply IH. intros H. apply Hnotin. now right.
Qed.

Lemma assign_keyed_notin f ds v c :
  ~ In (NumberToString v) (map NumberToString ds) ->
  LegacyPage.assign (NumberToString v) c (keyed f ds)
  = keyed f ds ++ [(NumberToString v, c)].
Proof.
  induction ds as [| w ds IH]; intros Hnotin; [reflexivity |].
  cbn [keyed map LegacyPage.assign app].
  destruct (String.eqb_spec (NumberToString w) (NumberToString v)) as [E | NE].
  - exfalso. apply Hnotin. now left.
  - f_equal. apply IH. intros H. apply Hnotin. now right.
Qed.

Lemma assign_keyed_in f ds v c :
  NoDup (map NumberToString ds) ->
  In (NumberToString v) (map NumberToString ds) ->
  LegacyPage.assign (NumberToString v) c (keyed f ds)
  = keyed (fun w => if NumberToString w =? NumberToString v then c else f w) ds.
Proof.
  induction ds as [| w ds IH]; intros Hnd Hin; [contradiction |].
  cbn [map] in Hnd. apply NoDup_cons_iff in Hnd. destruct Hnd as [Hw Hnd].
  cbn [keyed map LegacyPage.assign].
  destruct (String.eqb_spec (NumberToString w) (NumberToString v)) as [E | NE].
  - f_equal. apply map_ext_in. intros u Hu.
    destruct (String.eqb_spec (NumberToString u) (NumberToString v)) as [E' | _];
      [| reflexivity].
    exfalso. apply Hw. rewrite E, <- E'. now apply in_map.
  - f_equal. destruct Hin as [E | Hin]; [congruence |]. now apply IH.
Qed.

(** After the [forEach] has gone through [done], [counts] holds each key
    once, in the order of first occurrence, with the number of entries
    printed so. *)
Definition tallied (counts : list (string * Z)) (done : list float) : Prop :=
  exists ds,
    NoDup (map NumberToString ds) /\ incl ds done /\
    (forall v, In v done -> In (NumberToString v) (map NumberToString ds)) /\
    counts = keyed (printed_like done) ds.

Lemma printed_like_snoc done v w :
  printed_like (done ++ [v]) w
  = if NumberToString v =? NumberToString w
    then (printed_like done w + 1)%Z else printed_like done w.
Proof.
  unfold printed_like. rewrite filter_app, length_app. cbn [filter].
  destruct (NumberToString v =? NumberToString w); cbn [List.length]; lia.
Qed.

Lemma printed_like_same arr v w :
  NumberToString w = NumberToString v -> printed_like arr w = printed_like arr v.
Proof. intros E. unfold printed_like. now rewrite E. Qed.

Lemma printed_like_positive done v :
  In (NumberToString v) (map NumberToString done) -> (0 < printed_like done v)%Z.
Proof.
  intros Hin. apply in_map_iff in Hin. destruct Hin as (x & Hx & Hin).
  unfold printed_like.
  assert (Hf : In x (filter (fun y => NumberToString y =? NumberToString v) done)).
  { apply filter_In. split; [exact Hin |]. now apply String.eqb_eq. }
  destruct (filter (fun y => NumberToString y =? NumberToString v) done);
    [destruct Hf | cbn [List.length]; lia].
Qed.

Lemma printed_like_absent done v :
  ~ In (NumberToString v) (map NumberToString done) -> printed_like done v = 0%Z.
Proof.
  intros Hnotin. unfold printed_like.
  induction done as [| x done IH]; [reflexivity |].
  cbn [filter]. destruct (String.eqb_spec (NumberToString x) (NumberToString v)) as [E | _].
  - exfalso. apply Hnotin. now left.
  - apply IH. intros H. apply Hnotin. now right.
Qed.

Lemma tally_step counts done v :
  tallied counts done ->
  tallied (LegacyPage.tally NumberToString counts v) (done ++ [v]).
Proof.
  intros (ds & Hnd & Hincl & Hcover & ->).
  unfold LegacyPage.tally, LegacyPage.count_or_zero.
  destruct (in_dec string_dec (NumberToString v) (map NumberToString ds)) as [Hv | Hv].
  - rewrite (lookup_keyed_in _ ds v (printed_like_same done v)) by assumption.
    assert (Hpos : (0 < printed_like done v)%Z).
    { apply printed_like_positive. apply in_map_iff in Hv.
      destruct Hv as (w & Hw & Hin). rewrite <- Hw. apply in_map. now apply Hincl. }
    destruct (Z.eqb_spec (printed_like done v) 0) as [E | _]; [lia |].
    rewrite assign_keyed_in by assumption.
    exists ds. split; [assumption | split; [| split]].
    + intros w Hw. apply in_or_app. left. now apply Hincl.
    + intros w Hw. apply in_app_or in Hw. destruct Hw as [Hw | [<- | []]]; auto.
    + apply map_ext_in. intros w _. f_equal. rewrite printed_like_snoc.
      rewrite (String.eqb_sym (NumberToString v) (NumberToString w)).
      destruct (String.eqb_spec (NumberToString w) (NumberToString v)) as [E | _];
        [| reflexivity].
      now rewrite (printed_like_same done v w E).
  - rewrite lookup_keyed_notin by assumption.
    rewrite assign_keyed_notin by assumption.
    assert (Hnew : ~ In (NumberToString v) (map NumberToString done)).
    { intros H. apply in_map_iff in H. destruct H as (w & Hw & Hin).
      apply Hv. rewrite <- Hw. now apply Hcover. }
    exists (ds ++ [v]). split; [| split; [| split]].
    + rewrite map_app. apply NoDup_app; [assumption | repeat constructor; intros [] |].
      intros k Hk [<- | []]. contradiction.
    + intros w Hw. apply in_app_or in Hw. apply in_or_app.
      destruct Hw as [Hw | Hw]; [left; now apply Hincl | now right].
    + intros w Hw. rewrite map_app. apply in_or_app. apply in_app_or in Hw.
      destruct Hw as [Hw | [<- | []]]; [left; now apply Hcover | right; now left].
    + unfold keyed. rewrite map_app. cbn [map]. f_equal.
      * apply map_ext_in. intros w Hw. f_equal. rewrite printed_like_snoc.
        destruct (String.eqb_spec (NumberToString v) (NumberToString w)) as [E | _];
          [| reflexivity].
        exfalso. apply Hv. rewrite E. now apply in_map.
      * rewrite printed_like_snoc, String.eqb_refl, (printed_like_absent done v Hnew).
        reflexivity.
Qed.

Lemma tally_all arr : forall counts done,
  tallied counts done ->
  tallied (fold_left (LegacyPage.tally NumberToString) arr counts) (done ++ arr).
Proof.
  induction arr as [| v arr IH]; intros counts done H.
  - now rewrite app_nil_r.
  - cbn [fold_left]. replace (done ++ v :: arr) with ((done ++ [v]) ++ arr)
      by now rewrite <- app_assoc.
    apply IH, tally_step, H.
Qed.

(** One more entry adds one to the sum, under its key. *)
Lemma printed_like_sum_cons a arr ds :
  NoDup (map NumberToString ds) ->
  sum_values (map (fun v => Some (printed_like (a :: arr) v)) ds)
  = (sum_values (map (fun v => Some (printed_like arr v)) ds)
     + if in_dec string_dec (NumberToString a) (map NumberToString ds) then 1 else 0)%Z.
Proof.
  induction ds as [| w ds IH]; intros Hnd; [reflexivity |].
  cbn [map] in Hnd. apply NoDup_cons_iff in Hnd. destruct Hnd as [Hw Hnd].
  cbn [map]. rewrite !sum_values_cons, (IH Hnd).
  assert (Hhead : printed_like (a :: arr) w
                  = (printed_like arr w
                     + if (NumberToString a =? NumberToString w)%string then 1 else 0)%Z).
  { unfold printed_like. cbn [filter].
    destruct (NumberToString a =? NumberToString w); cbn [List.length]; lia. }
  rewrite Hhead.
  destruct (String.eqb_spec (NumberToString a) (NumberToString w)) as [E | NE].
  - destruct (in_dec string_dec (NumberToString a) (map NumberToString ds)) as [Hin | _];
      [rewrite E in Hin; contradiction |].
    destruct (in_dec string_dec (NumberToString a) (NumberToString w :: map NumberToString ds))
      as [_ | H]; [lia |].
    exfalso. apply H. now left.
  - destruct (in_dec string_dec (NumberToString a) (map NumberToString ds)) as [Hin | Hnotin];
      destruct (in_dec string_dec (NumberToString a)
                  (NumberToString w :: map NumberToString ds)) as [Hin' | Hnotin'];
      try lia.
    + exfalso. apply Hnotin'. now right.
    + destruct Hin' as [E | Hin']; [congruence | contradiction].
Qed.

Lemma printed_like_sum (ds arr : list float) :
  NoDup (map NumberToString ds) ->
  (forall x, In x arr -> In (NumberToString x) (map NumberToString ds)) ->
  sum_values (map (fun v => Some (printed_like arr v)) ds) = Z.of_nat (List.length arr).
Proof.
  intros Hnd. induction arr as [| a arr IH]; intros Hcover.
  - clear. induction ds as [| v ds IH]; [reflexivity |].
    cbn [map]. rewrite sum_values_cons, IH. reflexivity.
  - rewrite (printed_like_sum_cons a arr ds Hnd), IH
      by (intros x Hx; apply Hcover; now right).
    destruct (in_dec string_dec (NumberToString a) (map NumberToString ds)) as [_ | H];
      [| exfalso; apply H, Hcover; now left].
    cbn [List.length]. lia.
Qed.

Variable StringToNumber : string -> float.

Local Notation "'buildCounts'" := (LegacyPage.buildCounts NumberToString StringToNumber).

(** The table of any array of numbers, through the keys in the order
    [sort] leaves them in. *)
Lemma buildCounts_keys (arr : list float) :
  exists ds,
    NoDup (map NumberToString ds) /\ incl ds arr /\
    (forall x, In x arr -> In (NumberToString x) (map NumberToString ds)) /\
    LegacyPage.labels (buildCounts arr)
    = map NumberToString
        (sort (fun a b => LegacyPage.numerically StringToNumber
                            (NumberToString a) (NumberToString b)) ds) /\
    LegacyPage.values (buildCounts arr)
    = map (fun v => Some (printed_like arr v))
        (sort (fun a b => LegacyPage.numerically StringToNumber
                            (NumberToString a) (NumberToString b)) ds).
Proof.
  destruct (tally_all arr [] []) as (ds & Hnd & Hincl & Hcover & Hcounts).
  { exists []. repeat split; try constructor; intros ? []. }
  cbn [app] in *.
  assert (Hkeys : Permutation
                    (map fst (own_entries (fold_left (LegacyPage.tally NumberToString) arr [])))
                    (map NumberToString ds)).
  { rewrite (Permutation_map fst (own_entries_Permutation _)), Hcounts.
    unfold keyed. rewrite map_map. cbn [fst]. reflexivity. }
  apply Permutation_map_inv in Hkeys. destruct Hkeys as (ds' & Hds' & Hperm).
  exists ds'. split; [| split; [| split; [| split]]].
  - apply (Permutation_NoDup (Permutation_map NumberToString Hperm) Hnd).
  - intros v Hv. apply Hincl. now apply (Permutation_in _ (Permutation_sym Hperm)).
  - intros x Hx. apply (Permutation_in _ (Permutation_map NumberToString Hperm)).
    now apply Hcover.
  - unfold LegacyPage.buildCounts. cbn [LegacyPage.labels].
    now rewrite Hds', sort_map.
  - unfold LegacyPage.buildCounts. cbn [LegacyPage.values].
    rewrite Hds', sort_map, map_map, Hcounts.
    apply map_ext_in. intros v Hv.
    apply (lookup_keyed_in _ ds v (printed_like_same arr v)).
    apply (Permutation_in _ (Permutation_sym (Permutation_map NumberToString Hperm))).
    apply in_map. eapply Permutation_in; [apply sort_Permutation | exact Hv].
Qed.

(** The counts add up to the length, whatever the numbers. *)
Lemma buildCounts_sum (arr : list float) :
  sum_values (LegacyPage.values (buildCounts arr)) = Z.of_nat (List.length arr).
Proof.
  destruct (buildCounts_keys arr) as (ds & Hnd & _ & Hcover & _ & ->).
  rewrite (sum_values_Permutation _ _
             (Permutation_map (fun v => Some (printed_like arr v)) (sort_Permutation _ ds))).
  now apply printed_like_sum.
Qed.

Section Numbers.

(** The array, and what the runtime's conversions do on its entries:
    [Number(String(x))] is [x], and two entries that are one number are
    printed alike. *)
Variable arr : list float.
Hypothesis round_trip :
  forall x, In x arr -> (StringToNumber (NumberToString x) =? x)%float = true.
Hypothesis one_numeral :
  forall x y, In x arr -> In y arr -> (x =? y)%float = true ->
  NumberToString x = NumberToString y.

Lemma entry_is_number x : In x arr -> is_number x = true.
Proof. intros Hx. exact (proj2 (eqb_is_number _ _ (round_trip x Hx))). Qed.

Lemma entry_rank x : In x arr -> rank (StringToNumber (NumberToString x)) = rank x.
Proof.
  intros Hx. pose proof (round_trip x Hx) as H.
  destruct (eqb_is_number _ _ H) as [Hn Hn'].
  rewrite (eqb_rank _ _ Hn Hn') in H. now apply Z.eqb_eq.
Qed.

Lemma same_numeral x y :
  In x arr -> In y arr ->
  (NumberToString x =? NumberToString y) = (x =? y)%float.
Proof.
  intros Hx Hy.
  destruct (String.eqb_spec (NumberToString x) (NumberToString y)) as [E | NE].
  - symmetry. rewrite (eqb_rank x y (entry_is_number x Hx) (entry_is_number y Hy)).
    apply Z.eqb_eq. now rewrite <- (entry_rank x Hx), <- (entry_rank y Hy), E.
  - destruct (x =? y)%float eqn:Heq; [| reflexivity].
    elim NE. now apply one_numeral.
Qed.

Lemma numerically_rank x y :
  In x arr -> In y arr ->
  (LegacyPage.numerically StringToNumber (NumberToString x) (NumberToString y) <=? 0)%Z
  = (by_rank rank x y <=? 0)%Z.
Proof.
  intros Hx Hy. unfold LegacyPage.numerically, by_rank.
  destruct (eqb_is_number _ _ (round_trip x Hx)) as [Hnx _].
  destruct (eqb_is_number _ _ (round_trip y Hy)) as [Hny _].
  rewrite (sub_sign _ _ Hnx Hny), (entry_rank x Hx), (entry_rank y Hy).
  destruct (Z.compare_spec (rank x) (rank y)) as [E | Hlt | Hgt]; cbn [sign_of_comparison];
    symmetry; [apply Z.leb_le | apply Z.leb_le | apply Z.leb_gt]; lia.
Qed.

(** The labels and values [buildCounts] returns, through the distinct
    numbers of the array in ascending order. *)
Lemma buildCounts_labels :
  exists vs,
    StronglySorted (fun a b => (a <? b)%float = true) vs /\
    NoDup (map NumberToString vs) /\
    (forall v, In v vs -> In v arr) /\
    (forall x, In x arr -> exists v, In v vs /\ (x =? v)%float = true) /\
    LegacyPage.labels (buildCounts arr) = map NumberToString vs /\
    LegacyPage.values (buildCounts arr) = map (fun v => Some (occurrences arr v)) vs.
Proof.
  destruct (buildCounts_keys arr) as (ds & Hnd & Hincl & Hcover & Hlabels & Hvalues).
  assert (Hsort : sort (fun a b => LegacyPage.numerically StringToNumber
                                     (NumberToString a) (NumberToString b)) ds
                  = sort (by_rank rank) ds).
  { apply sort_ext. intros x y Hx Hy. apply numerically_rank; now apply Hincl. }
  rewrite Hsort in Hlabels, Hvalues.
  pose proof (sort_Permutation (by_rank rank) ds) as Hperm.
  assert (Hin : forall v, In v (sort (by_rank rank) ds) -> In v arr).
  { intros v Hv. apply Hincl. now apply (Permutation_in _ Hperm). }
  exists (sort (by_rank rank) ds). split; [| split; [| split; [| split; [| split]]]].
  - assert (Hstrict : StronglySorted (fun a b => rank a < rank b)%Z (sort (by_rank rank) ds)).
    { apply sorted_distinct; [| apply sort_sorted].
      apply (NoDup_map_through NumberToString).
      - intros a b Ha Hb E. apply one_numeral; [now apply Hin | now apply Hin |].
        rewrite (eqb_rank a b) by (apply entry_is_number; now apply Hin).
        now apply Z.eqb_eq.
      - apply (Permutation_NoDup (Permutation_map NumberToString (Permutation_sym Hperm)) Hnd). }
    revert Hin Hstrict. generalize (sort (by_rank rank) ds). intros l Hin Hstrict.
    induction Hstrict as [| a l Hl IH Ha]; constructor.
    + apply IH. intros v Hv. apply Hin. now right.
    + rewrite Forall_forall in *. intros b Hb.
      rewrite (ltb_rank a b)
        by (apply entry_is_number, Hin; first [now left | now right]).
      apply Z.ltb_lt. now apply Ha.
  - apply (Permutation_NoDup (Permutation_map NumberToString (Permutation_sym Hperm)) Hnd).
  - exact Hin.
  - intros x Hx. pose proof (Hcover x Hx) as Hk.
    apply in_map_iff in Hk. destruct Hk as (v & Hv & Hvin).
    exists v. split; [now apply (Permutation_in _ (Permutation_sym Hperm)) |].
    rewrite <- (same_numeral x v Hx (Hincl v Hvin)). now apply String.eqb_eq.
  - exact Hlabels.
  - rewrite Hvalues. apply map_ext_in. intros v Hv. f_equal.
    unfold printed_like, occurrences. f_equal. f_equal.
    apply filter_ext_in. intros x Hx. apply same_numeral; [exact Hx | now apply Hin].
Qed.

End Numbers.

Local Notation "'percentage'" := (LegacyPage.percentage NumberToString).
Local Notation "'rows'" := (LegacyPage.rows NumberToString).

Lemma buildCounts_rows (arr vs : list float) :
  LegacyPage.labels (buildCounts arr) = map NumberToString vs ->
  LegacyPage.values (buildCounts arr) = map (fun v => Some (occurrences arr v)) vs ->
  rows (buildCounts arr)
  = map (fun v => (NumberToString v, occurrences arr v,
                   percentage (occurrences arr v) (Z.of_nat (List.length arr)))) vs.
Proof.
  intros Hlabels Hvalues. unfold LegacyPage.rows.
  rewrite Hlabels, Hvalues.
  change (LegacyPage.total (buildCounts arr)) with (Z.of_nat (List.length arr)).
  exact (map_indexed NumberToString (fun v => Some (occurrences arr v))
           (fun o lab =>
              (lab, match o with Some (Some c) => c | _ => 0%Z end,
               percentage match o with Some (Some c) => c | _ => 0%Z end
                          (Z.of_nat (List.length arr))))
           vs []).
Qed.

(** C6.  For every array of numbers, [buildCounts] counts each entry once:
    the values add up to the length of the array, as does [total].  Where
    the runtime's conversions do on the entries what they do on numbers
    ([Number(String(x))] is [x], which leaves out [NaN], and [String] prints
    0 and -0 alike), the labels are what [String] prints of the distinct
    numbers of the array in ascending numeric order and the values are the
    number of occurrences of each; the line of a label shows that count and
    the percentage [(count / total * 100).toFixed(1)], which is the decimal
    with one digit nearest to the binary64 value of [count / total * 100];
    and the percentage is ["0.0"] when the total is zero. *)
Theorem frequency_table (arr : list float) :
  let t := buildCounts arr in
  let n := Z.of_nat (List.length arr) in
  ((forall x, In x arr -> (StringToNumber (NumberToString x) =? x)%float = true) ->
   (forall x y, In x arr -> In y arr -> (x =? y)%float = true ->
                NumberToString x = NumberToString y) ->
   exists vs,
     StronglySorted (fun a b => (a <? b)%float = true) vs /\
     (forall v, In v vs -> In v arr) /\
     (forall x, In x arr -> exists v, In v vs /\ (x =? v)%float = true) /\
     LegacyPage.labels t = map NumberToString vs /\
     LegacyPage.values t = map (fun v => Some (occurrences arr v)) vs /\
     rows t = map (fun v => (NumberToString v, occurrences arr v,
                             percentage (occurrences arr v) n)) vs) /\
  sum_values (LegacyPage.values t) = n /\
  LegacyPage.total t = n /\
  (forall val total, total <> 0%Z ->
     percentage val total
     = toFixed1 NumberToString (num_of_Z val / num_of_Z total * 100)%float) /\
  (forall x m e,
     Prim2SF x = S754_finite false m e ->
     (e < 0 \/ Zpos m * 2 ^ e < 10 ^ 21)%Z ->
     toFixed1 NumberToString x = fixed1 (tenths m e) /\
     (inject_Z (tenths m e) - (1 # 2) <= 10 * magnitude m e)%Q /\
     (10 * magnitude m e < inject_Z (tenths m e) + (1 # 2))%Q) /\
  (forall val, percentage val 0 = "0.0") /\
  (n = 0%Z -> rows t = []).
Proof.
  intros t n.
  split; [| split; [| split; [| split; [| split; [| split]]]]].
  - intros Hround Hone.
    destruct (buildCounts_labels arr Hround Hone)
      as (vs & Hsorted & _ & Hin & Hcover & Hlabels & Hvalues).
    exists vs. repeat split; try assumption.
    now apply buildCounts_rows.
  - apply buildCounts_sum.
  - reflexivity.
  - intros val total Htotal. unfold LegacyPage.percentage.
    apply Z.eqb_neq in Htotal. now rewrite Htotal.
  - intros x m e Hx Hsmall. split; [| apply tenths_nearest].
    unfold toFixed1. rewrite Hx.
    destruct (Z.leb_spec 0 e) as [He | He]; [| reflexivity].
    destruct (Z.leb_spec (10 ^ 21) (Zpos m * 2 ^ e)) as [Hbig | _]; [lia | reflexivity].
  - reflexivity.
  - intros Hn. destruct arr; [reflexivity | subst n; cbn [List.length] in Hn; lia].
Qed.

End Counting.

(** *** A sample array

    Integers and fractions, a value twice, both zeros; [String] and
    [Number] as the runtime has them on these numbers. *)
Definition sample_numbers : list float := [2; -1.25; 0.5; 2; 10; - 0; 0]%float.

Definition sample_String (x : float) : string :=
  if (x =? 2)%float then "2"
  else if (x =? 0.5)%float then "0.5"
  else if (x =? -1.25)%float then "-1.25"
  else if (x =? 10)%float then "10"
  else "0".

Definition sample_Number (k : string) : float :=
  if k =? "2" then 2%float
  else if k =? "0.5" then 0.5%float
  else if k =? "-1.25" then (-1.25)%float
  else if k =? "10" then 10%float
  else 0%float.

Lemma frequency_table_witness :
  exists vs,
    StronglySorted (fun a b => (a <? b)%float = true) vs /\
    LegacyPage.labels (LegacyPage.buildCounts sample_String sample_Number sample_numbers)
    = map sample_String vs.
Proof.
  destruct (frequency_table sample_String sample_Number sample_numbers) as (Htable & _).
  destruct Htable as (vs & Hsorted & _ & _ & Hlabels & _).
  - intros x Hx. cbn [sample_numbers In] in Hx.
    repeat (destruct Hx as [<- | Hx]; [reflexivity |]). destruct Hx.
  - intros x y Hx Hy. cbn [sample_numbers In] in Hx, Hy.
    repeat (destruct Hx as [<- | Hx];
            [repeat (destruct Hy as [<- | Hy];
                     [first [intros _; reflexivity | intros H; discriminate H] |]);
             destruct Hy |]).
    destruct Hx.
  - exists vs. split; assumption.
Defined.

(** The labels come out in numeric order whatever the order of the keys of
    [counts] (the array indices first), both zeros are counted under one
    label, and a percentage is rounded from the binary64 product: 3 of 2000
    is shown as 0.1, the product being just under 0.15. *)
Example frequency_table_sample :
  LegacyPage.classification sample_String sample_Number
    (JArr [JObj [("classification", JArr (map JNum sample_numbers));
                 ("clusters", JArr [])]])
  = Some (LegacyPage.buildCounts sample_String sample_Number sample_numbers) /\
  LegacyPage.rows (fun _ => "0")
    (LegacyPage.buildCounts sample_String sample_Number sample_numbers)
  = [("-1.25", 1%Z, "14.3"); ("0", 2%Z, "28.6"); ("0.5", 1%Z, "14.3");
     ("2", 2%Z, "28.6"); ("10", 1%Z, "14.3")] /\
  map fst (own_entries (LegacyPage.counts
             (LegacyPage.buildCounts sample_String sample_Number sample_numbers)))
  = ["0"; "2"; "10"; "-1.25"; "0.5"] /\
  LegacyPage.percentage (fun _ => "0") 1 8 = "12.5" /\
  LegacyPage.percentage (fun _ => "0") 1 400 = "0.3" /\
  LegacyPage.percentage (fun _ => "0") 3 2000 = "0.1".
Proof. repeat split; vm_compute; reflexivity. Qed.

(** *** The rich page *)

(** Whether a range counts a value: it does when its test gives [true]. *)
Definition b2n (r : result bool) : nat :=
  match r with
  | Ok true => 1%nat
  | _ => 0%nat
  end.

(** The count an entry of [confidenceRanges] holds. *)
Definition range (label : string) (ranges : list (string * nat)) : nat :=
  match lookup label ranges with
  | Some n => n
  | None => 0%nat
  end.


(** A value that is no object: what a conversion gives. *)
Definition primitive (v : value) : bool :=
  match v with
  | JArr _ | JObj _ | JError _ _ => false
  | _ => true
  end.

Section Rich.

Variable NumberToString : float -> string.
Variable StringToNumber : string -> float.

Local Notation "'high'" := (RichPage.high NumberToString StringToNumber).
Local Notation "'medium'" := (RichPage.medium NumberToString StringToNumber).
Local Notation "'low'" := (RichPage.low NumberToString StringToNumber).
Local Notation "'veryLow'" := (RichPage.veryLow NumberToString StringToNumber).
Local Notation "'confidenceRanges'" := (RichPage.confidenceRanges NumberToString StringToNumber).
Local Notation "'avgConfidence'" := (RichPage.avgConfidence NumberToString StringToNumber).
Local Notation "'derive'" := (RichPage.derive NumberToString StringToNumber).
Local Notation "'number'" := (ToNumber NumberToString StringToNumber).

Lemma confidences_length preview : forall cs,
  RichPage.confidences preview = Ok cs -> List.length cs = List.length preview.
Proof.
  induction preview as [| p rest IH]; intros cs; simpl.
  - now intros [= <-].
  - destruct (member p "confidence"); [| discriminate].
    destruct (RichPage.confidences rest) as [cs' |]; [| discriminate].
    intros [= <-]. simpl. now rewrite (IH cs').
Qed.

Lemma confidences_nth preview : forall cs i p,
  RichPage.confidences preview = Ok cs ->
  nth_error preview i = Some p ->
  nth_error cs i = Some (coalesce (prop p "confidence") (JNum 0)).
Proof.
  induction preview as [| q rest IH]; intros cs i p; simpl.
  - destruct i; discriminate.
  - unfold member. destruct (nullish q) eqn:Hq; [discriminate |].
    destruct (RichPage.confidences rest) as [cs' |]; [| discriminate].
    intros [= <-]. destruct i as [| i]; simpl.
    + now intros [= <-].
    + now apply IH.
Qed.

(** The four tests on a value that converts to the number [x], and on one
    whose conversion throws. *)
Lemma tests_of_number (c : value) (x : float) :
  number c = Ok x ->
  high c = Ok (0.8 <=? x)%float /\
  medium c = Ok ((0.6 <=? x) && (x <? 0.8))%float /\
  low c = Ok ((0.4 <=? x) && (x <? 0.6))%float /\
  veryLow c = Ok (x <? 0.4)%float.
Proof.
  intros Hx. unfold RichPage.high, RichPage.medium, RichPage.low, RichPage.veryLow, ge, lt.
  rewrite Hx. cbn [and_then].
  destruct (0.6 <=? x)%float, (0.4 <=? x)%float; repeat split.
Qed.

Lemma tests_of_failure (c e : value) :
  number c = Throw e ->
  high c = Throw e /\ medium c = Throw e /\ low c = Throw e /\ veryLow c = Throw e.
Proof.
  intros Hx. unfold RichPage.high, RichPage.medium, RichPage.low, RichPage.veryLow, ge, lt.
  rewrite Hx. repeat split.
Qed.

(** Every number but [NaN] falls in exactly one range, the four tests
    being ordered as the thresholds are. *)
Lemma one_range_of (x : float) :
  (x <=? x)%float = true ->
  (b2n (Ok (0.8 <=? x)%float) + b2n (Ok ((0.6 <=? x) && (x <? 0.8))%float)
   + b2n (Ok ((0.4 <=? x) && (x <? 0.6))%float) + b2n (Ok (x <? 0.4)%float) = 1)%nat.
Proof.
  intros Hx.
  rewrite !ltb_negb_leb by (assumption || reflexivity).
  pose proof (ge_08_06 x) as H86. pose proof (ge_06_04 x) as H64.
  destruct (0.8 <=? x)%float, (0.6 <=? x)%float, (0.4 <=? x)%float; simpl;
    try reflexivity; try (discriminate (H86 eq_refl)); discriminate (H64 eq_refl).
Qed.





Lemma sum_of_numbers (xs : list float) : forall a,
  RichPage.reduce NumberToString StringToNumber (map JNum xs) (JNum a)
  = Ok (JNum (fold_left PrimFloat.add xs a)).
Proof.
  induction xs as [| x xs IH]; intros a; [reflexivity |].
  cbn [map RichPage.reduce fold_left]. apply IH.
Qed.

Lemma mean_of_numbers (xs : list float) :
  xs <> [] ->
  avgConfidence (map JNum xs)
  = Ok (fold_left PrimFloat.add xs 0 / num_of_Z (Z.of_nat (List.length xs)))%float.
Proof.
  intros Hne. unfold RichPage.avgConfidence.
  destruct xs as [| x xs]; [congruence |].
  cbn [map]. rewrite <- (map_cons JNum x xs), sum_of_numbers, length_map. reflexivity.
Qed.


(** C10.  A preview entry whose [confidence] is absent or [null] gives the
    value 0 at its place in [confidenceValues]: it is not skipped, so it is
    counted by the Very Low range and by no other, and the mean divides the
    sum, to which it adds 0, by the length of the whole preview.  The mean of
    an empty preview is 0.  So [{confidence: 0.8}, {}, {confidence: null}]
    has Very Low 2 and mean 0.8 / 3. *)
Theorem missing_confidence_counts_as_zero (result : value) (cs : list value) :
  RichPage.confidenceValues result = Ok cs ->
  List.length cs = List.length (RichPage.predictionsPreview result) /\
  (forall i p,
     nth_error (RichPage.predictionsPreview result) i = Some p ->
     nullish (prop p "confidence") = true ->
     nth_error cs i = Some (JNum 0)) /\
  (veryLow (JNum 0) = Ok true /\ high (JNum 0) = Ok false /\
   medium (JNum 0) = Ok false /\ low (JNum 0) = Ok false) /\
  (forall xs, cs = map JNum xs -> xs <> [] ->
     avgConfidence cs
     = Ok (fold_left PrimFloat.add xs 0
           / num_of_Z (Z.of_nat (List.length (RichPage.predictionsPreview result))))%float) /\
  (RichPage.predictionsPreview result = [] -> avgConfidence cs = Ok 0%float) /\
  (let preview := [JObj [("confidence", JNum 0.8)]; JObj []; JObj [("confidence", JNull)]] in
   RichPage.confidences preview = Ok [JNum 0.8; JNum 0; JNum 0] /\
   (exists ranges,
      confidenceRanges [JNum 0.8; JNum 0; JNum 0] = Ok ranges /\
      range "Very Low (0-0.4)" ranges = 2%nat) /\
   avgConfidence [JNum 0.8; JNum 0; JNum 0] = Ok (0.8 / 3)%float).
Proof.
  intros Hvalues. unfold RichPage.confidenceValues in Hvalues.
  pose proof (confidences_length _ _ Hvalues) as Hlen.
  repeat split.
  - exact Hlen.
  - intros i p Hp Hnull. rewrite (confidences_nth _ _ _ _ Hvalues Hp).
    unfold coalesce. now rewrite Hnull.
  - intros xs -> Hne. rewrite (mean_of_numbers xs Hne), <- Hlen, length_map.
    reflexivity.
  - intros Hempty. rewrite Hempty in Hlen. now destruct cs.
  - eexists. split; reflexivity.
Qed.

(** C9 fails on the rich page: an entry of the preview that is [null] makes
    the derivation throw, at the read of its [confidence]. *)
Theorem null_preview_entry_throws :
  derive (JObj [("summary", JObj [("total_windows", JNum 1)]);
                ("predictions_preview", JArr [JNull])])
  = Throw (JError "TypeError" "Cannot read properties of null (reading 'confidence')").
Proof. reflexivity. Qed.

(** *** When the derivation gives a view *)

(** A conversion to a string throws one thing only: the [TypeError] of an
    object that cannot be converted. *)
Lemma toString_throws :
  forall (v t : value), toString NumberToString v = Throw t -> t = not_a_primitive.
Proof.
  fix IH 1. intros [| | b | n | s | items | props | name m] t; cbn [toString];
    try discriminate.
  - assert (Hpieces : forall r,
      (fix pieces (xs : list value) : result (list string) :=
         match xs with
         | [] => Ok []
         | x :: rest =>
             match (if nullish x then Ok ""%string else toString NumberToString x) with
             | Throw e => Throw e
             | Ok piece =>
                 match pieces rest with
                 | Throw e => Throw e
                 | Ok others => Ok (piece :: others)
                 end
             end
         end) items = Throw r -> r = not_a_primitive).
    { revert items. fix IHl 1. intros [| x rest] r; [discriminate |].
      destruct (nullish x).
      - destruct ((fix pieces (xs : list value) : result (list string) := _) rest) eqn:Hrest;
          [discriminate |].
        intros [= <-]. exact (IHl rest _ Hrest).
      - destruct (toString NumberToString x) eqn:Hx.
        + destruct ((fix pieces (xs : list value) : result (list string) := _) rest) eqn:Hrest;
            [discriminate |].
          intros [= <-]. exact (IHl rest _ Hrest).
        + intros [= <-]. exact (IH x _ Hx). }
    destruct ((fix pieces (xs : list value) : result (list string) := _) items) eqn:Hitems;
      [discriminate |].
    cbn [and_then]. intros [= <-]. exact (Hpieces _ eq_refl).
  - destruct (lookup "toString" props); [| discriminate]. now intros [= <-].
Qed.

Lemma toString_primitive (p : value) :
  primitive p = true -> exists s, toString NumberToString p = Ok s.
Proof. destruct p; try discriminate; intros _; eexists; reflexivity. Qed.

Lemma ToPrimitive_primitive (p : value) :
  primitive p = true -> ToPrimitive NumberToString p = Ok p.
Proof. now destruct p. Qed.

Lemma ToPrimitive_gives_primitive (v p : value) :
  ToPrimitive NumberToString v = Ok p -> primitive p = true.
Proof.
  unfold ToPrimitive.
  destruct v; try (intros [= <-]; reflexivity);
    destruct (toString NumberToString _); try discriminate; now intros [= <-].
Qed.

Lemma number_of_conversion (v p : value) :
  ToPrimitive NumberToString v = Ok p -> number v = Ok (number_of_primitive StringToNumber p).
Proof. intros H. unfold ToNumber. now rewrite H. Qed.

Lemma number_of_failure (v e : value) :
  ToPrimitive NumberToString v = Throw e -> number v = Throw e.
Proof. intros H. unfold ToNumber. now rewrite H. Qed.

(** [a + b] for an accumulator that is no object. *)
Lemma add_converts (a b pb : value) :
  primitive a = true -> ToPrimitive NumberToString b = Ok pb ->
  exists s, add NumberToString StringToNumber a b = Ok s /\ primitive s = true.
Proof.
  intros Ha Hb. unfold add. rewrite (ToPrimitive_primitive a Ha), Hb. cbn [and_then].
  pose proof (ToPrimitive_gives_primitive b pb Hb) as Hpb.
  destruct (toString_primitive a Ha) as [sa Hsa], (toString_primitive pb Hpb) as [sb Hsb].
  rewrite Hsa, Hsb.
  destruct a; try discriminate Ha; destruct pb; try discriminate Hpb;
    cbn [and_then]; eexists; split; reflexivity.
Qed.

Lemma add_throws (a b e : value) :
  primitive a = true -> ToPrimitive NumberToString b = Throw e ->
  add NumberToString StringToNumber a b = Throw e.
Proof.
  intros Ha Hb. unfold add. now rewrite (ToPrimitive_primitive a Ha), Hb.
Qed.

(** Whether the conversion of [v] to a primitive goes through. *)
Definition converts (v : value) : bool :=
  match ToPrimitive NumberToString v with
  | Ok _ => true
  | Throw _ => false
  end.

Lemma reduce_converts (cs : list value) : forall a,
  primitive a = true ->
  (forall c, In c cs -> converts c = true) ->
  exists s,
    RichPage.reduce NumberToString StringToNumber cs a = Ok s /\ primitive s = true.
Proof.
  induction cs as [| c cs IH]; intros a Ha Hcs; [now exists a |].
  cbn [RichPage.reduce].
  pose proof (Hcs c (or_introl eq_refl)) as Hc. unfold converts in Hc.
  destruct (ToPrimitive NumberToString c) as [pc |] eqn:Hpc; [| discriminate].
  destruct (add_converts a c pc Ha Hpc) as (s & -> & Hs). cbn [and_then].
  apply IH; [exact Hs |]. intros x Hx. apply Hcs. now right.
Qed.

Lemma reduce_throws (before after : list value) (c e : value) : forall a,
  primitive a = true ->
  (forall x, In x before -> converts x = true) ->
  ToPrimitive NumberToString c = Throw e ->
  RichPage.reduce NumberToString StringToNumber (before ++ c :: after) a = Throw e.
Proof.
  induction before as [| x before IH]; intros a Ha Hbefore Hc; cbn [app RichPage.reduce].
  - now rewrite (add_throws a c e Ha Hc).
  - pose proof (Hbefore x (or_introl eq_refl)) as Hx. unfold converts in Hx.
    destruct (ToPrimitive NumberToString x) as [px |] eqn:Hpx; [| discriminate].
    destruct (add_converts a x px Ha Hpx) as (s & -> & Hs). cbn [and_then].
    apply IH; [exact Hs | | exact Hc]. intros y Hy. apply Hbefore. now right.
Qed.

Lemma count_converts (test : value -> result bool) (cs : list value) :
  (forall c, In c cs -> exists kept, test c = Ok kept) ->
  exists n, RichPage.count test cs = Ok n.
Proof.
  induction cs as [| c cs IH]; intros Hcs; [now exists 0%nat |].
  cbn [RichPage.count].
  destruct (Hcs c (or_introl eq_refl)) as [kept ->].
  destruct IH as [n ->]; [intros x Hx; apply Hcs; now right |].
  cbn [and_then]. eexists; reflexivity.
Qed.

Lemma ranges_convert (cs : list value) :
  (forall c, In c cs -> converts c = true) ->
  exists ranges, confidenceRanges cs = Ok ranges.
Proof.
  intros Hcs.
  assert (Htests : forall c, In c cs ->
            (exists h, high c = Ok h) /\ (exists m, medium c = Ok m) /\
            (exists l, low c = Ok l) /\ (exists v, veryLow c = Ok v)).
  { intros c Hc. specialize (Hcs c Hc). unfold converts in Hcs.
    destruct (ToPrimitive NumberToString c) as [p |] eqn:Hp; [| discriminate].
    destruct (tests_of_number c _ (number_of_conversion c p Hp)) as (-> & -> & -> & ->).
    repeat split; eexists; reflexivity. }
  unfold RichPage.confidenceRanges.
  destruct (count_converts high cs) as [n1 ->]; [intros c Hc; apply (Htests c Hc) |].
  destruct (count_converts medium cs) as [n2 ->]; [intros c Hc; apply (Htests c Hc) |].
  destruct (count_converts low cs) as [n3 ->]; [intros c Hc; apply (Htests c Hc) |].
  destruct (count_converts veryLow cs) as [n4 ->]; [intros c Hc; apply (Htests c Hc) |].
  cbn [and_then]. eexists; reflexivity.
Qed.

Lemma mean_converts (cs : list value) :
  (forall c, In c cs -> converts c = true) ->
  exists avg, avgConfidence cs = Ok avg.
Proof.
  intros Hcs. unfold RichPage.avgConfidence.
  destruct cs as [| c cs']; [now exists 0%float |].
  destruct (reduce_converts (c :: cs') (JNum 0) eq_refl Hcs) as (s & -> & Hs).
  cbn [and_then]. unfold div.
  rewrite (number_of_conversion s s (ToPrimitive_primitive s Hs)). cbn [and_then].
  eexists; reflexivity.
Qed.

(** Short of a missing entry the rich derivation gives a view whenever the
    confidences convert: whatever the result, as soon as no entry of the
    preview is [undefined] or [null] and no confidence is an object that
    cannot be converted. *)
Lemma derive_total (result : value) :
  (forall p, In p (RichPage.predictionsPreview result) ->
     nullish p = false /\ converts (prop p "confidence") = true) ->
  exists view, derive result = Ok view.
Proof.
  intros Hp. unfold RichPage.derive, RichPage.confidenceValues.
  assert (Hcs : exists cs,
            RichPage.confidences (RichPage.predictionsPreview result) = Ok cs /\
            forall c, In c cs -> converts c = true).
  { induction (RichPage.predictionsPreview result) as [| p rest IH].
    - exists []. split; [reflexivity | intros ? []].
    - destruct IH as (cs & Hcs & Hall); [intros q Hq; apply Hp; now right |].
      destruct (Hp p (or_introl eq_refl)) as [Hnull Hconv].
      cbn [RichPage.confidences]. unfold member. rewrite Hnull, Hcs.
      eexists. split; [reflexivity |].
      intros c [<- | Hc]; [| now apply Hall].
      unfold coalesce. now destruct (nullish (prop p "confidence")). }
  destruct Hcs as (cs & -> & Hall). cbn [and_then].
  destruct (mean_converts cs Hall) as [avg ->].
  destruct (ranges_convert cs Hall) as [ranges ->].
  cbn [and_then]. eexists; reflexivity.
Qed.

(** The defaults of an absent field, on any result whose preview is not an
    array: no summary figures, no clusters, a mean of 0 and empty ranges. *)
Lemma derive_defaults (result : value) :
  nullish (prop (RichPage.output result) "summary") = true ->
  nullish (prop (RichPage.output result) "cluster_profiles") = true ->
  isArray (prop (RichPage.output result) "predictions_preview") = false ->
  nullish (prop (RichPage.output result) "recommendation") = true ->
  derive result
  = Ok {| RichPage.v_totalWindows := JNum 0;
          RichPage.v_dominantWorkload := JStr "Unknown";
          RichPage.v_classLabels := [];
          RichPage.v_classValues := [];
          RichPage.v_clusterLabels := [];
          RichPage.v_clusterValues := [];
          RichPage.v_recommendation := JObj [];
          RichPage.v_predictionsPreview := [];
          RichPage.v_avgConfidence := 0;
          RichPage.v_confidenceRanges :=
            [("High (0.8-1.0)", 0%nat); ("Medium (0.6-0.8)", 0%nat);
             ("Low (0.4-0.6)", 0%nat); ("Very Low (0-0.4)", 0%nat)] |}.
Proof.
  intros Hs Hc Hp Hr.
  unfold RichPage.derive, RichPage.confidenceValues, RichPage.totalWindows,
    RichPage.dominantWorkload, RichPage.classLabels, RichPage.classValues,
    RichPage.clusterLabels, RichPage.clusterValues, RichPage.clusterLabels,
    RichPage.recommendation, RichPage.classDistribution, RichPage.summary,
    RichPage.clusterProfiles, RichPage.predictionsPreview, coalesce.
  rewrite Hs, Hc, Hr.
  destruct (prop (RichPage.output result) "predictions_preview"); try discriminate;
    reflexivity.
Qed.

End Rich.



Lemma missing_confidence_counts_as_zero_witness :
  let result := JObj [("predictions_preview",
                       JArr [JObj [("confidence", JNum 0.8)]; JObj [("window_id", JNum 7)]])] in
  nth_error [JNum 0.8; JNum 0] 1 = Some (JNum 0) /\
  RichPage.avgConfidence (fun _ => "0") (fun _ => PrimFloat.nan) [JNum 0.8; JNum 0]
  = Ok (0.8 / 2)%float.
Proof.
  intros result.
  destruct (missing_confidence_counts_as_zero (fun _ => "0") (fun _ => PrimFloat.nan)
              result [JNum 0.8; JNum 0] eq_refl)
    as (_ & Hzero & _ & Hmean & _).
  split.
  - apply (Hzero 1%nat (JObj [("window_id", JNum 7)])); reflexivity.
  - rewrite (Hmean [0.8; 0]%float); [reflexivity | reflexivity | discriminate].
Defined.

(** *** Which shape a result is read as *)

(** The specification's one detection step, in its words: element 0 of an
    array, then the rich shape if that has a [summary] key, the flat shape
    otherwise. *)
Inductive shape : Type :=
| RichShape (output : value)
| LegacyShape (output : value).

Definition detect_as_specified (result : value) : shape :=
  let output := match result with
                | JArr items => first items
                | _ => result
                end in
  if has_member "summary" output then RichShape output else LegacyShape output.

(** What following that step would mean for the two pages: the rich page
    reads the summary of the detected output, the flat page the
    [classification] and [clusters] arrays of it. *)
Definition pages_follow_detection : Prop :=
  forall result,
    match detect_as_specified result with
    | RichShape output =>
        RichPage.summary result = coalesce (prop output "summary") (JObj [])
    | LegacyShape output =>
        LegacyPage.classificationData result = LegacyPage.array_field output "classification" /\
        LegacyPage.clusterData result = LegacyPage.array_field output "clusters"
    end.

Definition rich_result : value :=
  JObj [("summary", JObj [("total_windows", JNum 3);
                          ("dominant_workload_type", JStr "CPU-bound")])].

Definition wrapped_rich_result : value := JArr [rich_result].

(** C8 as the specification words it fails: the rich page does not take
    element 0 of an array, so a rich result wrapped in an array is read as
    an object without a summary. *)
Lemma rich_page_keeps_arrays :
  detect_as_specified wrapped_rich_result = RichShape rich_result /\
  RichPage.totalWindows rich_result = JNum 3 /\
  RichPage.totalWindows wrapped_rich_result = JNum 0 /\
  ~ pages_follow_detection.
Proof.
  repeat (split; [reflexivity |]).
  intros H. specialize (H wrapped_rich_result). simpl in H. discriminate H.
Qed.

(** What a page reads of a field: the property when the object has one
    that is neither [undefined] nor [null], [{}] otherwise; and the array
    the object holds under a key, the empty one otherwise. *)
Definition field_or_empty (props : list (string * value)) (k : string) : value :=
  match lookup k props with
  | Some v => if nullish v then JObj [] else v
  | None => JObj []
  end.

Definition array_or_empty (props : list (string * value)) (k : string) : list value :=
  match lookup k props with
  | Some (JArr xs) => xs
  | _ => []
  end.

(** C8, as the pages have it.  The flat page takes element 0 of an array
    (the result itself otherwise), [{}] when that is [undefined] or [null],
    and reads the [classification] and [clusters] arrays of it, an empty
    array for one that is no array, whether or not there is a [summary].
    The rich page takes the result itself, [{}] when it is [undefined] or
    [null], and reads [summary], [cluster_profiles], [predictions_preview]
    and [recommendation] from it, each with its default, so of an array it
    reads nothing but defaults.  Neither looks for a [summary] key to
    choose. *)
Theorem shapes_are_read_per_page :
  (forall props rest,
     LegacyPage.classificationData (JArr (JObj props :: rest))
     = array_or_empty props "classification" /\
     LegacyPage.clusterData (JArr (JObj props :: rest))
     = array_or_empty props "clusters") /\
  (forall props,
     LegacyPage.classificationData (JObj props) = array_or_empty props "classification" /\
     LegacyPage.clusterData (JObj props) = array_or_empty props "clusters") /\
  (forall result,
     (forall props, result <> JObj props) ->
     (forall x rest props, result = JArr (x :: rest) -> x <> JObj props) ->
     LegacyPage.classificationData result = [] /\ LegacyPage.clusterData result = []) /\
  (forall props s,
     lookup "summary" props = None ->
     LegacyPage.classificationData (JObj (props ++ [("summary", s)]))
     = LegacyPage.classificationData (JObj props) /\
     LegacyPage.clusterData (JObj (props ++ [("summary", s)]))
     = LegacyPage.clusterData (JObj props)) /\
  (forall props,
     RichPage.summary (JObj props) = field_or_empty props "summary" /\
     RichPage.clusterProfiles (JObj props) = field_or_empty props "cluster_profiles" /\
     RichPage.predictionsPreview (JObj props) = array_or_empty props "predictions_preview" /\
     RichPage.recommendation (JObj props) = field_or_empty props "recommendation") /\
  (forall result,
     (forall props, result <> JObj props) ->
     RichPage.summary result = JObj [] /\
     RichPage.clusterProfiles result = JObj [] /\
     RichPage.predictionsPreview result = [] /\
     RichPage.recommendation result = JObj []).
Proof.
  assert (Happ : forall k props s, k <> "summary" ->
            @lookup value k (props ++ [("summary", s)]) = lookup k props).
  { intros k props s Hk. induction props as [| [k' v] props IH]; cbn [lookup app].
    - apply String.eqb_neq in Hk. rewrite String.eqb_sym, Hk. reflexivity.
    - now rewrite IH. }
  assert (Hfield : forall props k,
            coalesce (prop (JObj props) k) (JObj []) = field_or_empty props k).
  { intros props k. unfold field_or_empty, coalesce, prop.
    now destruct (lookup k props). }
  assert (Harray : forall props k,
            LegacyPage.array_field (JObj props) k = array_or_empty props k).
  { intros props k.
    unfold LegacyPage.array_field, array_or_empty, opt_member, prop; cbn [nullish].
    destruct (lookup k props) as [[] |]; reflexivity. }
  split; [| split; [| split; [| split; [| split]]]].
  - intros props rest.
    unfold LegacyPage.classificationData, LegacyPage.clusterData, LegacyPage.output, coalesce.
    cbn [first nullish]. split; apply Harray.
  - intros props. split; apply Harray.
  - intros result Hobject Hfirst.
    unfold LegacyPage.classificationData, LegacyPage.clusterData, LegacyPage.output.
    destruct result as [| | | | | [| x rest] | props |]; try (split; reflexivity).
    + unfold coalesce. cbn [first].
      destruct x as [| | | | | | props |]; try (split; reflexivity).
      elim (Hfirst (JObj props) rest props); reflexivity.
    + elim (Hobject props). reflexivity.
  - intros props s Hsummary.
    unfold LegacyPage.classificationData, LegacyPage.clusterData, LegacyPage.output,
      coalesce; cbn [nullish].
    rewrite !Harray. unfold array_or_empty. now rewrite !Happ by discriminate.
  - intros props.
    unfold RichPage.summary, RichPage.clusterProfiles, RichPage.recommendation,
      RichPage.predictionsPreview, RichPage.output.
    change (coalesce (JObj props) (JObj [])) with (JObj props).
    rewrite !Hfield. repeat split.
    unfold array_or_empty, prop.
    destruct (lookup "predictions_preview" props) as [[] |]; reflexivity.
  - intros result Hobject.
    destruct result as [| | | | | items | props |]; try (repeat split; reflexivity).
    elim (Hobject props). reflexivity.
Qed.

End PageSpec.

(** ** More on the gateway: the anatomy of a run *)
Module GatewayMore.
Import JS Gateway GatewaySpec.

Definition is_sleep (e : event) : bool :=
  match e with
  | Sleep _ => true
  | _ => false
  end.

Definition sleeps (evs : list event) : list event := filter is_sleep evs.

(** The time spent in the backoffs, in milliseconds. *)
Definition waited (evs : list event) : Z :=
  fold_right (fun e acc => match e with Sleep ms => (ms + acc)%Z | _ => acc end) 0%Z evs.

(** Parsing the form, reading the file, connecting: what comes before the
    first prediction call. *)
Definition is_opening (e : event) : bool :=
  match e with
  | ParseForm | ReadFile _ | Connect _ => true
  | _ => false
  end.

(** The same world with another form. *)
Definition with_parsed (env : Env) (p : result value) : Env :=
  {| method := method env; parsed := p; readFile := readFile env;
     has_Blob := has_Blob env; connected := connected env; upstream := upstream env |}.

(** The statuses the handler sends. *)
Definition statuses : list Z := [200; 202; 400; 405; 500]%Z.

(** The answers of the handler other than a forwarded result: each has a
    body of the handler's own making. *)
Inductive own_answer : response -> Prop :=
| still_queued_answer : own_answer {| status := 202; body := queued_body |}
| no_file_answer :
    own_answer {| status := 400; body := error_body (JStr "No file uploaded") |}
| no_path_answer :
    own_answer {| status := 400; body := error_body (JStr "Uploaded file path not found") |}
| bad_method_answer :
    own_answer {| status := 405; body := error_body (JStr "Method not allowed") |}
| failure_answer (message : value) :
    nullish message = false ->
    own_answer {| status := 500; body := error_body message |}.

Lemma polls_calls file j : predict_calls (polls file j) = j.
Proof.
  induction j as [| j IH]; [reflexivity |].
  unfold polls in *. cbn [repeat List.concat]. rewrite predict_calls_app, IH. reflexivity.
Qed.

Lemma polls_sleeps file j : sleeps (polls file j) = repeat (Sleep 2000) j.
Proof.
  induction j as [| j IH]; [reflexivity |].
  unfold polls, sleeps in *. cbn [repeat List.concat]. rewrite filter_app, IH. reflexivity.
Qed.

Lemma polls_unlinks file j : unlinks (polls file j) = [].
Proof.
  induction j as [| j IH]; [reflexivity |].
  unfold polls in *. cbn [repeat List.concat]. rewrite unlinks_app, IH. reflexivity.
Qed.

Section Anatomy.

Variable NumberToString : float -> string.
Variable JSON_stringify : value -> result string.
Variable env : Env.

(** The loop, entered with an attempt to make, ends on a call: [j] queued
    answers with their backoffs, then one more call, which is answered 200
    or 202 or throws.  It never runs out. *)
Lemma attempts_shape remaining : forall attempt file s,
  (attempt + remaining = S maxAttempts)%nat ->
  (1 <= remaining)%nat ->
  exists j c,
    (j < remaining)%nat /\
    attempts env remaining attempt file s
    = (c, push s (polls file j ++ [Predict "/predict" file])) /\
    ((exists r, c = Return r /\
        (status r = 200%Z \/ r = {| status := 202; body := queued_body |})) \/
     (exists e, c = Raise e /\ queued_error e = false)).
Proof.
  induction remaining as [| remaining IH]; intros attempt file s Hsum Hpos; [lia |].
  cbn [attempts]. cbv beta delta [bind].
  destruct (queued (upstream env attempt)) eqn:Hq.
  - destruct (Nat.eq_dec attempt maxAttempts) as [-> | Hne].
    + rewrite attempt_once_exhausted by assumption.
      exists 0%nat. eexists. split; [lia |]. split; [reflexivity |].
      left. eexists. split; [reflexivity |]. now right.
    + rewrite attempt_once_queued by assumption.
      destruct (IH (S attempt) file (push s [Predict "/predict" file; Sleep 2000]))
        as (j & c & Hj & Heq & Hc); [lia | unfold maxAttempts in *; lia |].
      exists (S j), c. split; [lia |]. split; [| exact Hc].
      rewrite Heq, push_push. reflexivity.
  - destruct (upstream env attempt) as [r | e] eqn:Hup; simpl in Hq.
    + rewrite (attempt_once_result env attempt file s r Hup Hq).
      exists 0%nat. eexists. split; [lia |]. split; [reflexivity |].
      left. eexists. split; [reflexivity |]. now left.
    + rewrite (attempt_once_error env attempt file s e Hup Hq).
      exists 0%nat. eexists. split; [lia |]. split; [reflexivity |].
      right. eexists. split; [reflexivity | assumption].
Qed.

Definition st (path : value) (evs : list event) : state :=
  {| uploadedPath := path; trace := evs |}.

(** The [try] block, case by case. *)
Lemma try_block_cases :
  try_block env init
  = match parsed env with
    | Throw e => (Raise e, st JUndefined [ParseForm])
    | Ok files =>
        if negb (truthy (chosen files))
        then (Return {| status := 400; body := error_body (JStr "No file uploaded") |},
              st JUndefined [ParseForm])
        else
          match path_of (single (chosen files)) with
          | Throw e => (Raise e, st JUndefined [ParseForm])
          | Ok path =>
              if negb (truthy path)
              then (Return {| status := 400;
                              body := error_body (JStr "Uploaded file path not found") |},
                    st path [ParseForm])
              else
                match readFile env path with
                | Throw e => (Raise e, st path [ParseForm; ReadFile path])
                | Ok bytes =>
                    match connected env with
                    | Throw e => (Raise e, st path (opening path))
                    | Ok _ =>
                        (attempts env maxAttempts 1 (filePayload_of env bytes) ;;;
                         respond 202 queued_body) (st path (opening path))
                    end
                end
          end
    end.
Proof.
  unfold try_block, await, bind, emit, lift, set_uploadedPath, respond, init, st, opening,
    filePayload_of.
  cbn [trace uploadedPath app].
  destruct (parsed env) as [files | e]; [| reflexivity].
  destruct (truthy (chosen files)); [| reflexivity]. cbn [negb].
  destruct (path_of (single (chosen files))) as [path | e]; [| reflexivity].
  destruct (truthy path); [| reflexivity]. cbn [negb trace uploadedPath app].
  destruct (readFile env path) as [bytes | e]; [| reflexivity].
  cbn [trace uploadedPath app].
  destruct (connected env) as [[] | e]; reflexivity.
Qed.

(** How the [catch] block completes: with an answer, or with what building
    the message throws. *)
Definition caught (e : value) : completion unit :=
  if queued_error e then Return {| status := 202; body := queued_body |}
  else
    match error_message NumberToString JSON_stringify e with
    | Ok message => Return {| status := 500; body := error_body message |}
    | Throw t => Raise t
    end.

Lemma catch_block_eq e s :
  catch_block NumberToString JSON_stringify e s = (caught e, push s [LogError e]).
Proof.
  unfold catch_block, caught, bind, emit, respond, lift, push.
  destruct (queued_error e); [reflexivity |].
  now destruct (error_message NumberToString JSON_stringify e).
Qed.

(** The message of a failure, when there is one, is neither [undefined] nor
    [null]. *)
Lemma error_message_given e message :
  error_message NumberToString JSON_stringify e = Ok message -> nullish message = false.
Proof.
  unfold error_message.
  destruct (truthy e && typeof_object e && (has_member "message" e || has_member "type" e)).
  - destruct (nullish (prop e "message")) eqn:Hn; [| now intros [= <-]].
    destruct (JSON_stringify e); [now intros [= <-] | discriminate].
  - destruct (if truthy e then own_toString NumberToString e else Ok e) as [said |];
      [| discriminate].
    cbn [and_then]. intros [= <-].
    destruct (truthy said) eqn:Hsaid; [now destruct said | reflexivity].
Qed.

(** A caught [Error] is answered with its message. *)
Lemma caught_error name message :
  caught (JError name message)
  = Return {| status := 500; body := error_body (JStr message) |}.
Proof. reflexivity. Qed.

(** The completion of the handler: what the [try] block returned, or how
    the [catch] block completed. *)
Definition outcome : completion unit := fst (run NumberToString JSON_stringify env).

(** A run that does not get to the loop: the [try] block returns or throws
    in state [s]. *)
Lemma run_early (c : completion unit) (s : state) :
  method env = "POST" ->
  try_block env init = (c, s) ->
  c <> Normal tt ->
  outcome = match c with Raise e => caught e | _ => c end /\
  effects NumberToString JSON_stringify env
  = trace s ++ match c with Raise e => [LogError e] | _ => [] end
    ++ (if truthy (uploadedPath s) then [Unlink (uploadedPath s)] else []).
Proof.
  intros Hm Ht Hc. unfold outcome, effects.
  rewrite (run_of_try NumberToString JSON_stringify env c s Hm Ht).
  destruct c as [[] | r | e]; [congruence | |].
  - unfold finalize, push.
    destruct (truthy (uploadedPath s)); cbn [fst snd trace];
      (split; [reflexivity |]); now rewrite ?app_nil_r.
  - rewrite catch_block_eq. unfold finalize, push. cbn [uploadedPath].
    destruct (truthy (uploadedPath s)); cbn [fst snd trace];
      (split; [reflexivity |]);
      now rewrite <- ?app_assoc, ?app_nil_r.
Qed.

Lemma sent_of_outcome :
  sent NumberToString JSON_stringify env
  = match outcome with
    | Return r => Some r
    | _ => None
    end.
Proof. reflexivity. Qed.

(** How a run ends: with 200, with an answer of the handler's own, or, the
    failure logged last having no message that can be built, with what
    building it throws. *)
Definition settled (o : completion unit) (mid : list event) : Prop :=
  (exists r, o = Return r /\ (status r = 200%Z \/ own_answer r)) \/
  (exists e t,
     o = Raise t /\ mid = [LogError e] /\ queued_error e = false /\
     error_message NumberToString JSON_stringify e = Throw t).

Lemma caught_settled e : settled (caught e) [LogError e].
Proof.
  unfold caught. destruct (queued_error e) eqn:Hq.
  - left. eexists. split; [reflexivity |]. right. constructor.
  - destruct (error_message NumberToString JSON_stringify e) as [message | t] eqn:Hmsg.
    + left. eexists. split; [reflexivity |]. right. constructor.
      exact (error_message_given e message Hmsg).
    + right. exists e, t. repeat split; assumption.
Qed.

(** Every run of a POST: how it ends, and a trace made of the opening
    steps, the calls of the loop if it was reached, the logging of a caught
    error if there was one, and the removal of the temporary file if the
    handler learned of one. *)
Lemma run_anatomy :
  method env = "POST" ->
  exists pre loop mid,
    settled outcome mid /\
    effects NumberToString JSON_stringify env
    = pre ++ loop ++ mid
      ++ match temp_path env with Some p => [Unlink p] | None => [] end /\
    forallb is_opening pre = true /\
    (loop = [] \/
     exists p bytes j,
       temp_path env = Some p /\ pre = opening p /\ readFile env p = Ok bytes /\
       (j <= 11)%nat /\
       loop = polls (filePayload_of env bytes) j
              ++ [Predict "/predict" (filePayload_of env bytes)]) /\
    (mid = [] \/ exists e, mid = [LogError e]) /\
    (forall p, temp_path env = Some p -> In (ReadFile p) pre).
Proof.
  intros Hm.
  pose proof try_block_cases as Ht.
  assert (Hreturn : forall r, status r = 200%Z \/ own_answer r ->
                      settled (Return r) []).
  { intros r Hr. left. now exists r. }
  unfold temp_path. rewrite Hm. cbn [String.eqb Ascii.eqb Bool.eqb negb].
  destruct (parsed env) as [files | e].
  2:{ destruct (run_early _ _ Hm Ht) as (-> & Heff); [discriminate |].
      exists [ParseForm], [], [LogError e]. rewrite Heff.
      repeat split; try reflexivity; eauto using caught_settled; try discriminate;
        try (intros p [= <-]; cbn; tauto). }
  destruct (truthy (chosen files)); cbn [negb] in *.
  2:{ destruct (run_early _ _ Hm Ht) as (-> & Heff); [discriminate |].
      exists [ParseForm], [], []. rewrite Heff.
      repeat split; try reflexivity; eauto; try discriminate;
        try (intros p [= <-]; cbn; tauto).
      apply Hreturn. right. constructor. }
  destruct (path_of (single (chosen files))) as [path | e].
  2:{ destruct (run_early _ _ Hm Ht) as (-> & Heff); [discriminate |].
      exists [ParseForm], [], [LogError e]. rewrite Heff.
      repeat split; try reflexivity; eauto using caught_settled; try discriminate;
        try (intros p [= <-]; cbn; tauto). }
  destruct (truthy path) eqn:Hpath; cbn [negb] in *.
  2:{ destruct (run_early _ _ Hm Ht) as (-> & Heff); [discriminate |].
      exists [ParseForm], [], []. rewrite Heff. cbn [st uploadedPath trace]. rewrite Hpath.
      repeat split; try reflexivity; eauto; try discriminate;
        try (intros p [= <-]; cbn; tauto).
      apply Hreturn. right. constructor. }
  destruct (readFile env path) as [bytes | e] eqn:Hread.
  2:{ destruct (run_early _ _ Hm Ht) as (-> & Heff); [discriminate |].
      exists [ParseForm; ReadFile path], [], [LogError e]. rewrite Heff.
      cbn [st uploadedPath trace]. rewrite Hpath.
      repeat split; try reflexivity; eauto using caught_settled; try discriminate;
        try (intros p [= <-]; cbn; tauto). }
  destruct (connected env) as [[] | e].
  2:{ destruct (run_early _ _ Hm Ht) as (-> & Heff); [discriminate |].
      exists (opening path), [], [LogError e]. rewrite Heff.
      cbn [st uploadedPath trace]. rewrite Hpath.
      repeat split; try reflexivity; eauto using caught_settled; try discriminate;
        try (intros p [= <-]; cbn; tauto). }
  destruct (attempts_shape maxAttempts 1 (filePayload_of env bytes) (st path (opening path)))
    as (j & c & Hj & Heq & Hc); [reflexivity | unfold maxAttempts; lia |].
  cbv beta delta [bind] in Ht. rewrite Heq in Ht.
  assert (Ht' : try_block env init
                = (c, push (st path (opening path))
                        (polls (filePayload_of env bytes) j
                         ++ [Predict "/predict" (filePayload_of env bytes)]))).
  { rewrite Ht. destruct Hc as [(r & -> & _) | (e & -> & _)]; reflexivity. }
  destruct (run_early _ _ Hm Ht') as (Hout & Heff).
  { destruct Hc as [(r & -> & _) | (e & -> & _)]; discriminate. }
  exists (opening path),
    (polls (filePayload_of env bytes) j ++ [Predict "/predict" (filePayload_of env bytes)]),
    (match c with Raise e => [LogError e] | _ => [] end).
  rewrite Heff, Hout. cbn [push st uploadedPath trace]. rewrite Hpath.
  split.
  { destruct Hc as [(r & -> & [H200 | ->]) | (e & -> & _)].
    - apply Hreturn. now left.
    - apply Hreturn. right. constructor.
    - apply caught_settled. }
  split; [now rewrite <- !app_assoc |].
  split; [reflexivity |].
  split; [| split; [| intros p [= <-]; cbn; tauto]].
  - right. exists path, bytes, j. unfold maxAttempts in Hj.
    repeat split; try reflexivity; try assumption. lia.
  - destruct c as [[] | r | e]; [now left | now left | right; eauto].
Qed.

(** What is sent is a forwarded result or an answer of the handler's
    own. *)
Lemma answer_cases (r : response) :
  sent NumberToString JSON_stringify env = Some r ->
  status r = 200%Z \/ own_answer r.
Proof.
  intros Hsent. destruct (method env =? "POST") eqn:Hm.
  - apply String.eqb_eq in Hm.
    destruct (run_anatomy Hm) as (pre & loop & mid & Hsettled & _).
    rewrite sent_of_outcome in Hsent.
    destruct Hsettled as [(r' & Hr' & Hcase) | (e & t & Hr' & _)];
      rewrite Hr' in Hsent; [| discriminate].
    now injection Hsent as <-.
  - unfold sent, run, handler in Hsent. rewrite Hm in Hsent. cbn in Hsent.
    injection Hsent as <-. right. constructor.
Qed.

(** X1.  A request ends in one of two ways.  Either it is answered, with
    one of the five statuses 200, 202, 400, 405 and 500.  Or nothing is
    sent: the handler caught and logged a failure that is no queued status,
    building the message of the 500 answer threw, and the handler ends with
    what was thrown there. *)
Theorem requests_end_answered_or_in_the_catch :
  (exists r,
     sent NumberToString JSON_stringify env = Some r /\ In (status r) statuses) \/
  (exists e t,
     sent NumberToString JSON_stringify env = None /\
     outcome = Raise t /\
     In (LogError e) (effects NumberToString JSON_stringify env) /\
     queued_error e = false /\
     error_message NumberToString JSON_stringify e = Throw t).
Proof.
  destruct (method env =? "POST") eqn:Hm.
  - apply String.eqb_eq in Hm.
    destruct (run_anatomy Hm) as (pre & loop & mid & Hsettled & Heff & _).
    rewrite sent_of_outcome.
    destruct Hsettled as [(r & -> & Hstatus) | (e & t & -> & -> & Hq & Hmsg)].
    + left. exists r. split; [reflexivity |].
      unfold statuses. destruct Hstatus as [-> | []]; cbn; tauto.
    + right. exists e, t. repeat split; try assumption.
      rewrite Heff, !in_app_iff. right. right. left. now left.
  - left. eexists. unfold sent, run, handler. rewrite Hm. cbn [negb respond fst].
    split; [reflexivity |]. cbn. tauto.
Qed.

(** X2.  A request that is not a POST is answered 405 and nothing else
    happens: the form is not parsed, no file is read or removed. *)
Theorem other_methods_are_refused :
  method env <> "POST" ->
  sent NumberToString JSON_stringify env
  = Some {| status := 405; body := JObj [("error", JStr "Method not allowed")] |} /\
  effects NumberToString JSON_stringify env = [].
Proof.
  intros Hm. apply String.eqb_neq in Hm.
  unfold sent, effects, run, handler. rewrite Hm. split; reflexivity.
Qed.

(** X3.  An uploaded file whose [filepath], [filePath] and [path] give
    nothing truthy is answered 400 with "Uploaded file path not found";
    nothing is read, called or removed. *)
Theorem file_without_path_is_rejected (files path : value) :
  method env = "POST" ->
  parsed env = Ok files ->
  truthy (chosen files) = true ->
  path_of (single (chosen files)) = Ok path ->
  truthy path = false ->
  sent NumberToString JSON_stringify env
  = Some {| status := 400; body := JObj [("error", JStr "Uploaded file path not found")] |} /\
  effects NumberToString JSON_stringify env = [ParseForm].
Proof.
  intros Hm Hp Hc Hpath Ht.
  pose proof try_block_cases as Hcases.
  rewrite Hp, Hc, Hpath, Ht in Hcases. cbn [negb] in Hcases.
  destruct (run_early _ _ Hm Hcases) as (Hout & Heff); [discriminate |].
  split; [now rewrite sent_of_outcome, Hout |].
  rewrite Heff. cbn [st trace uploadedPath]. now rewrite Ht.
Qed.

(** X4.  An empty list of files under the field, or one whose first entry
    is [undefined] or [null], is not a missing file: the read of [filepath]
    throws, and the answer is 500 with the message of that [TypeError].
    Nothing is read, called or removed. *)
Theorem empty_file_list_is_an_error (files : value) (items : list value) :
  method env = "POST" ->
  parsed env = Ok files ->
  chosen files = JArr items ->
  nullish (first items) = true ->
  sent NumberToString JSON_stringify env
  = Some {| status := 500;
            body := JObj [("error", prop (read_of_nullish (first items) "filepath") "message")] |} /\
  effects NumberToString JSON_stringify env
  = [ParseForm; LogError (read_of_nullish (first items) "filepath")].
Proof.
  intros Hm Hp Hc Hn.
  pose proof try_block_cases as Hcases.
  rewrite Hp, Hc in Hcases. cbn [truthy negb single] in Hcases.
  unfold path_of, member in Hcases. rewrite Hn in Hcases.
  destruct (run_early _ _ Hm Hcases) as (Hout & Heff); [discriminate |].
  split; [now rewrite sent_of_outcome, Hout | exact Heff].
Qed.

(** X5.  A form that cannot be parsed is answered 500 with the parser's
    message; nothing is read, called or removed. *)
Theorem unparsable_form_is_reported (name message : string) :
  method env = "POST" ->
  parsed env = Throw (JError name message) ->
  sent NumberToString JSON_stringify env
  = Some {| status := 500; body := JObj [("error", JStr message)] |} /\
  effects NumberToString JSON_stringify env = [ParseForm; LogError (JError name message)].
Proof.
  intros Hm Hp.
  pose proof try_block_cases as Hcases. rewrite Hp in Hcases.
  destruct (run_early _ _ Hm Hcases) as (Hout & Heff); [discriminate |].
  split; [now rewrite sent_of_outcome, Hout | exact Heff].
Qed.

(** X6.  When the temporary file cannot be read, the answer is 500 with the
    error's message, no connection is made, and the removal of the file is
    still attempted, once. *)
Theorem unreadable_file_is_still_removed (path : value) (name message : string) :
  method env = "POST" ->
  temp_path env = Some path ->
  readFile env path = Throw (JError name message) ->
  sent NumberToString JSON_stringify env
  = Some {| status := 500; body := JObj [("error", JStr message)] |} /\
  effects NumberToString JSON_stringify env
  = [ParseForm; ReadFile path; LogError (JError name message); Unlink path].
Proof.
  intros Hm Htemp Hread.
  pose proof try_block_cases as Hcases.
  unfold temp_path in Htemp. rewrite Hm in Htemp.
  cbn [String.eqb Ascii.eqb Bool.eqb negb] in Htemp.
  destruct (parsed env) as [files |]; [| discriminate].
  destruct (truthy (chosen files)); [| discriminate]. cbn [negb] in *.
  destruct (path_of (single (chosen files))) as [path' |]; [| discriminate].
  destruct (truthy path') eqn:Ht; [| discriminate]. injection Htemp as ->.
  cbn [negb] in Hcases. rewrite Hread in Hcases.
  destruct (run_early _ _ Hm Hcases) as (Hout & Heff); [discriminate |].
  split; [now rewrite sent_of_outcome, Hout |].
  rewrite Heff. cbn [st trace uploadedPath]. now rewrite Ht.
Qed.

(** X7.  When the connection to the service fails, no prediction call is
    made and the file is removed.  A thrown queued status is answered 202 at
    once: nothing is retried.  Any other failure is answered 500 with its
    message when that message can be built; when building it throws,
    nothing is sent. *)
Theorem failed_connection_makes_no_call (path : value) (bytes : string) (e : value) :
  method env = "POST" ->
  temp_path env = Some path ->
  readFile env path = Ok bytes ->
  connected env = Throw e ->
  sent NumberToString JSON_stringify env
  = (if queued_error e
     then Some {| status := 202; body := queued_body |}
     else
       match error_message NumberToString JSON_stringify e with
       | Ok message => Some {| status := 500; body := JObj [("error", message)] |}
       | Throw _ => None
       end) /\
  effects NumberToString JSON_stringify env = opening path ++ [LogError e; Unlink path] /\
  predict_calls (effects NumberToString JSON_stringify env) = 0%nat.
Proof.
  intros Hm Htemp Hread Hconn.
  pose proof try_block_cases as Hcases.
  unfold temp_path in Htemp. rewrite Hm in Htemp.
  cbn [String.eqb Ascii.eqb Bool.eqb negb] in Htemp.
  destruct (parsed env) as [files |]; [| discriminate].
  destruct (truthy (chosen files)); [| discriminate]. cbn [negb] in *.
  destruct (path_of (single (chosen files))) as [path' |]; [| discriminate].
  destruct (truthy path') eqn:Ht; [| discriminate]. injection Htemp as ->.
  cbn [negb] in Hcases. rewrite Hread, Hconn in Hcases.
  destruct (run_early _ _ Hm Hcases) as (Hout & Heff); [discriminate |].
  assert (Heff' : effects NumberToString JSON_stringify env
                  = opening path ++ [LogError e; Unlink path]).
  { rewrite Heff. cbn [st trace uploadedPath]. now rewrite Ht. }
  split; [| split; [exact Heff' | now rewrite Heff']].
  rewrite sent_of_outcome, Hout. unfold caught.
  destruct (queued_error e); [reflexivity |].
  now destruct (error_message NumberToString JSON_stringify e).
Qed.

(** X8.  The handler waits 2000 ms between two prediction calls and at no
    other time.  The calls and the waits of a run are one unbroken stretch
    of its trace, with no call or wait before or after it: a call, then,
    at most eleven times, a wait followed by the next call.  So a run waits
    once less than it calls, ends its calls on a call and not on a wait,
    and waits at most 22 seconds in all. *)
Theorem backoff_only_between_calls :
  (exists before calls after,
     effects NumberToString JSON_stringify env = before ++ calls ++ after /\
     (forall e, In e before \/ In e after -> is_predict e = false /\ is_sleep e = false) /\
     (calls = [] \/
      exists file j,
        (j <= 11)%nat /\
        calls = List.concat (repeat [Predict "/predict" file; Sleep 2000] j)
                ++ [Predict "/predict" file])) /\
  sleeps (effects NumberToString JSON_stringify env)
  = repeat (Sleep 2000) (Nat.pred (predict_calls (effects NumberToString JSON_stringify env))) /\
  (waited (effects NumberToString JSON_stringify env) <= 22000)%Z.
Proof.
  assert (Hwait : forall j evs, sleeps evs = repeat (Sleep 2000) j ->
                    waited evs = (2000 * Z.of_nat j)%Z).
  { intros j evs. revert j. induction evs as [| e evs IH]; intros j Hs.
    - destruct j; [reflexivity | discriminate].
    - unfold sleeps in *. cbn [filter waited fold_right] in *.
      destruct e; cbn [is_sleep] in Hs; try (now apply IH).
      destruct j as [| j]; [discriminate |]. cbn [repeat] in Hs.
      injection Hs as -> Hs. fold (waited evs). rewrite (IH j Hs). lia. }
  destruct (method env =? "POST") eqn:Hm.
  - apply String.eqb_eq in Hm.
    destruct (run_anatomy Hm)
      as (pre & loop & mid & _ & Heff & Hpre & Hloop & Hmid & _).
    set (tl := mid ++ match temp_path env with Some p => [Unlink p] | None => [] end) in *.
    assert (Hquiet : forall e, In e pre \/ In e tl ->
                       is_predict e = false /\ is_sleep e = false).
    { intros e [Hin | Hin].
      - rewrite forallb_forall in Hpre. specialize (Hpre e Hin).
        destruct e; try discriminate; split; reflexivity.
      - subst tl. apply in_app_or in Hin. destruct Hin as [Hin | Hin].
        + destruct Hmid as [-> | (e' & ->)]; [destruct Hin |].
          destruct Hin as [<- | []]. split; reflexivity.
        + destruct (temp_path env); [| destruct Hin].
          destruct Hin as [<- | []]. split; reflexivity. }
    assert (Hnone : forall evs,
              (forall e, In e evs -> is_predict e = false /\ is_sleep e = false) ->
              sleeps evs = [] /\ predict_calls evs = 0%nat).
    { clear. unfold sleeps, predict_calls.
      induction evs as [| e evs IH]; intros H; [split; reflexivity |].
      destruct (H e (or_introl eq_refl)) as [Hp Hs]. cbn [filter]. rewrite Hp, Hs.
      apply IH. intros e' He'. apply H. now right. }
    destruct (Hnone pre (fun e H => Hquiet e (or_introl H))) as [Hs Hc].
    destruct (Hnone tl (fun e H => Hquiet e (or_intror H))) as [Hts Htc].
    assert (Hsleeps : exists j, (j <= 11)%nat /\
              sleeps (effects NumberToString JSON_stringify env) = repeat (Sleep 2000) j /\
              Nat.pred (predict_calls (effects NumberToString JSON_stringify env)) = j).
    { rewrite Heff. rewrite !predict_calls_app, Hc, Htc.
      unfold sleeps in *. rewrite !filter_app, Hs, Hts.
      destruct Hloop as [-> | (p & bytes & j & _ & _ & _ & Hj & ->)].
      - exists 0%nat. repeat split; lia.
      - exists j. split; [exact Hj |].
        rewrite filter_app, predict_calls_app, polls_calls.
        fold (sleeps (polls (filePayload_of env bytes) j)). rewrite polls_sleeps.
        cbn. rewrite !app_nil_r. split; [reflexivity | lia]. }
    destruct Hsleeps as (j & Hj & Hsl & Hpred).
    split.
    { exists pre, loop, tl. split; [exact Heff |]. split; [exact Hquiet |].
      destruct Hloop as [-> | (p & bytes & j' & _ & _ & _ & Hj' & ->)]; [now left |].
      right. exists (filePayload_of env bytes), j'. split; [exact Hj' | reflexivity]. }
    rewrite Hpred. split; [exact Hsl |].
    rewrite (Hwait j _ Hsl). lia.
  - unfold effects, run, handler. rewrite Hm. cbn [negb respond snd trace init].
    split; [| split; [reflexivity | cbn; lia]].
    exists [], [], []. split; [reflexivity |]. split; [| now left].
    intros e [[] | []].
Qed.

(** X9.  Every prediction call of a run goes to the endpoint ["/predict"]
    and carries the bytes read from the temporary file, as a [Blob] where
    the runtime has one. *)
Theorem every_call_carries_the_file (e : event) :
  In e (effects NumberToString JSON_stringify env) ->
  is_predict e = true ->
  exists path bytes,
    temp_path env = Some path /\ readFile env path = Ok bytes /\
    e = Predict "/predict" (if has_Blob env then Blob bytes else Buffer bytes).
Proof.
  intros Hin Hcall.
  destruct (method env =? "POST") eqn:Hm.
  - apply String.eqb_eq in Hm.
    destruct (run_anatomy Hm)
      as (pre & loop & mid & _ & Heff & Hpre & Hloop & Hmid & _).
    rewrite Heff in Hin. rewrite !in_app_iff in Hin.
    destruct Hin as [Hin | [Hin | [Hin | Hin]]].
    + rewrite forallb_forall in Hpre. specialize (Hpre e Hin).
      destruct e; discriminate.
    + destruct Hloop as [-> | (p & bytes & j & Htemp & _ & Hread & _ & ->)]; [destruct Hin |].
      exists p, bytes. split; [exact Htemp |]. split; [exact Hread |].
      rewrite in_app_iff in Hin. destruct Hin as [Hin | [<- | []]]; [| reflexivity].
      unfold polls in Hin. apply in_concat in Hin. destruct Hin as (l & Hl & He).
      apply repeat_spec in Hl. subst l.
      destruct He as [<- | [<- | []]]; [reflexivity | discriminate].
    + destruct Hmid as [-> | (e' & ->)]; [destruct Hin |].
      destruct Hin as [<- | []]. discriminate.
    + destruct (temp_path env); [destruct Hin as [<- | []]; discriminate | destruct Hin].
  - unfold effects, run, handler in Hin. rewrite Hm in Hin. destruct Hin.
Qed.

(** X10.  The removal of the temporary file is the last thing a run does:
    whatever was read from it or sent to the service came before. *)
Theorem removal_comes_last (path : value) :
  temp_path env = Some path ->
  exists before,
    effects NumberToString JSON_stringify env = before ++ [Unlink path] /\
    unlinks before = [] /\
    In (ReadFile path) before.
Proof.
  intros Htemp.
  assert (Hm : method env = "POST").
  { unfold temp_path in Htemp. destruct (String.eqb_spec (method env) "POST"); [assumption |].
    discriminate. }
  destruct (run_anatomy Hm)
    as (pre & loop & mid & _ & Heff & Hpre & Hloop & Hmid & Hread).
  rewrite Htemp in Heff.
  exists (pre ++ loop ++ mid). split; [now rewrite Heff, <- !app_assoc |].
  split.
  - rewrite !unlinks_app.
    assert (unlinks pre = []) as ->.
    { clear - Hpre. induction pre as [| e pre IH]; [reflexivity |].
      cbn [forallb] in Hpre. apply andb_prop in Hpre. destruct Hpre as [He Hpre].
      unfold unlinks in *. destruct e; try discriminate; cbn; auto. }
    assert (unlinks mid = []) as ->.
    { destruct Hmid as [-> | (e & ->)]; reflexivity. }
    destruct Hloop as [-> | (p & bytes & j & _ & _ & _ & _ & ->)]; [reflexivity |].
    now rewrite unlinks_app, polls_unlinks.
  - apply in_or_app. left. now apply Hread.
Qed.

End Anatomy.

Lemma attempts_same_upstream (env env' : Env) remaining :
  upstream env' = upstream env ->
  forall attempt file s,
    attempts env' remaining attempt file s = attempts env remaining attempt file s.
Proof.
  intros Hup. induction remaining as [| remaining IH]; intros attempt file s; [reflexivity |].
  cbn [attempts]. cbv beta delta [bind].
  assert (Honce : attempt_once env' attempt file s = attempt_once env attempt file s).
  { unfold attempt_once. now rewrite Hup. }
  rewrite Honce. destruct (attempt_once env attempt file s) as [[[] | r | e] s']; auto.
Qed.

(** X11.  A file under [upload] counts only when there is none under
    [file]: with a file under [file], whatever else the form holds changes
    nothing in the run, neither the answer nor what is read, sent and
    removed. *)
Theorem file_field_takes_precedence
  (NumberToString : float -> string) (JSON_stringify : value -> result string)
  (env : Env) (files files' : value) :
  parsed env = Ok files ->
  nullish (opt_member files "file") = false ->
  opt_member files' "file" = opt_member files "file" ->
  run NumberToString JSON_stringify (with_parsed env (Ok files'))
  = run NumberToString JSON_stringify env.
Proof.
  intros Hp Hfile Hsame.
  assert (Hchosen : chosen files' = chosen files).
  { unfold chosen, coalesce. rewrite Hsame, Hfile. reflexivity. }
  assert (Htry : try_block (with_parsed env (Ok files')) init = try_block env init).
  { rewrite (try_block_cases (with_parsed env (Ok files'))), (try_block_cases env).
    cbn [with_parsed parsed readFile connected]. rewrite Hp, Hchosen.
    destruct (truthy (chosen files)); [| reflexivity]. cbn [negb].
    destruct (path_of (single (chosen files))) as [path | e]; [| reflexivity].
    destruct (truthy path); [| reflexivity]. cbn [negb].
    destruct (readFile env path) as [bytes | e]; [| reflexivity].
    destruct (connected env) as [[] | e]; [| reflexivity].
    cbv beta delta [bind].
    rewrite (attempts_same_upstream env (with_parsed env (Ok files'))) by reflexivity.
    reflexivity. }
  unfold run, handler. cbn [with_parsed method]. fold init.
  destruct (negb (method env =? "POST")); [reflexivity |].
  unfold try_finally, try_catch. now rewrite Htry.
Qed.

(** *** Sample requests for the cases above *)

Definition sample_error : value := JError "Error" "ENOENT: no such file or directory".

Definition get_request : Env :=
  {| method := "GET"; parsed := Ok sample_files; readFile := fun _ => Ok "cpu,mem";
     has_Blob := true; connected := Ok tt; upstream := fun _ => Ok sample_result |}.

Definition pathless_files : value :=
  JObj [("file", JArr [JObj [("originalFilename", JStr "trace.csv")]])].

Definition both_fields : value :=
  JObj [("upload", JArr [JObj [("filepath", JStr "/tmp/upload_2")]]);
        ("file", JArr [JObj [("filepath", sample_path);
                             ("originalFilename", JStr "trace.csv")]])].

Definition unreadable : Env :=
  {| method := "POST"; parsed := Ok sample_files; readFile := fun _ => Throw sample_error;
     has_Blob := true; connected := Ok tt; upstream := fun _ => Ok sample_result |}.

Definition unreachable (e : value) : Env :=
  {| method := "POST"; parsed := Ok sample_files; readFile := fun _ => Ok "cpu,mem";
     has_Blob := true; connected := Throw e; upstream := fun _ => Ok sample_result |}.

Lemma other_methods_are_refused_witness :
  sent sample_digits sample_stringify get_request
  = Some {| status := 405; body := JObj [("error", JStr "Method not allowed")] |} /\
  effects sample_digits sample_stringify get_request = [].
Proof.
  apply (other_methods_are_refused sample_digits sample_stringify get_request).
  discriminate.
Defined.

Lemma file_without_path_is_rejected_witness :
  sent sample_digits sample_stringify
    (with_parsed (sample_env queued_twice) (Ok pathless_files))
  = Some {| status := 400; body := JObj [("error", JStr "Uploaded file path not found")] |} /\
  effects sample_digits sample_stringify
    (with_parsed (sample_env queued_twice) (Ok pathless_files)) = [ParseForm].
Proof.
  apply (file_without_path_is_rejected sample_digits sample_stringify
           (with_parsed (sample_env queued_twice) (Ok pathless_files))
           pathless_files JUndefined); reflexivity.
Defined.

Lemma empty_file_list_is_an_error_witness :
  sent sample_digits sample_stringify
    (with_parsed (sample_env queued_twice) (Ok (JObj [("file", JArr [])])))
  = Some {| status := 500;
            body := JObj [("error",
              JStr "Cannot read properties of undefined (reading 'filepath')")] |} /\
  effects sample_digits sample_stringify
    (with_parsed (sample_env queued_twice) (Ok (JObj [("file", JArr [])])))
  = [ParseForm;
     LogError (JError "TypeError" "Cannot read properties of undefined (reading 'filepath')")].
Proof.
  apply (empty_file_list_is_an_error sample_digits sample_stringify
           (with_parsed (sample_env queued_twice) (Ok (JObj [("file", JArr [])])))
           (JObj [("file", JArr [])]) []); reflexivity.
Defined.

Lemma unparsable_form_is_reported_witness :
  sent sample_digits sample_stringify
    (with_parsed (sample_env queued_twice)
       (Throw (JError "Error" "maxTotalFileSize exceeded")))
  = Some {| status := 500; body := JObj [("error", JStr "maxTotalFileSize exceeded")] |} /\
  effects sample_digits sample_stringify
    (with_parsed (sample_env queued_twice)
       (Throw (JError "Error" "maxTotalFileSize exceeded")))
  = [ParseForm; LogError (JError "Error" "maxTotalFileSize exceeded")].
Proof.
  apply (unparsable_form_is_reported sample_digits sample_stringify
           (with_parsed (sample_env queued_twice)
              (Throw (JError "Error" "maxTotalFileSize exceeded")))
           "Error" "maxTotalFileSize exceeded"); reflexivity.
Defined.

Lemma unreadable_file_is_still_removed_witness :
  sent sample_digits sample_stringify unreadable
  = Some {| status := 500;
            body := JObj [("error", JStr "ENOENT: no such file or directory")] |} /\
  effects sample_digits sample_stringify unreadable
  = [ParseForm; ReadFile sample_path; LogError sample_error; Unlink sample_path].
Proof.
  apply (unreadable_file_is_still_removed sample_digits sample_stringify unreadable
           sample_path "Error" "ENOENT: no such file or directory"); reflexivity.
Defined.

Lemma failed_connection_makes_no_call_witness :
  sent sample_digits sample_stringify (unreachable sentinel)
  = Some {| status := 202; body := queued_body |} /\
  sent sample_digits sample_stringify (unreachable sample_error)
  = Some {| status := 500;
            body := JObj [("error", JStr "ENOENT: no such file or directory")] |}.
Proof.
  split.
  - apply (failed_connection_makes_no_call sample_digits sample_stringify
             (unreachable sentinel) sample_path "cpu,mem" sentinel); reflexivity.
  - apply (failed_connection_makes_no_call sample_digits sample_stringify
             (unreachable sample_error) sample_path "cpu,mem" sample_error); reflexivity.
Defined.

Lemma every_call_carries_the_file_witness :
  exists path bytes,
    temp_path (sample_env queued_twice) = Some path /\
    readFile (sample_env queued_twice) path = Ok bytes /\
    Predict "/predict" (Blob "cpu,mem") = Predict "/predict" (Blob bytes).
Proof.
  apply (every_call_carries_the_file sample_digits sample_stringify
           (sample_env queued_twice) (Predict "/predict" (Blob "cpu,mem"))).
  - cbn. tauto.
  - reflexivity.
Defined.

Lemma removal_comes_last_witness :
  exists before,
    effects sample_digits sample_stringify (sample_env queued_twice)
    = before ++ [Unlink sample_path] /\
    unlinks before = [] /\ In (ReadFile sample_path) before.
Proof.
  apply (removal_comes_last sample_digits sample_stringify (sample_env queued_twice)
           sample_path).
  reflexivity.
Defined.

Lemma file_field_takes_precedence_witness :
  run sample_digits sample_stringify (with_parsed (sample_env queued_twice) (Ok both_fields))
  = run sample_digits sample_stringify (sample_env queued_twice).
Proof.
  apply (file_field_takes_precedence sample_digits sample_stringify
           (sample_env queued_twice) sample_files both_fields); reflexivity.
Defined.

End GatewayMore.

(** ** Properties of the chart colours *)
Module ColorSpec.
Import JS Colors.

(** A digit is no white space, sign, prefix letter or hash. *)
Lemma hex_digit_plain (c : ascii) (d : Z) :
  hex_value c = Some d ->
  (0 <= d <= 15)%Z /\ whitespace c = false /\
  Ascii.eqb c "-" = false /\ Ascii.eqb c "+" = false /\
  Ascii.eqb c "x" = false /\ Ascii.eqb c "X" = false /\ Ascii.eqb c "#" = false.
Proof.
  destruct c as [[] [] [] [] [] [] [] []]; vm_compute;
    intros H; try discriminate H; injection H as <-;
    repeat split; try reflexivity; discriminate.
Qed.

(** Six digits are read as the integer they write, which is its own
    32-bit value. *)
Lemma six_digits_value (c1 c2 c3 c4 c5 c6 : ascii) (d1 d2 d3 d4 d5 d6 : Z) :
  hex_value c1 = Some d1 -> hex_value c2 = Some d2 -> hex_value c3 = Some d3 ->
  hex_value c4 = Some d4 -> hex_value c5 = Some d5 -> hex_value c6 = Some d6 ->
  ToInt32 (parseInt16 (String c1 (String c2 (String c3 (String c4 (String c5 (String c6 "")))))))
  = ((16 * d1 + d2) * 65536 + (16 * d3 + d4) * 256 + (16 * d5 + d6))%Z.
Proof.
  intros H1 H2 H3 H4 H5 H6.
  destruct (hex_digit_plain c1 d1 H1) as (B1 & W1 & M1 & P1 & _).
  destruct (hex_digit_plain c2 d2 H2) as (B2 & _ & _ & _ & X2 & X2' & _).
  destruct (hex_digit_plain c3 d3 H3) as (B3 & _).
  destruct (hex_digit_plain c4 d4 H4) as (B4 & _).
  destruct (hex_digit_plain c5 d5 H5) as (B5 & _).
  destruct (hex_digit_plain c6 d6 H6) as (B6 & _).
  unfold parseInt16. cbn [trim_start]. rewrite W1, M1, P1. cbn [orb].
  rewrite X2, X2'. cbn [orb]. rewrite andb_false_r.
  cbn [digits_value]. rewrite H1, H2, H3, H4, H5, H6.
  set (n := (16 * _ + d6)%Z).
  assert (Hn : n = ((16 * d1 + d2) * 65536 + (16 * d3 + d4) * 256 + (16 * d5 + d6))%Z)
    by (subst n; lia).
  clearbody n. subst n.
  set (n := (_ + (16 * d5 + d6))%Z).
  assert (Hlo : (0 <= n)%Z) by (subst n; lia).
  assert (Hhi : (n < 2 ^ 24)%Z) by (subst n; change (2 ^ 24)%Z with 16777216%Z; lia).
  clearbody n.
  unfold ToInt32, nearest_number. rewrite Z.abs_eq by assumption.
  destruct (Z.ltb_spec n (2 ^ 53)) as [_ | Hbig];
    [| change (2 ^ 53)%Z with 9007199254740992%Z in Hbig;
       change (2 ^ 24)%Z with 16777216%Z in Hhi; lia].
  destruct (Z.ltb_spec n 0) as [Hneg | _]; [lia |].
  rewrite Z.mod_small
    by (change (2 ^ 32)%Z with 4294967296%Z; change (2 ^ 24)%Z with 16777216%Z in Hhi; lia).
  destruct (Z.leb_spec (2 ^ 31) n) as [Hbig | _]; [| reflexivity].
  change (2 ^ 31)%Z with 2147483648%Z in Hbig.
  change (2 ^ 24)%Z with 16777216%Z in Hhi. lia.
Qed.

Lemma channels_of_value (a b c : Z) :
  (0 <= a < 256)%Z -> (0 <= b < 256)%Z -> (0 <= c < 256)%Z ->
  let n := (a * 65536 + b * 256 + c)%Z in
  (Z.land (Z.shiftr n 16) 255, Z.land (Z.shiftr n 8) 255, Z.land n 255) = (a, b, c).
Proof.
  intros Ha Hb Hc n.
  change 255%Z with (Z.ones 8).
  rewrite !Z.land_ones, !Z.shiftr_div_pow2 by lia.
  change (2 ^ 16)%Z with 65536%Z. change (2 ^ 8)%Z with 256%Z.
  subst n. repeat f_equal; Z.div_mod_to_equations; lia.
Qed.

Lemma six_digits_channels
  (c1 c2 c3 c4 c5 c6 : ascii) (d1 d2 d3 d4 d5 d6 : Z) :
  hex_value c1 = Some d1 -> hex_value c2 = Some d2 -> hex_value c3 = Some d3 ->
  hex_value c4 = Some d4 -> hex_value c5 = Some d5 -> hex_value c6 = Some d6 ->
  channels (String "#" (String c1 (String c2 (String c3 (String c4 (String c5 (String c6 "")))))))
  = ((16 * d1 + d2)%Z, (16 * d3 + d4)%Z, (16 * d5 + d6)%Z).
Proof.
  intros H1 H2 H3 H4 H5 H6.
  unfold channels. cbn [remove_hash Ascii.eqb Bool.eqb String.length Nat.eqb].
  rewrite (six_digits_value _ _ _ _ _ _ _ _ _ _ _ _ H1 H2 H3 H4 H5 H6).
  apply (hex_digit_plain c1 d1) in H1. apply (hex_digit_plain c2 d2) in H2.
  apply (hex_digit_plain c3 d3) in H3. apply (hex_digit_plain c4 d4) in H4.
  apply (hex_digit_plain c5 d5) in H5. apply (hex_digit_plain c6 d6) in H6.
  apply channels_of_value; lia.
Qed.

Section Decoding.

Variable NumberToString : float -> string.

(** X12.  A colour written [#rrggbb], in digits of either case, gives the
    three bytes it writes, and [hexToRgba] prints them in decimal before
    the alpha. *)
Theorem six_digit_colour_is_decoded
  (c1 c2 c3 c4 c5 c6 : ascii) (d1 d2 d3 d4 d5 d6 : Z) (alpha : float) :
  hex_value c1 = Some d1 -> hex_value c2 = Some d2 -> hex_value c3 = Some d3 ->
  hex_value c4 = Some d4 -> hex_value c5 = Some d5 -> hex_value c6 = Some d6 ->
  let hex := String "#" (String c1 (String c2 (String c3 (String c4 (String c5 (String c6 "")))))) in
  channels hex = ((16 * d1 + d2)%Z, (16 * d3 + d4)%Z, (16 * d5 + d6)%Z) /\
  hexToRgba NumberToString hex alpha
  = ("rgba(" ++ String_of_Z (16 * d1 + d2) ++ ", " ++ String_of_Z (16 * d3 + d4) ++ ", "
     ++ String_of_Z (16 * d5 + d6) ++ ", " ++ NumberToString alpha ++ ")")%string.
Proof.
  intros H1 H2 H3 H4 H5 H6 hex.
  pose proof (six_digits_channels _ _ _ _ _ _ _ _ _ _ _ _ H1 H2 H3 H4 H5 H6) as Hc.
  fold hex in Hc. split; [exact Hc |].
  unfold hexToRgba. now rewrite Hc.
Qed.

End Decoding.

(** X13.  The short form [#rgb] stands for [#rrggbb]: each digit is
    doubled, so each channel is 17 times its digit. *)
Theorem three_digit_colour_is_doubled (c1 c2 c3 : ascii) (d1 d2 d3 : Z) :
  hex_value c1 = Some d1 -> hex_value c2 = Some d2 -> hex_value c3 = Some d3 ->
  channels (String "#" (String c1 (String c2 (String c3 ""))))
  = channels (String "#" (String c1 (String c1 (String c2 (String c2 (String c3 (String c3 "")))))))
  /\ channels (String "#" (String c1 (String c2 (String c3 ""))))
     = ((17 * d1)%Z, (17 * d2)%Z, (17 * d3)%Z).
Proof.
  intros H1 H2 H3.
  assert (Hsame : channels (String "#" (String c1 (String c2 (String c3 ""))))
    = channels (String "#" (String c1 (String c1 (String c2 (String c2 (String c3 (String c3 "")))))))).
  { unfold channels. cbn [remove_hash Ascii.eqb Bool.eqb String.length Nat.eqb doubled].
    reflexivity. }
  split; [exact Hsame |].
  rewrite Hsame, (six_digits_channels c1 c1 c2 c2 c3 c3 d1 d1 d2 d2 d3 d3) by assumption.
  f_equal; [f_equal |]; lia.
Qed.

Section Palettes.

Variable NumberToString : float -> string.

Local Notation "'colour'" := (hexToRgba NumberToString).

Lemma fill_spec count : forall i alpha outBg outBorder,
  fill NumberToString count i alpha outBg outBorder
  = (outBg ++ map (fun k => colour (nth (k mod 10) base "") alpha) (seq i count),
     outBorder ++ map (fun k => colour (nth (k mod 10) base "") 1) (seq i count)).
Proof.
  induction count as [| count IH]; intros i alpha outBg outBorder.
  - cbn [fill seq map]. now rewrite !app_nil_r.
  - cbn [fill seq map]. rewrite IH, <- !app_assoc. reflexivity.
Qed.

(** X14.  [colorPalette(n)] gives [n] fill colours and [n] border colours,
    one pair for each label; colour [i] is the base colour [i mod 10], at the
    given alpha for the fill and at alpha 1 for the border, so the colours
    come round again after ten labels. *)
Theorem palette_has_one_colour_per_label (n : nat) (alpha : float) :
  let bg := fst (colorPalette NumberToString n alpha) in
  let border := snd (colorPalette NumberToString n alpha) in
  List.length bg = n /\ List.length border = n /\
  (forall i, (i < n)%nat ->
     nth_error bg i = Some (colour (nth (i mod 10) base "") alpha) /\
     nth_error border i = Some (colour (nth (i mod 10) base "") 1)) /\
  (forall i, (i + 10 < n)%nat ->
     nth_error bg (i + 10) = nth_error bg i /\
     nth_error border (i + 10) = nth_error border i).
Proof.
  intros bg border. subst bg border. unfold colorPalette. rewrite fill_spec.
  cbn [fst snd app].
  assert (Hnth : forall (f : nat -> string) i, (i < n)%nat ->
            nth_error (map f (seq 0 n)) i = Some (f i)).
  { intros f i Hi. rewrite nth_error_map, nth_error_seq.
    destruct (Nat.ltb_spec i n); [reflexivity | lia]. }
  split; [now rewrite length_map, length_seq |].
  split; [now rewrite length_map, length_seq |].
  split.
  - intros i Hi. now rewrite !Hnth.
  - intros i Hi. rewrite !Hnth by lia.
    replace ((i + 10) mod 10)%nat with (i mod 10)%nat; [split; reflexivity |].
    rewrite <- (Nat.Div0.mod_add i 1 10). reflexivity.
Qed.

End Palettes.

Lemma six_digit_colour_is_decoded_witness :
  channels "#3b82f6" = (59, 130, 246)%Z /\
  hexToRgba (fun _ => "0.85") "#3b82f6" 0.85 = "rgba(59, 130, 246, 0.85)".
Proof.
  exact (six_digit_colour_is_decoded (fun _ => "0.85")
           "3" "b" "8" "2" "f" "6" 3 11 8 2 15 6 0.85
           eq_refl eq_refl eq_refl eq_refl eq_refl eq_refl).
Defined.

Lemma three_digit_colour_is_doubled_witness :
  channels "#Fa0" = channels "#FFaa00" /\ channels "#Fa0" = (255, 170, 0)%Z.
Proof.
  exact (three_digit_colour_is_doubled "F" "a" "0" 15 10 0 eq_refl eq_refl eq_refl).
Defined.

End ColorSpec.

(** ** Properties of the upload *)
Module UploadSpec.
Import JS Upload.

Section Settling.

Variable NumberToString : float -> string.
Variable url : string.
Variable fetched : JS.result http.

Local Notation "'after'" := (handleUpload NumberToString url fetched).

(** X15.  Without a file nothing happens.  With one, a single request is
    made and, however it ends, the page is no longer loading; it then shows
    either the data with no error, or an error with no result: a failed
    upload clears the result of an earlier one.  Only a thrown [undefined]
    or [null] leaves the handler, with neither set anew. *)
Theorem upload_settles (p : page) :
  match file p with
  | None => after p = (p, [], None)
  | Some f =>
      let '(p', requests, escaped) := after p in
      requests = [Fetch url "POST" "file" f] /\
      loading p' = false /\ file p' = Some f /\
      match attempt NumberToString fetched, escaped with
      | Ok data, None => result p' = data /\ error p' = JNull
      | Throw e, None =>
          nullish e = false /\ result p' = JNull /\ truthy (error p') = true
      | Throw e, Some _ =>
          nullish e = true /\ result p' = result p /\ error p' = JNull
      | Ok _, Some _ => False
      end
  end.
Proof.
  unfold handleUpload. destruct (file p) as [f |] eqn:Hf; [| reflexivity].
  destruct (attempt NumberToString fetched) as [data | e].
  - repeat split.
  - unfold member. destruct (nullish e) eqn:He.
    + repeat split.
    + repeat split. cbn [error].
      destruct (truthy (prop e "message")) eqn:Hm; [exact Hm | reflexivity].
Qed.

(** X16.  A refusal is shown in the words of the server.  What is shown
    is the [error] of the body when it has one that counts as true, the
    status text of the response otherwise, as [new Error] turns it into a
    string, and [Upload failed] when that string is empty.  When the
    [error] of the body cannot be turned into a string (an object with a
    property [toString]), [new Error] throws and the page shows the message
    of that [TypeError].  In each case the result of an earlier upload is
    cleared. *)
Theorem refusal_is_shown (p : page) (f : upload) (res : http) (answer : value) :
  file p = Some f ->
  fetched = Ok res ->
  ok res = false ->
  json res = Ok answer ->
  nullish answer = false ->
  let said := prop answer "error" in
  after p
  = ({| file := Some f; result := JNull; loading := false;
        error :=
          JStr match toString NumberToString
                       (if truthy said then said else JStr (statusText res)) with
               | Ok text => if text =? "" then "Upload failed" else text
               | Throw _ => "Cannot convert object to primitive value"
               end |},
     [Fetch url "POST" "file" f], None).
Proof.
  intros Hf Hfetched Hok Hjson Hanswer said.
  unfold handleUpload, attempt. rewrite Hf, Hfetched, Hok, Hjson. cbn [negb].
  unfold member at 1. rewrite Hanswer. fold said.
  destruct (toString NumberToString _) as [text | t] eqn:Htext.
  - cbn [member nullish prop String.eqb Ascii.eqb Bool.eqb truthy].
    now destruct (text =? "").
  - apply PageSpec.toString_throws in Htext. subst t. reflexivity.
Qed.

(** X17.  A request that fails before any answer (the network is down, the
    address is wrong) shows the message of the failure, and no result. *)
Theorem lost_request_is_shown (p : page) (f : upload) (name message : string) :
  file p = Some f ->
  fetched = Throw (JError name message) ->
  after p
  = ({| file := Some f; result := JNull; loading := false;
        error := JStr (if message =? "" then "Upload failed" else message) |},
     [Fetch url "POST" "file" f], None).
Proof.
  intros Hf Hfetched. unfold handleUpload, attempt. rewrite Hf, Hfetched.
  cbn [member nullish prop String.eqb Ascii.eqb Bool.eqb truthy].
  now destruct (message =? "").
Qed.

End Settling.

Definition sample_upload : upload := {| name := "trace.csv"; content := "cpu,mem" |}.

(** A page that shows the result of an earlier upload. *)
Definition sample_page : page :=
  {| file := Some sample_upload;
     result := JObj [("classification", JArr [JNum 0])];
     loading := false; error := JNull |}.

Definition too_large : http :=
  {| ok := false; statusText := "Payload Too Large";
     json := Ok (JObj [("detail", JStr "too large")]) |}.

(** A refusal whose [error] is an object that cannot be shown. *)
Definition unreadable_refusal : http :=
  {| ok := false; statusText := "Internal Server Error";
     json := Ok (JObj [("error", JObj [("toString", JStr "x")])]) |}.

Lemma refusal_is_shown_witness :
  handleUpload GatewaySpec.sample_digits "/api/predict" (Ok too_large) sample_page
  = ({| file := Some sample_upload; result := JNull; loading := false;
        error := JStr "Payload Too Large" |},
     [Fetch "/api/predict" "POST" "file" sample_upload], None) /\
  handleUpload GatewaySpec.sample_digits "/api/predict" (Ok unreadable_refusal) sample_page
  = ({| file := Some sample_upload; result := JNull; loading := false;
        error := JStr "Cannot convert object to primitive value" |},
     [Fetch "/api/predict" "POST" "file" sample_upload], None).
Proof.
  split.
  - apply (refusal_is_shown GatewaySpec.sample_digits "/api/predict" (Ok too_large)
             sample_page sample_upload too_large (JObj [("detail", JStr "too large")]));
      reflexivity.
  - apply (refusal_is_shown GatewaySpec.sample_digits "/api/predict" (Ok unreadable_refusal)
             sample_page sample_upload unreadable_refusal
             (JObj [("error", JObj [("toString", JStr "x")])]));
      reflexivity.
Defined.

Lemma lost_request_is_shown_witness :
  handleUpload GatewaySpec.sample_digits "/api/predict"
    (Throw (JError "TypeError" "Failed to fetch")) sample_page
  = ({| file := Some sample_upload; result := JNull; loading := false;
        error := JStr "Failed to fetch" |},
     [Fetch "/api/predict" "POST" "file" sample_upload], None).
Proof.
  apply (lost_request_is_shown GatewaySpec.sample_digits "/api/predict"
           (Throw (JError "TypeError" "Failed to fetch"))
           sample_page sample_upload "TypeError" "Failed to fetch"); reflexivity.
Defined.

End UploadSpec.

(** ** From the gateway to the page: the answers of the handler as
       [handleUpload] takes them *)
Module Journey.
Import JS Gateway GatewaySpec GatewayMore Upload.

Lemma refused_not_ok (r : response) (reason : string) :
  own_answer r -> status r <> 202%Z -> ok (over_the_wire r reason) = false.
Proof. intros [] Hs; try reflexivity. exfalso. now apply Hs. Qed.

Section Page.

Variable NumberToString : float -> string.
Variable StringToNumber : string -> float.
Variable JSON_stringify : value -> JS.result string.
Variable env : Env.
Variable url reason : string.

(** X18.  The answer [202] counts as a success for [fetch]: when the
    prediction is still queued after the last attempt, the page of the flat
    response, which posts to the handler, takes the notice for a result.
    It shows no error and renders an analysis of the notice, in which both
    arrays are empty and both tables have no line and a total of 0. *)
Theorem queued_notice_is_taken_for_a_result (p : page) (f : upload) (r : response) :
  file p = Some f ->
  sent NumberToString JSON_stringify env = Some r ->
  status r = 202%Z ->
  exists p',
    handleUpload NumberToString "/api/predict" (Ok (over_the_wire r reason)) p
    = (p', [Fetch "/api/predict" "POST" "file" f], None) /\
    loading p' = false /\ error p' = JNull /\
    result p' = queued_body /\
    Preview.analysis_rendered (result p') = true /\
    LegacyPage.classificationData (result p') = [] /\
    LegacyPage.clusterData (result p') = [] /\
    LegacyPage.classification NumberToString StringToNumber (result p')
    = Some {| LegacyPage.counts := []; LegacyPage.labels := [];
              LegacyPage.values := []; LegacyPage.total := 0 |} /\
    LegacyPage.clusters NumberToString StringToNumber (result p')
    = Some {| LegacyPage.counts := []; LegacyPage.labels := [];
              LegacyPage.values := []; LegacyPage.total := 0 |}.
Proof.
  intros Hf Hsent Hs.
  destruct (answer_cases _ _ _ _ Hsent) as [H200 | Hown]; [congruence |].
  destruct Hown; try discriminate Hs.
  unfold handleUpload, attempt. rewrite Hf. cbn [over_the_wire ok status json body].
  cbn [Z.leb Z.compare Pos.compare Pos.compare_cont andb negb].
  eexists. split; [reflexivity |]. cbn [loading error result].
  repeat split.
Qed.

(** X19.  Every other answer that is not a forwarded result is a refusal
    with an [error] that is neither [undefined] nor [null], under one of
    the statuses 400, 405 and 500; when it is a text, that text is what the
    page shows, with no result (the status text of the response, then
    [Upload failed], for the empty text). *)
Theorem refusals_reach_the_page (p : page) (f : upload) (r : response) :
  file p = Some f ->
  sent NumberToString JSON_stringify env = Some r ->
  status r <> 200%Z ->
  status r <> 202%Z ->
  exists message,
    body r = error_body message /\ nullish message = false /\
    In (status r) [400; 405; 500]%Z /\
    forall m, message = JStr m ->
      handleUpload NumberToString url (Ok (over_the_wire r reason)) p
      = ({| file := Some f; result := JNull; loading := false;
            error := JStr (if m =? "" then if reason =? "" then "Upload failed" else reason
                           else m) |},
         [Fetch url "POST" "file" f], None).
Proof.
  clear StringToNumber. intros Hf Hsent H200 H202.
  destruct (answer_cases _ _ _ _ Hsent) as [? | Hown]; [congruence |].
  pose proof (refused_not_ok r reason Hown H202) as Hok.
  assert (Hbody : exists message,
    body r = error_body message /\ nullish message = false /\
    In (status r) [400; 405; 500]%Z).
  { destruct Hown; [now elim H202 | | | |]; eexists; (split; [reflexivity |]);
      (split; [reflexivity || assumption | cbn; tauto]). }
  destruct Hbody as (message & Hb & Hn & Hin).
  exists message. repeat split; try assumption.
  intros m ->. unfold handleUpload, attempt. rewrite Hf, Hok.
  cbn [negb over_the_wire json]. rewrite Hb.
  cbn [member nullish error_body prop lookup String.eqb Ascii.eqb Bool.eqb truthy
       statusText].
  destruct (m =? "") eqn:Hm; cbn [negb toString].
  - cbn [member nullish prop String.eqb Ascii.eqb Bool.eqb truthy].
    change (statusText (over_the_wire r reason)) with reason.
    now destruct (reason =? "").
  - cbn [member nullish prop String.eqb Ascii.eqb Bool.eqb truthy]. now rewrite Hm.
Qed.

End Page.

Lemma queued_notice_is_taken_for_a_result_witness :
  exists p',
    handleUpload sample_digits "/api/predict"
      (Ok (over_the_wire {| status := 202; body := queued_body |} "Accepted"))
      UploadSpec.sample_page
    = (p', [Fetch "/api/predict" "POST" "file" UploadSpec.sample_upload], None) /\
    result p' = queued_body /\ error p' = JNull.
Proof.
  destruct (queued_notice_is_taken_for_a_result sample_digits (fun _ => 0%float)
              sample_stringify (unreachable sentinel) "Accepted"
              UploadSpec.sample_page UploadSpec.sample_upload
              {| status := 202; body := queued_body |}
              eq_refl eq_refl eq_refl)
    as (p' & Hafter & _ & Herror & Hresult & _).
  exists p'. repeat split; assumption.
Defined.

Lemma refusals_reach_the_page_witness :
  handleUpload sample_digits "/api/predict"
    (Ok (over_the_wire
           {| status := 405; body := error_body (JStr "Method not allowed") |}
           "Method Not Allowed"))
    UploadSpec.sample_page
  = ({| file := Some UploadSpec.sample_upload; result := JNull; loading := false;
        error := JStr "Method not allowed" |},
     [Fetch "/api/predict" "POST" "file" UploadSpec.sample_upload], None).
Proof.
  destruct (refusals_reach_the_page sample_digits sample_stringify get_request
              "/api/predict" "Method Not Allowed"
              UploadSpec.sample_page UploadSpec.sample_upload
              {| status := 405; body := error_body (JStr "Method not allowed") |}
              eq_refl eq_refl)
    as (message & Hbody & _ & _ & Hshown); [discriminate | discriminate |].
  injection Hbody as <-. exact (Hshown "Method not allowed" eq_refl).
Defined.

End Journey.

(** ** Properties of the charts and of the prediction table *)
Module PageMore.
Import JS PageSpec.

(** What is below a number is a number. *)
Lemma ltb_self (x y : float) : (x <? y)%float = true -> (x <=? x)%float = true.
Proof.
  rewrite ltb_spec, leb_spec. unfold SFltb, SFleb.
  destruct (Prim2SF x) as [[|] | [|] | | [|] mx ex], (Prim2SF y) as [[|] | [|] | | [|] my ey];
    simpl; try congruence; intros _;
    rewrite Z.compare_refl, Pos.compare_cont_refl; reflexivity.
Qed.

Section Ranges.

Variable NumberToString : float -> string.
Variable StringToNumber : string -> float.

Local Notation "'number'" := (ToNumber NumberToString StringToNumber).
Local Notation "'high'" := (RichPage.high NumberToString StringToNumber).
Local Notation "'medium'" := (RichPage.medium NumberToString StringToNumber).
Local Notation "'low'" := (RichPage.low NumberToString StringToNumber).
Local Notation "'veryLow'" := (RichPage.veryLow NumberToString StringToNumber).
Local Notation "'confidenceRanges'" := (RichPage.confidenceRanges NumberToString StringToNumber).
Local Notation "'derive'" := (RichPage.derive NumberToString StringToNumber).
Local Notation "'bar'" := (Preview.bar NumberToString StringToNumber).
Local Notation "'percent'" := (Preview.percent NumberToString StringToNumber).

(** [c] converts to a number that is not [NaN]. *)
Definition numeric (c : value) : bool :=
  match number c with
  | Ok x => (x <=? x)%float
  | Throw _ => false
  end.

Lemma nan_tests (x : float) :
  (x <=? x)%float = false ->
  (forall t, (t <=? x)%float = false) /\ (forall t, (x <? t)%float = false).
Proof.
  intros Hx. split; intros t.
  - destruct (t <=? x)%float eqn:Ht; [| reflexivity].
    apply leb_refl_of_leb in Ht. congruence.
  - destruct (x <? t)%float eqn:Ht; [| reflexivity].
    apply ltb_self in Ht. congruence.
Qed.

Lemma ranges_of (c : value) :
  (b2n (high c) + b2n (medium c) + b2n (low c) + b2n (veryLow c)
   = if numeric c then 1 else 0)%nat.
Proof.
  unfold numeric. destruct (number c) as [x | e] eqn:Hx.
  - destruct (tests_of_number NumberToString StringToNumber c x Hx) as (-> & -> & -> & ->).
    destruct (x <=? x)%float eqn:Hc.
    + exact (one_range_of x Hc).
    + destruct (nan_tests x Hc) as [Hge Hlt]. now rewrite !Hge, !Hlt.
  - now destruct (tests_of_failure NumberToString StringToNumber c e Hx) as (-> & -> & -> & ->).
Qed.

Lemma count_inv (test : value -> JS.result bool) (c : value) (rest : list value) (n : nat) :
  RichPage.count test (c :: rest) = Ok n ->
  exists kept m,
    test c = Ok kept /\ RichPage.count test rest = Ok m /\ n = if kept then S m else m.
Proof.
  cbn [RichPage.count]. destruct (test c) as [kept |]; [| discriminate].
  destruct (RichPage.count test rest) as [m |]; [| discriminate].
  cbn [and_then]. intros [= <-]. now exists kept, m.
Qed.

Lemma count_tests (test : value -> JS.result bool) (cs : list value) : forall n,
  RichPage.count test cs = Ok n ->
  forall c, In c cs -> exists kept, test c = Ok kept.
Proof.
  induction cs as [| c' cs IH]; intros n Hn c Hc; [destruct Hc |].
  apply count_inv in Hn. destruct Hn as (kept & m & Hkept & Hm & _).
  destruct Hc as [<- | Hc]; [now exists kept | exact (IH m Hm c Hc)].
Qed.

Lemma counts_total (cs : list value) : forall n1 n2 n3 n4,
  RichPage.count high cs = Ok n1 ->
  RichPage.count medium cs = Ok n2 ->
  RichPage.count low cs = Ok n3 ->
  RichPage.count veryLow cs = Ok n4 ->
  (n1 + n2 + n3 + n4 = List.length (filter numeric cs))%nat.
Proof.
  induction cs as [| c cs IH]; intros n1 n2 n3 n4 H1 H2 H3 H4.
  - cbn in *. injection H1 as <-. injection H2 as <-. injection H3 as <-.
    injection H4 as <-. reflexivity.
  - apply count_inv in H1, H2, H3, H4.
    destruct H1 as (k1 & m1 & Hk1 & Hm1 & ->), H2 as (k2 & m2 & Hk2 & Hm2 & ->),
      H3 as (k3 & m3 & Hk3 & Hm3 & ->), H4 as (k4 & m4 & Hk4 & Hm4 & ->).
    pose proof (ranges_of c) as Hc. rewrite Hk1, Hk2, Hk3, Hk4 in Hc.
    specialize (IH m1 m2 m3 m4 Hm1 Hm2 Hm3 Hm4). cbn [filter].
    destruct k1, k2, k3, k4, (numeric c); cbn [b2n List.length] in *; lia.
Qed.

Lemma ranges_inv (cs : list value) (ranges : list (string * nat)) :
  confidenceRanges cs = Ok ranges ->
  exists n1 n2 n3 n4,
    RichPage.count high cs = Ok n1 /\ RichPage.count medium cs = Ok n2 /\
    RichPage.count low cs = Ok n3 /\ RichPage.count veryLow cs = Ok n4 /\
    ranges = [("High (0.8-1.0)", n1); ("Medium (0.6-0.8)", n2);
              ("Low (0.4-0.6)", n3); ("Very Low (0-0.4)", n4)].
Proof.
  unfold RichPage.confidenceRanges.
  destruct (RichPage.count high cs) as [n1 |]; [| discriminate].
  destruct (RichPage.count medium cs) as [n2 |]; [| discriminate].
  destruct (RichPage.count low cs) as [n3 |]; [| discriminate].
  destruct (RichPage.count veryLow cs) as [n4 |]; [| discriminate].
  cbn [and_then]. intros [= <-]. now exists n1, n2, n3, n4.
Qed.

(** X20.  Whatever the confidence values are, each is counted by one range
    when it converts to a number, and by none when it does not ([NaN], a
    text that is no numeral, an object).  The ranges are made exactly when
    every value can be converted, and then the four counts add up to the
    number of values that convert to a number, which may be less than the
    length of the preview. *)
Theorem ranges_count_what_is_a_number (cs : list value) :
  (forall c,
     (b2n (high c) + b2n (medium c) + b2n (low c) + b2n (veryLow c)
      = if numeric c then 1 else 0)%nat) /\
  ((exists ranges, confidenceRanges cs = Ok ranges) <->
   (forall c, In c cs -> converts NumberToString c = true)) /\
  (forall ranges,
     confidenceRanges cs = Ok ranges ->
     (range "High (0.8-1.0)" ranges + range "Medium (0.6-0.8)" ranges
      + range "Low (0.4-0.6)" ranges + range "Very Low (0-0.4)" ranges
      = List.length (filter numeric cs))%nat).
Proof.
  split; [exact ranges_of |]. split.
  - split; [| apply ranges_convert].
    intros [ranges Hranges] c Hc.
    apply ranges_inv in Hranges. destruct Hranges as (n1 & _ & _ & _ & H1 & _).
    destruct (count_tests _ cs n1 H1 c Hc) as [kept Hkept].
    unfold RichPage.high, ge, ToNumber, converts in *.
    now destruct (ToPrimitive NumberToString c).
  - intros ranges Hranges. apply ranges_inv in Hranges.
    destruct Hranges as (n1 & n2 & n3 & n4 & H1 & H2 & H3 & H4 & ->).
    cbn [range lookup String.eqb Ascii.eqb Bool.eqb].
    now apply counts_total.
Qed.

(** The value counted for an entry compares with the thresholds as the
    [confidence] of the entry does. *)
Lemma ge_counted (c : value) (t : float) :
  (t <=? 0)%float = false ->
  ge NumberToString StringToNumber (coalesce c (JNum 0)) t
  = ge NumberToString StringToNumber c t.
Proof.
  intros H0. unfold coalesce.
  assert (Hnan : (t <=? PrimFloat.nan)%float = false).
  { destruct (t <=? PrimFloat.nan)%float eqn:E; [| reflexivity].
    apply leb_refl_of_leb in E. discriminate E. }
  destruct c; try reflexivity; unfold ge;
    cbn [nullish ToNumber ToPrimitive and_then number_of_primitive];
    now rewrite ?H0, ?Hnan.
Qed.

(** X21.  The bar of a row has the colour of the range that counts the
    entry: green for High, yellow for Medium, orange for Low, and red for
    Very Low and for an entry that converts to [NaN], which no range
    counts.  It has no colour when the confidence cannot be converted: the
    comparison throws what the conversion throws. *)
Theorem bar_colour_follows_the_range (prediction : value) :
  let counted := coalesce (prop prediction "confidence") (JNum 0) in
  (bar prediction = Ok "bg-green-500" <-> high counted = Ok true) /\
  (bar prediction = Ok "bg-yellow-500" <-> medium counted = Ok true) /\
  (bar prediction = Ok "bg-orange-500" <-> low counted = Ok true) /\
  (bar prediction = Ok "bg-red-500" <->
   veryLow counted = Ok true \/
   exists x, number counted = Ok x /\ (x <=? x)%float = false) /\
  (forall e, bar prediction = Throw e <-> number counted = Throw e).
Proof.
  intros counted.
  assert (Hbar : bar prediction
    = and_then (ge NumberToString StringToNumber counted 0.8) (fun is_high =>
      if is_high then Ok "bg-green-500" else
      and_then (ge NumberToString StringToNumber counted 0.6) (fun is_medium =>
      if is_medium then Ok "bg-yellow-500" else
      and_then (ge NumberToString StringToNumber counted 0.4) (fun is_low =>
      Ok (if is_low then "bg-orange-500" else "bg-red-500"))))).
  { unfold Preview.bar, counted. now rewrite !ge_counted by reflexivity. }
  rewrite Hbar. clear Hbar. unfold ge.
  destruct (number counted) as [x | e] eqn:Hx.
  - destruct (tests_of_number NumberToString StringToNumber counted x Hx)
      as (-> & -> & -> & ->).
    cbn [and_then].
    destruct (x <=? x)%float eqn:Hn.
    + rewrite !(ltb_negb_leb x) by (assumption || reflexivity).
      pose proof (ge_08_06 x) as H86. pose proof (ge_06_04 x) as H64.
      destruct (0.8 <=? x)%float, (0.6 <=? x)%float, (0.4 <=? x)%float;
        try discriminate (H86 eq_refl); try discriminate (H64 eq_refl);
        cbn [and_then andb negb];
        repeat split; try discriminate; try reflexivity; try (now left);
        intros [H | (x' & [= <-] & H)]; congruence.
    + destruct (nan_tests x Hn) as [Hge Hlt]. rewrite !Hge, !Hlt.
      cbn [and_then andb negb].
      repeat split; try discriminate; try reflexivity.
      intros _. right. now exists x.
  - destruct (tests_of_failure NumberToString StringToNumber counted e Hx)
      as (-> & -> & -> & ->).
    cbn [and_then].
    repeat split; try discriminate; try (intros [= <-]; reflexivity).
    intros [H | (x & H & _)]; discriminate.
Qed.

(** X22.  An entry with no [confidence] is counted as 0, in Very Low, and
    has a red bar; but its row shows the text of [NaN] when the field is
    absent, and 0.0 only when it is [null]. *)
Theorem absent_confidence_in_the_table (prediction : value) :
  nullish (prop prediction "confidence") = true ->
  let counted := coalesce (prop prediction "confidence") (JNum 0) in
  counted = JNum 0 /\ veryLow counted = Ok true /\
  bar prediction = Ok "bg-red-500" /\
  percent prediction
  = Ok match prop prediction "confidence" with
       | JNull => "0.0"
       | _ => NumberToString PrimFloat.nan
       end.
Proof.
  intros Hc counted. subst counted. unfold Preview.bar, Preview.percent.
  destruct (prop prediction "confidence"); try discriminate Hc; repeat split.
Qed.

Lemma confidences_first (before after : list value) (p : value) :
  (forall q, In q before -> nullish q = false) ->
  nullish p = true ->
  RichPage.confidences (before ++ p :: after) = Throw (read_of_nullish p "confidence").
Proof.
  intros Hbefore Hp. induction before as [| q before IH]; cbn [app RichPage.confidences].
  - unfold member. now rewrite Hp.
  - unfold member. rewrite (Hbefore q (or_introl eq_refl)).
    rewrite IH; [reflexivity |]. intros x Hx. apply Hbefore. now right.
Qed.

Lemma confidences_all (preview : list value) :
  (forall p, In p preview -> nullish p = false) ->
  RichPage.confidences preview
  = Ok (map (fun p => coalesce (prop p "confidence") (JNum 0)) preview).
Proof.
  induction preview as [| p rest IH]; intros Hall; [reflexivity |].
  cbn [RichPage.confidences map]. unfold member.
  rewrite (Hall p (or_introl eq_refl)), IH; [reflexivity |].
  intros q Hq. apply Hall. now right.
Qed.

(** The first entry of a list that fails a test, if one does. *)
Lemma first_failing {A : Type} (test : A -> bool) (l : list A) :
  (forall x, In x l -> test x = true) \/
  (exists before x after,
     l = before ++ x :: after /\
     (forall q, In q before -> test q = true) /\ test x = false).
Proof.
  induction l as [| x rest IH].
  - left. intros ? [].
  - destruct (test x) eqn:Hx.
    + destruct IH as [Hall | (before & y & after & -> & Hbefore & Hy)].
      * left. intros q [<- | Hq]; auto.
      * right. exists (x :: before), y, after. repeat split; [| assumption].
        intros q [<- | Hq]; auto.
    + right. exists [], x, rest. repeat split; [intros ? [] | assumption].
Qed.

(** An absent confidence converts, as the 0 counted for it does. *)
Lemma converts_counted (c : value) :
  converts NumberToString (coalesce c (JNum 0)) = converts NumberToString c.
Proof. now destruct c. Qed.

(** X23.  The rich page derives its view exactly when no entry of the
    preview is [undefined] or [null] and the confidence of every entry can
    be converted to a primitive.  With an entry that is [undefined] or
    [null], the derivation throws the [TypeError] of the read of
    [confidence] on the first such entry, whatever follows it.  With none,
    it throws the [TypeError] of the first confidence that cannot be
    converted, in the sum of the mean. *)
Theorem derivation_stops_at_a_missing_entry (result : value) :
  let preview := RichPage.predictionsPreview result in
  ((exists view, derive result = Ok view) <->
   (forall p, In p preview ->
      nullish p = false /\ converts NumberToString (prop p "confidence") = true)) /\
  (forall before p after,
     preview = before ++ p :: after ->
     (forall q, In q before -> nullish q = false) ->
     nullish p = true ->
     derive result = Throw (read_of_nullish p "confidence")) /\
  (forall before p after,
     preview = before ++ p :: after ->
     (forall q, In q preview -> nullish q = false) ->
     (forall q, In q before -> converts NumberToString (prop q "confidence") = true) ->
     converts NumberToString (prop p "confidence") = false ->
     derive result = Throw not_a_primitive).
Proof.
  intros preview.
  assert (Hmissing : forall before p after,
    preview = before ++ p :: after ->
    (forall q, In q before -> nullish q = false) ->
    nullish p = true ->
    derive result = Throw (read_of_nullish p "confidence")).
  { intros before p after Hpreview Hbefore Hp.
    unfold RichPage.derive, RichPage.confidenceValues. fold preview.
    now rewrite Hpreview, (confidences_first before after p Hbefore Hp). }
  assert (Hobject : forall before p after,
    preview = before ++ p :: after ->
    (forall q, In q preview -> nullish q = false) ->
    (forall q, In q before -> converts NumberToString (prop q "confidence") = true) ->
    converts NumberToString (prop p "confidence") = false ->
    derive result = Throw not_a_primitive).
  { intros before p after Hpreview Hall Hbefore Hp.
    unfold RichPage.derive, RichPage.confidenceValues. fold preview.
    rewrite (confidences_all preview Hall), Hpreview, map_app. cbn [map and_then].
    set (counted := fun q => coalesce (prop q "confidence") (JNum 0)).
    assert (Hthrow : ToPrimitive NumberToString (counted p) = Throw not_a_primitive).
    { unfold counted. rewrite <- converts_counted in Hp. unfold converts in Hp.
      destruct (ToPrimitive NumberToString _) as [| t] eqn:Ht; [discriminate |].
      f_equal. unfold ToPrimitive in Ht.
      destruct (coalesce (prop p "confidence") (JNum 0)); try discriminate;
        (destruct (toString NumberToString _) as [| t'] eqn:Ht'; [discriminate |]);
        cbn [and_then] in Ht; injection Ht as <-;
        exact (toString_throws NumberToString _ _ Ht'). }
    assert (Hsum : RichPage.reduce NumberToString StringToNumber
                     (map counted before ++ counted p :: map counted after) (JNum 0)
                   = Throw not_a_primitive).
    { apply reduce_throws; [reflexivity | | exact Hthrow].
      intros c Hc. apply in_map_iff in Hc. destruct Hc as (q & <- & Hq).
      unfold counted. rewrite converts_counted. now apply Hbefore. }
    unfold RichPage.avgConfidence.
    change (coalesce (prop p "confidence") (JNum 0)) with (counted p).
    remember (map counted before ++ counted p :: map counted after) as cs eqn:Hcs.
    destruct cs as [| c cs]; [destruct (map counted before); discriminate |].
    now rewrite Hsum. }
  split; [| split; assumption].
  split.
  - intros [view Hview] p Hp.
    destruct (first_failing (fun q => negb (nullish q)) preview)
      as [Hall | (before & q & after & Hpreview & Hbefore & Hq)].
    + assert (Hall' : forall q, In q preview -> nullish q = false).
      { intros q Hq. specialize (Hall q Hq). now destruct (nullish q). }
      split; [now apply Hall' |].
      destruct (first_failing (fun q => converts NumberToString (prop q "confidence")) preview)
        as [Hconv | (before & q & after & Hpreview & Hbefore & Hq)]; [now apply Hconv |].
      rewrite (Hobject before q after Hpreview Hall' Hbefore Hq) in Hview. discriminate.
    + rewrite (Hmissing before q after Hpreview) in Hview; [discriminate | |].
      * intros x Hx. specialize (Hbefore x Hx). now destruct (nullish x).
      * now destruct (nullish q).
  - intros Hall. now apply derive_total.
Qed.

End Ranges.

(** X24.  The table shows the first twenty entries until all are asked
    for, and the button that asks for them is offered exactly when the short
    table leaves entries out. *)
Theorem short_table_hides_what_the_button_shows (predictionsPreview : list value) :
  Preview.shown true predictionsPreview = predictionsPreview /\
  List.length (Preview.shown false predictionsPreview)
  = Nat.min 20 (List.length predictionsPreview) /\
  (exists hidden,
     predictionsPreview = Preview.shown false predictionsPreview ++ hidden /\
     (Preview.toggle predictionsPreview = true <-> hidden <> [])).
Proof.
  unfold Preview.shown, Preview.toggle.
  split; [reflexivity |]. split; [apply length_firstn |].
  exists (skipn 20 predictionsPreview). split; [now rewrite firstn_skipn |].
  rewrite Nat.ltb_lt. split.
  - intros Hlen Hnil. apply (f_equal (@List.length value)) in Hnil.
    rewrite length_skipn in Hnil. cbn [List.length] in Hnil. lia.
  - intros Hne. destruct (Nat.le_gt_cases (List.length predictionsPreview) 20) as [Hle | Hgt];
      [| exact Hgt].
    elim Hne. now apply skipn_all2.
Qed.

(** *** The tables of the flat page *)

Lemma sorted_same (l : list Z) : forall l',
  StronglySorted Z.lt l -> StronglySorted Z.lt l' ->
  (forall v, In v l <-> In v l') -> l = l'.
Proof.
  induction l as [| x l IH]; intros [| y l'] Hl Hl' Hsame.
  - reflexivity.
  - destruct (proj2 (Hsame y) (or_introl eq_refl)).
  - destruct (proj1 (Hsame x) (or_introl eq_refl)).
  - apply StronglySorted_inv in Hl, Hl'.
    destruct Hl as [Hl Hx], Hl' as [Hl' Hy]. rewrite Forall_forall in Hx, Hy.
    assert (Hxy : x = y).
    { destruct (proj1 (Hsame x) (or_introl eq_refl)) as [Heq | Hin]; [now symmetry |].
      destruct (proj2 (Hsame y) (or_introl eq_refl)) as [Heq | Hin']; [assumption |].
      specialize (Hx y Hin'). specialize (Hy x Hin). lia. }
    subst y. f_equal. apply IH; try assumption.
    intros v. split; intros Hv.
    + destruct (proj1 (Hsame v) (or_intror Hv)) as [<- | Hin]; [| assumption].
      specialize (Hx x Hv). lia.
    + destruct (proj2 (Hsame v) (or_intror Hv)) as [<- | Hin]; [| assumption].
      specialize (Hy x Hv). lia.
Qed.

Lemma occurrences_Permutation (arr arr' : list float) (v : float) :
  Permutation arr arr' -> occurrences arr v = occurrences arr' v.
Proof.
  intros Hperm. unfold occurrences. f_equal.
  induction Hperm as [| x l l' _ IH | x y l | l l' l'' _ IH _ IH'];
    cbn [filter]; try reflexivity.
  - destruct (x =? v)%float; cbn [List.length]; now rewrite IH.
  - now destruct (x =? v)%float, (y =? v)%float.
  - now rewrite IH.
Qed.

Lemma occurrences_same (arr : list float) (v v' : float) :
  (v =? v')%float = true -> occurrences arr v = occurrences arr v'.
Proof.
  intros Hv. unfold occurrences. f_equal. f_equal. apply filter_ext. intros x.
  destruct (eqb_is_number _ _ Hv) as [Hn Hn'].
  rewrite (eqb_rank _ _ Hn Hn') in Hv. apply Z.eqb_eq in Hv.
  destruct (is_number x) eqn:Hx.
  - now rewrite (eqb_rank _ _ Hx Hn), (eqb_rank _ _ Hx Hn'), Hv.
  - destruct (x =? v)%float eqn:E.
    + apply eqb_is_number in E. destruct E; congruence.
    + destruct (x =? v')%float eqn:E'; [| reflexivity].
      apply eqb_is_number in E'. destruct E'; congruence.
Qed.

Lemma sorted_ranks (vs : list float) :
  (forall v, In v vs -> is_number v = true) ->
  StronglySorted (fun a b => (a <? b)%float = true) vs ->
  StronglySorted Z.lt (map rank vs).
Proof.
  intros Hn Hs. induction Hs as [| v vs Hs IH Hv]; [constructor |].
  cbn [map]. constructor.
  - apply IH. intros x Hx. apply Hn. now right.
  - rewrite Forall_forall in *. intros r Hr.
    apply in_map_iff in Hr. destruct Hr as (y & <- & Hy).
    specialize (Hv y Hy).
    rewrite (ltb_rank v y) in Hv by (apply Hn; first [now left | now right]).
    now apply Z.ltb_lt.
Qed.

Lemma map_through {A B C : Type} (f : A -> B) (g g' : A -> C) (l : list A) : forall l',
  map f l = map f l' ->
  (forall a a', In a l -> In a' l' -> f a = f a' -> g a = g' a') ->
  map g l = map g' l'.
Proof.
  induction l as [| a l IH]; intros [| a' l'] Hf Hg; try discriminate; [reflexivity |].
  cbn [map] in *. injection Hf as Ha Hf. f_equal.
  - apply Hg; [now left | now left | exact Ha].
  - apply IH; [exact Hf |]. intros x x' Hx Hx'. apply Hg; now right.
Qed.

(** X25.  The table [buildCounts] makes does not depend on the order of
    the array.  For numbers that [Number] reads back from what [String]
    prints, equal numbers being printed alike, two arrays with the same
    entries in any order give the same labels, the same values and the
    same total, hence the same lines under the chart. *)
Theorem counts_ignore_the_order
  (NumberToString : float -> string) (StringToNumber : string -> float)
  (arr arr' : list float) :
  Permutation arr arr' ->
  (forall x, In x arr -> (StringToNumber (NumberToString x) =? x)%float = true) ->
  (forall x y, In x arr -> In y arr -> (x =? y)%float = true ->
     NumberToString x = NumberToString y) ->
  let t := LegacyPage.buildCounts NumberToString StringToNumber arr in
  let t' := LegacyPage.buildCounts NumberToString StringToNumber arr' in
  LegacyPage.labels t = LegacyPage.labels t' /\
  LegacyPage.values t = LegacyPage.values t' /\
  LegacyPage.total t = LegacyPage.total t' /\
  LegacyPage.rows NumberToString t = LegacyPage.rows NumberToString t'.
Proof.
  intros Hperm Hround Hone t t'.
  assert (Hback : forall x, In x arr' -> In x arr).
  { intros x. apply Permutation_in. now symmetry. }
  assert (Hround' : forall x, In x arr' ->
            (StringToNumber (NumberToString x) =? x)%float = true) by auto.
  assert (Hone' : forall x y, In x arr' -> In y arr' -> (x =? y)%float = true ->
            NumberToString x = NumberToString y) by auto.
  assert (Hnumber : forall x, In x arr -> is_number x = true).
  { intros x Hx. exact (proj2 (eqb_is_number _ _ (Hround x Hx))). }
  destruct (buildCounts_labels NumberToString StringToNumber arr Hround Hone)
    as (vs & Hsorted & _ & Hin & Hcover & Hlabels & Hvalues).
  destruct (buildCounts_labels NumberToString StringToNumber arr' Hround' Hone')
    as (vs' & Hsorted' & _ & Hin' & Hcover' & Hlabels' & Hvalues').
  assert (Hranks : map rank vs = map rank vs').
  { apply sorted_same.
    - apply sorted_ranks; [| exact Hsorted]. intros v Hv. apply Hnumber, Hin, Hv.
    - apply sorted_ranks; [| exact Hsorted']. intros v Hv. apply Hnumber, Hback, Hin', Hv.
    - assert (Hcross : forall us ws : list float,
                (forall u, In u us -> exists w, In w ws /\ (u =? w)%float = true) ->
                forall r, In r (map rank us) -> In r (map rank ws)).
      { intros us ws H r Hr. apply in_map_iff in Hr. destruct Hr as (u & <- & Hu).
        destruct (H u Hu) as (w & Hw & Huw).
        destruct (eqb_is_number _ _ Huw) as [Hn Hn'].
        rewrite (eqb_rank _ _ Hn Hn') in Huw. apply Z.eqb_eq in Huw.
        rewrite Huw. now apply in_map. }
      intros r. split; apply Hcross.
      + intros u Hu. apply Hcover'. apply (Permutation_in _ Hperm). now apply Hin.
      + intros u Hu. apply Hcover. apply Hback. now apply Hin'. }
  assert (Hsame : forall v v', In v vs -> In v' vs' -> rank v = rank v' ->
            (v =? v')%float = true).
  { intros v v' Hv Hv' Hr.
    rewrite eqb_rank by (apply Hnumber; auto). now apply Z.eqb_eq. }
  assert (Hsame_labels : LegacyPage.labels t = LegacyPage.labels t').
  { subst t t'. rewrite Hlabels, Hlabels'.
    apply (map_through rank); [exact Hranks |].
    intros v v' Hv Hv' Hr. apply Hone; auto. }
  assert (Hsame_values : LegacyPage.values t = LegacyPage.values t').
  { subst t t'. rewrite Hvalues, Hvalues'.
    apply (map_through rank); [exact Hranks |].
    intros v v' Hv Hv' Hr. f_equal.
    rewrite (occurrences_same arr v v') by auto.
    now apply occurrences_Permutation. }
  assert (Htotal : LegacyPage.total t = LegacyPage.total t').
  { subst t t'. cbn [LegacyPage.buildCounts LegacyPage.total]. f_equal.
    now apply Permutation_length. }
  repeat split; try assumption.
  unfold LegacyPage.rows. now rewrite Hsame_values, Htotal, Hsame_labels.
Qed.

Lemma counts_ignore_the_order_witness :
  LegacyPage.rows sample_String
    (LegacyPage.buildCounts sample_String sample_Number [2; 0.5; 2; -1.25]%float)
  = LegacyPage.rows sample_String
      (LegacyPage.buildCounts sample_String sample_Number [0.5; -1.25; 2; 2]%float).
Proof.
  apply (counts_ignore_the_order sample_String sample_Number
           [2; 0.5; 2; -1.25]%float [0.5; -1.25; 2; 2]%float).
  - apply (perm_trans (l' := [0.5; 2; 2; -1.25]%float)); [apply perm_swap |].
    apply perm_skip.
    apply (perm_trans (l' := [2; -1.25; 2]%float)); [apply perm_skip, perm_swap | apply perm_swap].
  - intros x Hx. cbn [In] in Hx.
    repeat (destruct Hx as [<- | Hx]; [reflexivity |]). destruct Hx.
  - intros x y Hx Hy. cbn [In] in Hx, Hy.
    repeat (destruct Hx as [<- | Hx];
            [repeat (destruct Hy as [<- | Hy];
                     [first [intros _; reflexivity | intros H; discriminate H] |]);
             destruct Hy |]).
    destruct Hx.
Defined.

(** *** The charts *)

Lemma lookup_unique {A} (props : list (string * A)) (k : string) (v : A) :
  NoDup (map fst props) -> In (k, v) props -> lookup k props = Some v.
Proof.
  induction props as [| [k' v'] props IH]; intros Hnd Hin; [destruct Hin |].
  cbn [map fst] in Hnd. apply NoDup_cons_iff in Hnd. destruct Hnd as [Hnotin Hnd].
  cbn [lookup]. destruct Hin as [[= -> ->] | Hin].
  - now rewrite String.eqb_refl.
  - destruct (String.eqb_spec k' k) as [-> | _]; [| now apply IH].
    elim Hnotin. apply (in_map fst) in Hin. exact Hin.
Qed.

Lemma combine_fst_snd {A B} (l : list (A * B)) : combine (map fst l) (map snd l) = l.
Proof. induction l as [| [a b] l IH]; [reflexivity |]. cbn. now rewrite IH. Qed.

Lemma nth_error_fst_snd {A B} (l : list (A * B)) (i : nat) (a : A) (b : B) :
  nth_error (map fst l) i = Some a -> nth_error (map snd l) i = Some b -> In (a, b) l.
Proof.
  rewrite !nth_error_map.
  destruct (nth_error l i) as [[a' b'] |] eqn:Hi; [| discriminate].
  cbn. intros [= <-] [= <-]. now apply nth_error_In in Hi.
Qed.

Section Slices.

Variable NumberToString : float -> string.
Variable StringToNumber : string -> float.

(** X26.  When the class distribution of the response is an object (its
    keys distinct, as the keys of a parsed object are), the slices of the
    class chart are its properties, each once: slice [i] is labelled with a
    key and holds the value the object has under that key. *)
Theorem class_slices_are_the_properties (result : value) (props : list (string * value)) :
  RichPage.classDistribution result = JObj props ->
  NoDup (map fst props) ->
  let c := Charts.classificationChart NumberToString result in
  Permutation (combine (Charts.labels c) (Charts.data c)) props /\
  List.length (Charts.labels c) = List.length props /\
  List.length (Charts.data c) = List.length props /\
  (forall i l v,
     nth_error (Charts.labels c) i = Some l ->
     nth_error (Charts.data c) i = Some v ->
     prop (JObj props) l = v).
Proof.
  intros Hdist Hnd c. subst c.
  cbn [Charts.classificationChart Charts.labels Charts.data].
  unfold RichPage.classLabels, RichPage.classValues, keys, values. rewrite Hdist.
  cbn [entries].
  pose proof (own_entries_Permutation props) as Hperm.
  rewrite combine_fst_snd, !length_map, (Permutation_length Hperm).
  repeat split; [assumption |].
  intros i l v Hl Hv. cbn [prop].
  rewrite (lookup_unique props l v Hnd); [reflexivity |].
  apply (Permutation_in _ Hperm). exact (nth_error_fst_snd _ i l v Hl Hv).
Qed.

End Slices.

Definition sample_distribution : list (string * value) :=
  [("cpu_bound", JNum 3); ("io_bound", JNum 1)].

Definition sample_summary : value :=
  JObj [("summary", JObj [("total_windows", JNum 4);
                          ("class_distribution", JObj sample_distribution)])].

Lemma ranges_count_what_is_a_number_witness :
  exists ranges,
    RichPage.confidenceRanges (fun _ => "0") (fun _ => PrimFloat.nan)
      [JNum 0.9; JStr "high"; JNum 0.1] = Ok ranges /\
    (range "High (0.8-1.0)" ranges + range "Medium (0.6-0.8)" ranges
     + range "Low (0.4-0.6)" ranges + range "Very Low (0-0.4)" ranges = 2)%nat.
Proof.
  eexists. split; [reflexivity |].
  exact (proj2 (proj2 (ranges_count_what_is_a_number (fun _ => "0") (fun _ => PrimFloat.nan)
                         [JNum 0.9; JStr "high"; JNum 0.1])) _ eq_refl).
Defined.

Lemma absent_confidence_in_the_table_witness :
  Preview.bar (fun _ => "NaN") (fun _ => PrimFloat.nan) (JObj [("window_id", JNum 7)])
  = Ok "bg-red-500" /\
  Preview.percent (fun _ => "NaN") (fun _ => PrimFloat.nan) (JObj [("window_id", JNum 7)])
  = Ok "NaN".
Proof.
  destruct (absent_confidence_in_the_table (fun _ => "NaN") (fun _ => PrimFloat.nan)
              (JObj [("window_id", JNum 7)]) eq_refl)
    as (_ & _ & Hbar & Hpercent).
  split; assumption.
Defined.

Lemma class_slices_are_the_properties_witness :
  Permutation
    (combine (Charts.labels (Charts.classificationChart (fun _ => "0") sample_summary))
             (Charts.data (Charts.classificationChart (fun _ => "0") sample_summary)))
    sample_distribution.
Proof.
  apply (class_slices_are_the_properties (fun _ => "0") sample_summary sample_distribution).
  - reflexivity.
  - repeat constructor; cbn; intuition discriminate.
Defined.

End PageMore.
